(** * fs-template: the inbound adapter pipeline, the retry wrapper and the
    saga orchestrator, embedded in Rocq.

    Sources covered:
    - [utils/tools/http-status.ts] and [utils/tools/custom-error.ts]
      (module [Http]);
    - [core/lib/transaction.util.ts] (modules [SagaStep] and [Saga]);
    - [utils/tools/retry.ts] (module [Retry]);
    - [utils/tools/saas-identity.ts] (module [Identity]);
    - [core/lib/lambda-adapter.factory.ts] (module [LambdaAdapter]);
    - [core/lib/sqs-adapter.factory.ts] (module [SqsAdapter]);
    - [core/lib/topic-publisher.adapter.ts] (module [TopicPublisher]);
    - [core/lib/dynamodb-repository.factory.ts] (modules [DynamoDB] and
      [BaseRepository]);
    - the user registration saga, [register-user.usecase.ts], the auth
      [process-webhook.usecase.ts] and [webhook.adapter.ts], and the
      webhook check of [utils/vendors/jwt-vendor.ts] (modules
      [UserRegistrationSagaBuilder], [RegisterUser] and [AuthWebhook]);
    - the researcher's schemas, repository, use cases and lookup adapter
      (modules [Zod] and [Research]);
    - the billing [checkout.adapter.ts] and [create-api-key.adapter.ts]
      (module [BillingAdapters]).

    Asynchronous functions are programs over an explicit world: a call to a
    collaborator transforms the world and either resolves or rejects, and
    every program also yields the list of calls it made, in order. Of the
    console output only the [console.error] of a [catch] block is kept as
    an event; [JSON.parse], the built-in prototypes, the identity
    provider and the queue client are taken as given. *)

From Stdlib Require Import List String Ascii ZArith Arith Bool Lia Permutation.
From Stdlib Require Import DecimalString.
From Stdlib Require DecimalNat DecimalFacts.
Import ListNotations.
Local Open Scope string_scope.
Local Open Scope list_scope.
Set Warnings "-register-all".

(* ================================================================== *)
(** ** JavaScript values, thrown values and string helpers             *)
(* ================================================================== *)

Module Js.

(** Values as [JSON.parse] builds them, plus [undefined] and opaque
    host objects (built-in functions found on a prototype). Of the
    Numbers only the integer-valued ones are there: [JNum n] is the
    Number nearest to [n] (which is [n] itself up to 2^53), for
    [JSON.parse] rounds the digits it reads to a double. Strings are
    kept as the bytes of their UTF-8 text. *)
Inductive JsValue : Type :=
| JUndefined
| JNull
| JBool (b : bool)
| JNum (n : Z)
| JStr (s : string)
| JArr (items : list JsValue)
| JObj (members : list (string * JsValue))
| JHost (name : string).

(** [enum HttpStatusCode] of http-status.ts. *)
Inductive HttpStatusCode : Type :=
| OK | CREATED | ACCEPTED | BAD_REQUEST | UNAUTHORIZED | FORBIDDEN
| NOT_FOUND | INTERNAL_SERVER_ERROR | INSUFFICIENT_CREDITS.

Definition status_number (c : HttpStatusCode) : Z :=
  match c with
  | OK => 200 | CREATED => 201 | ACCEPTED => 202
  | BAD_REQUEST => 400 | UNAUTHORIZED => 401 | FORBIDDEN => 403
  | NOT_FOUND => 404 | INTERNAL_SERVER_ERROR => 500
  | INSUFFICIENT_CREDITS => 429
  end.

(** The classes of [Error] the code tests with [instanceof]. *)
Inductive ErrorClass : Type :=
| Error                                   (* new Error(msg) *)
| AppError (statusCode : HttpStatusCode)  (* custom-error.ts *)
| ZodError                                (* schema.parse failure *)
| SyntaxError                             (* JSON.parse failure *)
| TypeError.                              (* property read on undefined/null *)

(** Anything a [throw] can carry: an error object or any other value. *)
Inductive Thrown : Type :=
| ErrorObject (cls : ErrorClass) (message : string)
| NonError (v : JsValue).

Definition instanceof_Error (e : Thrown) : bool :=
  match e with ErrorObject _ _ => true | NonError _ => false end.

Definition instanceof_AppError (e : Thrown) : bool :=
  match e with ErrorObject (AppError _) _ => true | _ => false end.

Definition instanceof_ZodError (e : Thrown) : bool :=
  match e with ErrorObject ZodError _ => true | _ => false end.

Definition instanceof_SyntaxError (e : Thrown) : bool :=
  match e with ErrorObject SyntaxError _ => true | _ => false end.

(** How a call ends: it returns (an awaited promise resolves) with a
    value, or it throws (the promise rejects). *)
Inductive Completion (A : Type) : Type :=
| Normal (a : A)
| Throw (e : Thrown).
Arguments Normal {A} a.
Arguments Throw {A} e.

(** [s.includes(needle)]. *)
Definition includes (s needle : string) : bool :=
  match String.index 0 needle s with Some _ => true | None => false end.

(** [s.split(sep)] for a one-character separator. *)
Fixpoint split (sep : ascii) (s : string) : list string :=
  match s with
  | EmptyString => [EmptyString]
  | String c rest =>
      if Ascii.eqb c sep then EmptyString :: split sep rest
      else match split sep rest with
           | [] => [String c EmptyString]
           | part :: parts => String c part :: parts
           end
  end.

(** *** UTF-16 code units

    JavaScript counts and cuts a string in UTF-16 code units: one for
    a character of up to three UTF-8 bytes, two (a surrogate pair) for
    a character of four. A surrogate on its own, which a cut through a
    pair leaves behind, is kept as the three bytes of its generalized
    UTF-8 form. *)

Definition continuation_byte (c : ascii) : bool :=
  let n := N_of_ascii c in ((128 <=? n) && (n <? 192))%N.

(** The continuation bytes [s] starts with, then its characters. *)
Fixpoint split_characters (s : string) : string * list string :=
  match s with
  | EmptyString => (EmptyString, [])
  | String c rest =>
      match split_characters rest with
      | (more, chars) =>
          if continuation_byte c then (String c more, chars)
          else (EmptyString, String c more :: chars)
      end
  end.

Definition characters (s : string) : list string :=
  match split_characters s with
  | (EmptyString, chars) => chars
  | (stray, chars) => stray :: chars
  end.

(** The character takes a surrogate pair: it starts with the lead
    byte of a four-byte sequence. *)
Definition astral (ch : string) : bool :=
  match ch with
  | String c _ => (240 <=? N_of_ascii c)%N
  | EmptyString => false
  end.

Definition code_point (ch : string) : N :=
  match ch with
  | String b0 (String b1 (String b2 (String b3 _))) =>
      ((N_of_ascii b0 mod 8) * 262144 + (N_of_ascii b1 mod 64) * 4096
       + (N_of_ascii b2 mod 64) * 64 + N_of_ascii b3 mod 64)%N
  | _ => 0%N
  end.

(** The three bytes of the surrogate [u]. *)
Definition surrogate_bytes (u : N) : string :=
  String (ascii_of_N 237)
    (String (ascii_of_N (128 + (u / 64) mod 64))
       (String (ascii_of_N (128 + u mod 64)) EmptyString)).

Definition high_surrogate (ch : string) : string :=
  surrogate_bytes (55296 + (code_point ch - 65536) / 1024)%N.

Definition low_surrogate (ch : string) : string :=
  surrogate_bytes (56320 + (code_point ch - 65536) mod 1024)%N.

(** The code units of [s], each as the string [s[i]] is. *)
Definition code_units (s : string) : list string :=
  flat_map (fun ch =>
    if astral ch then [high_surrogate ch; low_surrogate ch] else [ch])
    (characters s).

Fixpoint take_units (n : nat) (chars : list string) : string :=
  match chars, n with
  | [], _ => EmptyString
  | _, 0 => EmptyString
  | ch :: rest, S m =>
      if astral ch then
        match m with
        | 0 => high_surrogate ch
        | S m' => String.append ch (take_units m' rest)
        end
      else String.append ch (take_units m rest)
  end.

(** [s.substring(0, n)] *)
Definition substring_to (n : nat) (s : string) : string :=
  take_units n (characters s).

(** Own members of an object literal; [JSON.parse] keeps the last of
    duplicated keys. *)
Fixpoint own_member (members : list (string * JsValue)) (key : string)
  : option JsValue :=
  match members with
  | [] => None
  | (k, v) :: rest =>
      match own_member rest key with
      | Some v' => Some v'
      | None => if String.eqb k key then Some v else None
      end
  end.

(** Property names every plain object inherits from [Object.prototype]. *)
Definition object_prototype_keys : list string :=
  [ "constructor"; "hasOwnProperty"; "isPrototypeOf";
    "propertyIsEnumerable"; "toLocaleString"; "toString"; "valueOf";
    "__proto__"; "__defineGetter__"; "__defineSetter__";
    "__lookupGetter__"; "__lookupSetter__" ].

Definition inherited (key : string) : JsValue :=
  if existsb (String.eqb key) object_prototype_keys
  then JHost key else JUndefined.

(** [obj[key]] on a plain object: an own member, or else what
    [Object.prototype] provides. *)
Definition member (members : list (string * JsValue)) (key : string)
  : JsValue :=
  match own_member members key with
  | Some v => v
  | None => inherited key
  end.

(** The [TypeError] of a property read on [undefined] or [null]. *)
Definition cannot_read (base key : string) : Thrown :=
  ErrorObject TypeError
    (String.append "Cannot read properties of "
       (String.append base
          (String.append " (reading '" (String.append key "')")))).

(** [v[key]] on any value. Reading a property of [null] or [undefined]
    throws; on arrays and primitives the answer comes from the
    host's built-in prototypes, [host_get]. *)
Definition get_prop (host_get : JsValue -> string -> JsValue)
  (v : JsValue) (key : string) : Completion JsValue :=
  match v with
  | JUndefined => Throw (cannot_read "undefined" key)
  | JNull => Throw (cannot_read "null" key)
  | JObj members => Normal (member members key)
  | _ => Normal (host_get v key)
  end.

(** [v === undefined] *)
Definition is_undefined (v : JsValue) : bool :=
  match v with JUndefined => true | _ => false end.

(** Truthiness, as used by [!x] and [if (x)]. *)
Definition truthy (v : JsValue) : bool :=
  match v with
  | JUndefined | JNull => false
  | JBool b => b
  | JNum n => negb (Z.eqb n 0)
  | JStr s => negb (String.eqb s "")
  | JArr _ | JObj _ | JHost _ => true
  end.

Definition truthy_string (s : string) : bool := negb (String.eqb s "").

(** [typeof v === 'object'] *)
Definition typeof_object (v : JsValue) : bool :=
  match v with JNull | JArr _ | JObj _ => true | _ => false end.

(** *** The text of a Number

    [Number::toString]: the fewest digits that still denote the same
    double, written out in full up to 21 digits and with an exponent
    beyond. *)

Section NumberText.
Local Open Scope Z_scope.

Definition decimal (n : Z) : string := NilZero.string_of_int (Z.to_int n).

(** The double nearest to the positive integer [x], ties going to the
    even significand; none from 2^1024 - 2^970 on, where the Number is
    [Infinity]. *)
Definition to_double (x : Z) : option Z :=
  let b := Z.log2 x in
  if b <=? 52 then Some x
  else
    let sh := b - 52 in
    let q := Z.shiftr x sh in
    let r := x - Z.shiftl q sh in
    let half := Z.shiftl 1 (sh - 1) in
    let q' := if (half <? r) || ((r =? half) && Z.odd q)
              then q + 1 else q in
    let v := Z.shiftl q' sh in
    if Z.shiftl 1 1024 <=? v then None else Some v.

Definition rounds_to (v x : Z) : bool :=
  match to_double x with Some v' => v' =? v | None => false end.

(** The [k]-digit [s] for which [s * 10^(d-k)] denotes the double [v]
    of [d] digits, if there is one: the closer of the two candidates,
    the even one when both are as close. *)
Definition digits_of_length (v d k : Z) : option Z :=
  if d <=? k then Some v
  else
    let p := 10 ^ (d - k) in
    let lo := v / p in
    let hi := lo + 1 in
    match rounds_to v (lo * p), rounds_to v (hi * p) with
    | true, true =>
        let dlo := v - lo * p in
        let dhi := hi * p - v in
        if dlo <? dhi then Some lo
        else if dhi <? dlo then Some hi
        else if Z.even lo then Some lo else Some hi
    | true, false => Some lo
    | false, true => Some hi
    | false, false => None
    end.

(** The digits [s], their number [k] and the exponent [n] of the
    double [v]: [v] is denoted by [s * 10^(n-k)] and [k] is as small
    as possible. Seventeen digits always suffice. *)
Definition shortest_digits (v : Z) : Z * Z * Z :=
  let d := Z.of_nat (String.length (decimal v)) in
  match
    flat_map (fun k =>
      match digits_of_length v d (Z.of_nat k) with
      | Some s => [(s, Z.of_nat k)]
      | None => []
      end) (seq 1 17)
  with
  | (s, k) :: _ => if s =? 10 ^ k then (1, 1, d + 1) else (s, Z.min k d, d)
  | [] => (v, d, d)
  end.

(** A decimal text without its trailing zeros. *)
Fixpoint strip_zeros (s : string) : string :=
  match s with
  | EmptyString => EmptyString
  | String c rest =>
      match strip_zeros rest with
      | EmptyString =>
          if Ascii.eqb c "0"%char then EmptyString
          else String c EmptyString
      | kept => String c kept
      end
  end.

(** The text of the finite Number [JNum n]; none when it is infinite. *)
Definition number_text (n : Z) : option string :=
  if n =? 0 then Some "0"
  else
    match to_double (Z.abs n) with
    | None => None
    | Some v =>
        let sign := if n <? 0 then "-" else "" in
        match shortest_digits v with
        | (s, k, e) =>
            if e <=? 21 then
              Some (String.append sign (decimal (s * 10 ^ (e - k))))
            else
              match strip_zeros (decimal s) with
              | EmptyString => None
              | String c EmptyString =>
                  Some (String.append sign
                          (String c (String.append "e+" (decimal (e - 1)))))
              | String c more =>
                  Some (String.append sign
                          (String c
                             (String.append "."
                                (String.append more
                                   (String.append "e+"
                                      (decimal (e - 1)))))))
              end
        end
    end.
End NumberText.

(** [String(v)], the text a value is turned into where a string is
    expected. *)
Fixpoint to_string (v : JsValue) : string :=
  match v with
  | JUndefined => "undefined"
  | JNull => "null"
  | JBool true => "true"
  | JBool false => "false"
  | JNum n =>
      match number_text n with
      | Some text => text
      | None => if (n <? 0)%Z then "-Infinity" else "Infinity"
      end
  | JStr s => s
  | JArr items =>
      String.concat ","
        (map (fun item =>
                match item with
                | JUndefined | JNull => ""
                | _ => to_string item
                end) items)
  | JObj _ => "[object Object]"
  | JHost name =>
      String.append "function "
        (String.append name "() { [native code] }")
  end.

End Js.
Export Js.

(* ================================================================== *)
(** ** Asynchronous programs                                            *)
(* ================================================================== *)

(** A program over state [St] that reports events of type [Ev]. The state
    after a rejection is kept: JavaScript does not roll effects back. *)
Definition Prog (St Ev A : Type) : Type := St -> Completion A * St * list Ev.

Module Async.
Section Ops.
Context {St Ev : Type}.

Definition ret {A} (a : A) : Prog St Ev A := fun s => (Normal a, s, []).

Definition throw {A} (e : Thrown) : Prog St Ev A :=
  fun s => (Throw e, s, []).

Definition bind {A B} (m : Prog St Ev A) (k : A -> Prog St Ev B)
  : Prog St Ev B :=
  fun s =>
    match m s with
    | (Normal a, s1, t1) =>
        match k a s1 with (c, s2, t2) => (c, s2, t1 ++ t2) end
    | (Throw e, s1, t1) => (Throw e, s1, t1)
    end.

(** [try { m } catch (e) { handler(e) }]. *)
Definition try_catch {A} (m : Prog St Ev A)
  (handler : Thrown -> Prog St Ev A) : Prog St Ev A :=
  fun s =>
    match m s with
    | (Normal a, s1, t1) => (Normal a, s1, t1)
    | (Throw e, s1, t1) =>
        match handler e s1 with (c, s2, t2) => (c, s2, t1 ++ t2) end
    end.

Definition emit (ev : Ev) : Prog St Ev unit :=
  fun s => (Normal tt, s, [ev]).

Definition get : Prog St Ev St := fun s => (Normal s, s, []).

Definition modify (f : St -> St) : Prog St Ev unit :=
  fun s => (Normal tt, f s, []).

(** A synchronous computation that may throw. *)
Definition lift {A} (c : Completion A) : Prog St Ev A :=
  fun s => (c, s, []).

Definition outcome {A} (r : Completion A * St * list Ev) : Completion A :=
  fst (fst r).
Definition final {A} (r : Completion A * St * list Ev) : St :=
  snd (fst r).
Definition trace {A} (r : Completion A * St * list Ev) : list Ev :=
  snd r.
End Ops.
End Async.
Import Async.

Declare Scope prog_scope.
Delimit Scope prog_scope with prog.
Notation "x <- c ;; k" := (bind c (fun x => k))
  (at level 61, c at next level, right associativity) : prog_scope.
Notation "c ;;; k" := (bind c (fun _ => k))
  (at level 61, right associativity) : prog_scope.
Local Open Scope prog_scope.

(** An external collaborator call: it acts on the world only. *)
Definition Act (W A : Type) : Type := W -> Completion A * W.

(* ================================================================== *)
(** ** transaction.util.ts: the saga orchestrator                       *)
(* ================================================================== *)

Module SagaStep.
(** [type SagaStep<T> = { execute: () => Promise<T>;
                          compensate: () => Promise<void> }] *)
Record t (W : Type) : Type := Build {
  execute : Act W JsValue;
  compensate : Act W unit
}.
Arguments Build {W} execute compensate.
Arguments execute {W} _.
Arguments compensate {W} _.
End SagaStep.

Module Saga.
Section WithWorld.
Context {W : Type}.

(** The three private fields of [class Saga]. *)
Record t : Type := Build {
  steps : list (SagaStep.t W);
  results : list JsValue;
  completedSteps : nat
}.

(** What the orchestrator does that an observer can see. *)
Inductive Event : Type :=
| ExecuteCalled (i : nat)
| CompensateCalled (i : nat)
| CompensationFailed (i : nat) (compensationError : Thrown).

(** The saga object [this] together with the outside world. *)
Record Heap : Type := MkHeap { this : t; world : W }.

Definition M := Prog Heap Event.

(** [new Saga()] *)
Definition new : t :=
  {| steps := []; results := []; completedSteps := 0 |}.

(** [addStep(step) { this.steps.push(step); return this; }] *)
Definition addStep (step : SagaStep.t W) (saga : t) : t :=
  {| steps := steps saga ++ [step];
     results := results saga;
     completedSteps := completedSteps saga |}.

(** Awaiting a step's closure: it runs on the world. *)
Definition await {A} (ev : Event) (act : Act W A) : M A :=
  fun h =>
    match act (world h) with
    | (c, w') => (c, {| this := this h; world := w' |}, [ev])
    end.

Definition push_result (result : JsValue) : M unit :=
  modify (fun h =>
    {| this := {| steps := steps (this h);
                  results := results (this h) ++ [result];
                  completedSteps := completedSteps (this h) |};
       world := world h |}).

Definition incr_completedSteps : M unit :=
  modify (fun h =>
    {| this := {| steps := steps (this h);
                  results := results (this h);
                  completedSteps := S (completedSteps (this h)) |};
       world := world h |}).

(** The body of the [for] loop of [execute], from index [i] on;
    [todo] is [this.steps] from [i]. *)
Fixpoint execute_from (i : nat) (todo : list (SagaStep.t W)) : M unit :=
  match todo with
  | [] => ret tt
  | step :: rest =>
      result <- await (ExecuteCalled i) (SagaStep.execute step) ;;
      push_result result ;;;
      incr_completedSteps ;;;
      execute_from (S i) rest
  end.

(** [this.steps[i].compensate()]; reading [compensate] off a missing
    step is a TypeError. *)
Definition call_compensate (i : nat) : M unit :=
  h <- get ;;
  match nth_error (steps (this h)) i with
  | Some step => await (CompensateCalled i) (SagaStep.compensate step)
  | None =>
      throw (ErrorObject TypeError
               "Cannot read properties of undefined (reading 'compensate')")
  end.

(** The loop of [compensate] for [i = n-1 .. 0]. *)
Fixpoint compensate_from (n : nat) : M unit :=
  match n with
  | 0 => ret tt
  | S i =>
      try_catch (call_compensate i)
        (fun compensationError =>
           emit (CompensationFailed i compensationError)) ;;;
      compensate_from i
  end.

(** [private async compensate()] *)
Definition compensate : M unit :=
  h <- get ;;
  compensate_from (completedSteps (this h)).

(** [async execute(): Promise<any[]>] *)
Definition execute : M (list JsValue) :=
  try_catch
    (h <- get ;;
     execute_from 0 (steps (this h)) ;;;
     h' <- get ;;
     ret (results (this h')))
    (fun error => compensate ;;; throw error).

(** A saga as callers build it: [new Saga()] followed by one
    [addStep] per step. *)
Definition build (ss : list (SagaStep.t W)) : t :=
  fold_left (fun saga step => addStep step saga) ss new.

Definition start (ss : list (SagaStep.t W)) (w : W) : Heap :=
  {| this := build ss; world := w |}.
End WithWorld.
Arguments t W : clear implicits.
Arguments Heap W : clear implicits.
End Saga.

(* ================================================================== *)
(** ** Observations on runs, used to state the properties              *)
(* ================================================================== *)

Module SagaObs.
Section WithWorld.
Context {W : Type}.

(** The steps all resolve when executed one after the other from
    world [w]: their results and the world they leave. *)
Fixpoint resolve_all (ss : list (SagaStep.t W)) (w : W)
  : option (list JsValue * W) :=
  match ss with
  | [] => Some ([], w)
  | step :: rest =>
      match SagaStep.execute step w with
      | (Normal result, w1) =>
          match resolve_all rest w1 with
          | Some (rs, w2) => Some (result :: rs, w2)
          | None => None
          end
      | (Throw _, _) => None
      end
  end.

(** Indices whose [execute] was called, in call order. *)
Definition executed (tr : list (@Saga.Event)) : list nat :=
  flat_map (fun ev =>
    match ev with Saga.ExecuteCalled i => [i] | _ => [] end) tr.

(** Indices whose [compensate] was called, in call order. *)
Definition compensated (tr : list (@Saga.Event)) : list nat :=
  flat_map (fun ev =>
    match ev with Saga.CompensateCalled i => [i] | _ => [] end) tr.

(** The saga after [rs] more results were recorded. *)
Definition advance (sg : Saga.t W) (rs : list JsValue) : Saga.t W :=
  {| Saga.steps := Saga.steps sg;
     Saga.results := Saga.results sg ++ rs;
     Saga.completedSteps := Saga.completedSteps sg + List.length rs |}.

(** [k-1, k-2, ..., 0] *)
Definition descending (k : nat) : list nat := rev (seq 0 k).

(** [lo+count-1, ..., lo+1, lo] *)
Definition descending_from (lo count : nat) : list nat :=
  rev (seq lo count).

(** The indices of [l] at which [ss] has a step. *)
Definition with_step (ss : list (SagaStep.t W)) (l : list nat)
  : list nat :=
  filter (fun i => (i <? List.length ss)%nat) l.

(** The world after the [compensate] of the step at index [i] ran
    on [w], whether it resolved or rejected; an index without a
    step leaves the world alone. *)
Definition compensate_at (ss : list (SagaStep.t W)) (i : nat) (w : W)
  : W :=
  match nth_error ss i with
  | Some step => snd (SagaStep.compensate step w)
  | None => w
  end.

(** The world after the rollbacks at the indices
    [lo+count-1, ..., lo], each run on the world the one before
    left. *)
Fixpoint rollback (ss : list (SagaStep.t W)) (lo count : nat) (w : W)
  : W :=
  match count with
  | 0 => w
  | S c => rollback ss lo c (compensate_at ss (lo + c) w)
  end.

(** The world after the steps of [done] were rolled back, the last
    one first. *)
Definition undo (done : list (SagaStep.t W)) (w : W) : W :=
  fold_left (fun w' step => snd (SagaStep.compensate step w'))
    (rev done) w.

(** The world after the steps were executed one after the other
    from [w], up to and including the first that rejects. *)
Fixpoint forward (ss : list (SagaStep.t W)) (w : W) : W :=
  match ss with
  | [] => w
  | step :: rest =>
      match SagaStep.execute step w with
      | (Normal _, w1) => forward rest w1
      | (Throw _, w1) => w1
      end
  end.
End WithWorld.
End SagaObs.
Import SagaObs.


(* ================================================================== *)
(** ** retry.ts: the retry wrapper                                      *)
(* ================================================================== *)

Module Retry.
Section WithWorld.
Context {W T : Type}.

(** [type RetryConfig = { retries; delay; onRetry }] *)
Record RetryConfig : Type := Build {
  retries : nat;
  delay : Z;
  onRetry : Thrown -> Act W unit
}.

Inductive Event : Type :=
| Called (attempt : nat)          (* fn(...args) *)
| Slept (ms : Z)                  (* setTimeout(resolve, config.delay) *)
| ConsoleWarn (attempt : nat)
| ConsoleError (message : string).

Definition M := Prog W Event.

Definition await {A} (ev : Event) (act : Act W A) : M A :=
  fun w => match act w with (c, w') => (c, w', [ev]) end.

(** [error instanceof ZodError || error instanceof SyntaxError] *)
Definition isRetryable (error : Thrown) : bool :=
  instanceof_ZodError error || instanceof_SyntaxError error.

Definition max_retries_message : string :=
  "Max retries reached. Unable to generate valid output.".

(** The body of the [for] loop at [attempt]: [Some v] is the
    [return] out of the loop, [None] goes on to the next turn. *)
Definition iteration (fn : Act W T) (config : RetryConfig)
  (attempt : nat) : M (option T) :=
  try_catch
    (v <- await (Called attempt) fn ;; ret (Some v))
    (fun error =>
       if isRetryable error then
         emit (ConsoleWarn attempt) ;;;
         if (attempt <? retries config)%nat then
           emit (Slept (delay config)) ;;; ret None
         else
           emit (ConsoleError max_retries_message) ;;; throw error
       else
         emit (ConsoleError "Unexpected error:") ;;; throw error).

(** [for (attempt; attempt <= config.retries; attempt++)] with
    [remaining = config.retries + 1 - attempt] turns to go, followed by
    the [throw] after the loop. *)
Fixpoint loop (fn : Act W T) (config : RetryConfig)
  (remaining attempt : nat) : M T :=
  match remaining with
  | 0 => throw (ErrorObject Error max_retries_message)
  | S remaining' =>
      r <- iteration fn config attempt ;;
      match r with
      | Some v => ret v
      | None => loop fn config remaining' (S attempt)
      end
  end.

(** [withRetry(fn, config)(...args)], with the arguments already
    given to [fn]. *)
Definition withRetry (fn : Act W T) (config : RetryConfig) : M T :=
  loop fn config (retries config) 1.
End WithWorld.
Arguments RetryConfig W : clear implicits.
End Retry.

Module RetryObs.
Section WithWorld.
Context {W T : Type}.

(** What [n] calls of [fn] in a row give, starting from world [w]. *)
Fixpoint outcomes (fn : Act W T) (w : W) (n : nat)
  : list (Completion T) :=
  match n with
  | 0 => []
  | S n' => match fn w with (c, w') => c :: outcomes fn w' n' end
  end.



(** The 1-based attempt that ends the loop early: the first success
    or the first error that is not retryable. *)
Fixpoint stop_at (outs : list (Completion T)) : nat :=
  match outs with
  | [] => 1
  | Normal _ :: _ => 1
  | Throw e :: rest =>
      if Retry.isRetryable e then S (stop_at rest) else 1
  end.

(** Attempt numbers at which [fn] was called, in order. *)
Definition called (tr : list Retry.Event) : list nat :=
  flat_map (fun ev =>
    match ev with Retry.Called a => [a] | _ => [] end) tr.

(** Delays slept, in order. *)
Definition slept (tr : list Retry.Event) : list Z :=
  flat_map (fun ev =>
    match ev with Retry.Slept ms => [ms] | _ => [] end) tr.

(** The error thrown after the loop. *)
Definition max_retries_error : Thrown :=
  ErrorObject Error Retry.max_retries_message.

Definition with_onRetry (cb : Thrown -> Act W unit)
  (config : Retry.RetryConfig W) : Retry.RetryConfig W :=
  Retry.Build (Retry.retries config) (Retry.delay config) cb.
End WithWorld.
End RetryObs.
Import RetryObs.

(* ================================================================== *)
(** ** http-status.ts and custom-error.ts                               *)
(* ================================================================== *)

Module Json.
(** The character [quote] that delimits a JSON string. *)
Definition dquote : ascii := ascii_of_nat 34.
Definition backslash : ascii := ascii_of_nat 92.

Definition hex_digit (n : nat) : ascii :=
  if (n <? 10)%nat then ascii_of_nat (48 + n) else ascii_of_nat (87 + n).

(** How [JSON.stringify] writes one character of a string. *)
Definition escape_char (c : ascii) : string :=
  let n := nat_of_ascii c in
  if Ascii.eqb c dquote then String backslash (String dquote "")
  else if Ascii.eqb c backslash then String backslash (String backslash "")
  else if (n =? 8)%nat then String backslash "b"
  else if (n =? 9)%nat then String backslash "t"
  else if (n =? 10)%nat then String backslash "n"
  else if (n =? 12)%nat then String backslash "f"
  else if (n =? 13)%nat then String backslash "r"
  else if (n <? 32)%nat then
    String backslash
      (String.append "u00"
         (String (hex_digit (n / 16)) (String (hex_digit (n mod 16)) "")))
  else String c "".

(** A surrogate on its own is written [\udxxx]; its three bytes
    start with 237 followed by a byte from 160 on. *)
Definition escape_surrogate (c2 c3 : ascii) : string :=
  let n2 := nat_of_ascii c2 - 128 in
  let n3 := nat_of_ascii c3 - 128 in
  String backslash
    (String.append "ud"
       (String (hex_digit (n2 / 4))
          (String (hex_digit ((n2 mod 4) * 4 + n3 / 16))
             (String (hex_digit (n3 mod 16)) "")))).

Fixpoint escape (s : string) : string :=
  match s with
  | EmptyString => EmptyString
  | String c rest =>
      match rest with
      | String c2 (String c3 rest3) =>
          if ((nat_of_ascii c =? 237) && (160 <=? nat_of_ascii c2))%nat
          then String.append (escape_surrogate c2 c3) (escape rest3)
          else String.append (escape_char c) (escape rest)
      | _ => String.append (escape_char c) (escape rest)
      end
  end.

Definition quote (s : string) : string :=
  String dquote (String.append (escape s) (String dquote "")).

(** [JSON.stringify(v)]; [None] is [undefined]. Members of an object
    are written in order; a member whose value has no JSON form is left
    out, and such an item of an array is written [null], as is a
    Number that is not finite. *)
Fixpoint stringify (v : JsValue) : option string :=
  match v with
  | JUndefined => None
  | JHost _ => None
  | JNull => Some "null"
  | JBool true => Some "true"
  | JBool false => Some "false"
  | JNum n =>
      match number_text n with
      | Some text => Some text
      | None => Some "null"
      end
  | JStr s => Some (quote s)
  | JArr items =>
      Some (String.append "["
             (String.append
                (String.concat ","
                   (map (fun item =>
                           match stringify item with
                           | Some s => s
                           | None => "null"
                           end) items))
                "]"))
  | JObj members =>
      Some (String.append "{"
             (String.append
                (String.concat ","
                   (flat_map (fun member =>
                           match member with
                           | (k, x) =>
                               match stringify x with
                               | Some s =>
                                   [String.append (quote k)
                                      (String.append ":" s)]
                               | None => []
                               end
                           end) members))
                "}"))
  end.

(** [JSON.stringify] of an object literal always gives a string. *)
Definition stringify_object (members : list (string * JsValue)) : string :=
  match stringify (JObj members) with Some s => s | None => "" end.
End Json.

Module Http.
(** [HttpResponse] of http-status.ts, the shape of every HTTP answer. *)
Record HttpResponse : Type := MkResponse {
  statusCode : Z;
  headers : list (string * JsValue);
  body : string;
  isBase64Encoded : bool
}.

(** [HttpResponseBody = { message: string; data?: any }] *)
Record HttpResponseBody : Type := MkBody {
  message : string;
  data : option JsValue
}.

Definition body_members (b : HttpResponseBody) : list (string * JsValue) :=
  ("message", JStr (message b))
  :: match data b with Some d => [("data", d)] | None => [] end.

(** [HttpResponseParams<T> = { body: T; headers?: ... }] *)
Record HttpResponseParams : Type := MkParams {
  params_body : HttpResponseBody;
  params_headers : list (string * JsValue)
}.

(** [createHttpResponse(statusCode, params)] *)
Definition createHttpResponse (code : HttpStatusCode)
  (params : HttpResponseParams) : HttpResponse :=
  {| statusCode := status_number code;
     headers := ("Content-Type", JStr "application/json")
                :: params_headers params;
     body := Json.stringify_object (body_members (params_body params));
     isBase64Encoded := false |}.

(** The members of [HttpResponses] that [handleError] uses. *)
Definition HttpResponses_BAD_REQUEST := createHttpResponse BAD_REQUEST.
Definition HttpResponses_UNAUTHORIZED := createHttpResponse UNAUTHORIZED.
Definition HttpResponses_INTERNAL_SERVER_ERROR :=
  createHttpResponse INTERNAL_SERVER_ERROR.

Definition message_only (msg : string) : HttpResponseParams :=
  {| params_body := {| message := msg; data := None |};
     params_headers := [] |}.

(** [createError(statusCode, message)]: [new AppError(...)] *)
Definition createError (code : HttpStatusCode) (msg : string) : Thrown :=
  ErrorObject (AppError code) msg.

Definition error_message (error : Thrown) : string :=
  match error with ErrorObject _ m => m | NonError _ => "" end.

(** [handleError(error)] of custom-error.ts. *)
Definition handleError (error : Thrown) : HttpResponse :=
  if instanceof_AppError error then
    HttpResponses_BAD_REQUEST (message_only "AppError")
  else if instanceof_ZodError error then
    HttpResponses_BAD_REQUEST (message_only "Zod validation error")
  else if instanceof_SyntaxError error
          && includes (error_message error) "JSON" then
    HttpResponses_BAD_REQUEST (message_only "Invalid JSON in request body")
  else
    HttpResponses_INTERNAL_SERVER_ERROR
      (message_only "Internal Server Error").
End Http.
Export Http.

(* ================================================================== *)
(** ** The API Gateway event and saas-identity.ts                       *)
(* ================================================================== *)

Module ApiGateway.
(** The parts of [APIGatewayProxyEventV2] the pipeline and the event
    parsers read. *)
Record Event : Type := MkEvent {
  headers : list (string * string);
  body : option string;
  pathParameters : list (string * string)
}.

(** [event.headers[name]] *)
Fixpoint header (hs : list (string * string)) (name : string)
  : option string :=
  match hs with
  | [] => None
  | (k, v) :: rest =>
      match header rest name with
      | Some v' => Some v'
      | None => if String.eqb k name then Some v else None
      end
  end.
End ApiGateway.

Module Identity.
(** [ValidUser = { userId: string; keyId?: string }] *)
Record ValidUser : Type := MkUser {
  userId : string;
  keyId : option string
}.

(** What [DecodedJwtSchema] keeps of a token's claims. *)
Record DecodedJwt : Type := MkJwt {
  sub : string;
  metadata : option (list (string * JsValue))
}.

Definition zod_error (what : string) : Thrown := ErrorObject ZodError what.

(** [DecodedJwtSchema.parse]: an object whose [sub] is a string and
    whose [metadata], when there is one, is an object. *)
Definition DecodedJwtSchema_parse (v : JsValue) : Completion DecodedJwt :=
  match v with
  | JObj members =>
      match member members "sub" with
      | JStr s =>
          match member members "metadata" with
          | JUndefined => Normal {| sub := s; metadata := None |}
          | JObj m => Normal {| sub := s; metadata := Some m |}
          | _ => Throw (zod_error "metadata: expected record")
          end
      | _ => Throw (zod_error "sub: expected string")
      end
  | _ => Throw (zod_error "expected object")
  end.

(** [ValidUserSchema.safeParse({ userId, keyId })]; [None] when
    [success] is false. *)
Definition ValidUserSchema_safeParse (userId : string) (keyId : JsValue)
  : option ValidUser :=
  match keyId with
  | JUndefined => Some {| userId := userId; keyId := None |}
  | JStr k => Some {| userId := userId; keyId := Some k |}
  | _ => None
  end.

(** [event.headers['authorization']?.split(' ')[1] || ''] *)
Definition bearer_token (event : ApiGateway.Event) : string :=
  match ApiGateway.header (ApiGateway.headers event) "authorization" with
  | None => ""
  | Some h =>
      match nth_error (split " " h) 1 with
      | Some token => token
      | None => ""
      end
  end.

Section WithWorld.
Context {W : Type}.

(** [IJwtService.decodeToken], the identity provider's check of a
    token. *)
Variable decodeToken : string -> Act W JsValue.

Definition M := Prog W Empty_set.

Definition call {A} (act : Act W A) : M A :=
  fun w => match act w with (c, w') => (c, w', []) end.

(** [async getValidUserFromAuthHeader(event)]; [None] is [null]. *)
Definition getValidUserFromAuthHeader (event : ApiGateway.Event)
  : M (option ValidUser) :=
  try_catch
    (let token := bearer_token event in
     decodedJwt <- call (decodeToken token) ;;
     parsedJwt <- lift (DecodedJwtSchema_parse decodedJwt) ;;
     let keyId :=
       match metadata parsedJwt with
       | Some m => member m "keyId"
       | None => JUndefined
       end in
     ret (ValidUserSchema_safeParse (sub parsedJwt) keyId))
    (fun _ => ret None).

(** [async getValidUser(event)] *)
Definition getValidUser (event : ApiGateway.Event) : M ValidUser :=
  try_catch
    (userDetailsFromAuthHeader <- getValidUserFromAuthHeader event ;;
     match userDetailsFromAuthHeader with
     | Some user => ret user
     | None =>
         throw (ErrorObject Error
                  "Unable to Validate User. Provide a token")
     end)
    (fun _ => throw (ErrorObject Error "Unauthorized")).

(** The same, as a collaborator call for the adapter to await. *)
Definition quiet {A} (m : M A) : Act W A := fun w => fst (m w).
End WithWorld.
End Identity.
Export Identity.

(* ================================================================== *)
(** ** lambda-adapter.factory.ts: the request pipeline                  *)
(* ================================================================== *)

Module LambdaAdapter.
(** [interface LambdaAdapterOptions]; [None] is a field left out. *)
Record LambdaAdapterOptions : Type := MkOptions {
  requireAuth : option bool;
  requireBody : option bool;
  requiredFields : option (list string)
}.

Definition defaultOptions : LambdaAdapterOptions :=
  {| requireAuth := Some true;
     requireBody := Some true;
     requiredFields := Some [] |}.

(** [flag !== false] *)
Definition not_false (flag : option bool) : bool :=
  match flag with Some false => false | _ => true end.

Section WithWorld.
Context {W TInput TOutput : Type}.

(** The host's [JSON.parse] and built-in prototypes. *)
Variable JSON_parse : string -> Completion JsValue.
Variable host_get : JsValue -> string -> JsValue.
(** The identity provider behind the default [getUserInfo]. *)
Variable decodeToken : string -> Act W JsValue.

(** [interface LambdaAdapterParams] *)
Record LambdaAdapterParams : Type := MkParams {
  schema : TInput -> Completion TInput;
  useCase : TInput -> Act W TOutput;
  eventParser : ApiGateway.Event -> ValidUser -> Completion TInput;
  options : option LambdaAdapterOptions;
  responseFormatter : TOutput -> Completion HttpResponse;
  getUserInfo : option (ApiGateway.Event -> Act W ValidUser)
}.

Inductive Event : Type :=
| GetUserInfoCalled
| UseCaseCalled (input : TInput).

Definition M := Prog W Event.

Definition await {A} (ev : Event) (act : Act W A) : M A :=
  fun w => match act w with (c, w') => (c, w', [ev]) end.

(** [defaultGetUserInfo]: [new SaaSIdentityVendingMachine()
    .getValidUser(event)] *)
Definition defaultGetUserInfo (event : ApiGateway.Event)
  : Act W ValidUser :=
  quiet (getValidUser decodeToken event).

(** The [for (const field of options.requiredFields)] loop. *)
Fixpoint checkRequiredFields (parsedBody : JsValue)
  (fields : list string) : Completion unit :=
  match fields with
  | [] => Normal tt
  | field :: rest =>
      match get_prop host_get parsedBody field with
      | Throw e => Throw e
      | Normal v =>
          if is_undefined v then
            Throw (createError BAD_REQUEST
                     (String.append "Missing required field: " field))
          else checkRequiredFields parsedBody rest
      end
  end.

(** The block under [// Body validation if required]. *)
Definition validateBody (opts : LambdaAdapterOptions)
  (event : ApiGateway.Event) : Completion unit :=
  if not_false (requireBody opts) then
    match ApiGateway.body event with
    | None => Throw (createError BAD_REQUEST "Missing request body")
    | Some text =>
        if negb (truthy_string text) then
          Throw (createError BAD_REQUEST "Missing request body")
        else
          match JSON_parse text with
          | Throw e => Throw e
          | Normal parsedBody =>
              match requiredFields opts with
              | Some (field :: rest) =>
                  checkRequiredFields parsedBody (field :: rest)
              | _ => Normal tt
              end
          end
    end
  else Normal tt.

(** The block under [// Authentication handling]. *)
Definition authenticate (opts : LambdaAdapterOptions)
  (getUser : ApiGateway.Event -> Act W ValidUser)
  (event : ApiGateway.Event) : M ValidUser :=
  if not_false (requireAuth opts) then
    validUser <- await GetUserInfoCalled (getUser event) ;;
    if negb (truthy_string (userId validUser)) then
      throw (createError BAD_REQUEST "Missing user id")
    else ret validUser
  else ret {| userId := ""; keyId := None |}.

(** [createLambdaAdapter(params)(event)] *)
Definition createLambdaAdapter (params : LambdaAdapterParams)
  (event : ApiGateway.Event) : M HttpResponse :=
  let opts :=
    match options params with Some o => o | None => defaultOptions end in
  let getUser :=
    match getUserInfo params with
    | Some f => f
    | None => defaultGetUserInfo
    end in
  try_catch
    (validUser <- authenticate opts getUser event ;;
     lift (validateBody opts event) ;;;
     input <- lift (eventParser params event validUser) ;;
     parsedInput <- lift (schema params input) ;;
     result <- await (UseCaseCalled parsedInput)
                 (useCase params parsedInput) ;;
     lift (responseFormatter params result))
    (fun error => ret (handleError error)).
End WithWorld.
End LambdaAdapter.

Module LambdaObs.
Section WithTypes.
Context {W TInput TOutput : Type}.

(** The options in force: [options = defaultOptions] when left out. *)
Definition effective_options
  (params : @LambdaAdapter.LambdaAdapterParams W TInput TOutput)
  : LambdaAdapter.LambdaAdapterOptions :=
  match LambdaAdapter.options params with
  | Some o => o
  | None => LambdaAdapter.defaultOptions
  end.

(** The [getUserInfo] in force. *)
Definition effective_getUserInfo (decodeToken : string -> Act W JsValue)
  (params : @LambdaAdapter.LambdaAdapterParams W TInput TOutput)
  : ApiGateway.Event -> Act W ValidUser :=
  match LambdaAdapter.getUserInfo params with
  | Some f => f
  | None => LambdaAdapter.defaultGetUserInfo decodeToken
  end.

(** Every listed field reads as something other than [undefined]. *)
Definition all_defined (host_get : JsValue -> string -> JsValue)
  (parsedBody : JsValue) (fields : list string) : Prop :=
  forall field, In field fields ->
    exists v, get_prop host_get parsedBody field = Normal v
              /\ is_undefined v = false.

(** Some listed field reads as [undefined]. *)
Definition some_undefined (host_get : JsValue -> string -> JsValue)
  (parsedBody : JsValue) (fields : list string) : Prop :=
  exists field, In field fields
    /\ get_prop host_get parsedBody field = Normal JUndefined.

(** The error the required-fields loop throws for [field]. *)
Definition missing_field_error (field : string) : Thrown :=
  createError BAD_REQUEST
    (String.append "Missing required field: " field).

(** Inputs the use case was invoked with, in order. *)
Definition useCase_calls (tr : list (@LambdaAdapter.Event TInput))
  : list TInput :=
  flat_map (fun ev =>
    match ev with
    | LambdaAdapter.UseCaseCalled input => [input]
    | _ => []
    end) tr.
End WithTypes.
End LambdaObs.
Import LambdaObs.

(* ================================================================== *)
(** ** sqs-adapter.factory.ts: the queue pipeline                       *)
(* ================================================================== *)

Module Sqs.
(** The parts of [SQSRecord] the adapter reads. *)
Record SQSRecord : Type := MkRecord {
  messageId : string;
  receiptHandle : string;
  body : string;
  eventSourceARN : string
}.

(** [SQSEvent] *)
Record SQSEvent : Type := MkEvent { Records : list SQSRecord }.

(** The input of [new DeleteMessageCommand(...)]. *)
Record DeleteMessageCommand : Type := MkDelete {
  QueueUrl : string;
  ReceiptHandle : string
}.
End Sqs.
Export Sqs.

Module SqsAdapter.
(** [interface SqsAdapterOptions]; [None] is a field left out. *)
Record SqsAdapterOptions : Type := MkOptions {
  processInParallel : option bool;
  continueOnError : option bool;
  loggerPrefix : option string;
  verboseLogging : option bool
}.

(** [{ ...defaultOptions, ...options }], every field now set. *)
Record MergedOptions : Type := MkMerged {
  m_processInParallel : bool;
  m_continueOnError : bool;
  m_loggerPrefix : string;
  m_verboseLogging : bool
}.

Definition defaultOptions : MergedOptions :=
  {| m_processInParallel := true;
     m_continueOnError := true;
     m_loggerPrefix := "SQS-ADAPTER";
     m_verboseLogging := false |}.

Definition or_default {A} (given : option A) (default : A) : A :=
  match given with Some a => a | None => default end.

(** [l[i] = x] on a list that has index [i]. *)
Fixpoint replace_at {A} (i : nat) (x : A) (l : list A) : list A :=
  match l, i with
  | [], _ => []
  | _ :: rest, 0 => x :: rest
  | y :: rest, S j => y :: replace_at j x rest
  end.

Definition merge (options : option SqsAdapterOptions) : MergedOptions :=
  match options with
  | None => defaultOptions
  | Some o =>
      {| m_processInParallel :=
           or_default (processInParallel o)
             (m_processInParallel defaultOptions);
         m_continueOnError :=
           or_default (continueOnError o) (m_continueOnError defaultOptions);
         m_loggerPrefix :=
           or_default (loggerPrefix o) (m_loggerPrefix defaultOptions);
         m_verboseLogging :=
           or_default (verboseLogging o)
             (m_verboseLogging defaultOptions) |}
  end.

(** [getQueueUrlFromArn(arnString)] *)
Definition getQueueUrlFromArn (arnString : string) : Completion string :=
  let parts := split ":" arnString in
  if (List.length parts <? 6)%nat then
    Throw (ErrorObject Error "Invalid ARN format")
  else
    let region := nth 3 parts "" in
    let accountId := nth 4 parts "" in
    let queueName := nth 5 parts "" in
    Normal (String.concat ""
              ["https://sqs."; region; ".amazonaws.com/"; accountId; "/";
               queueName]).

(** [error instanceof Error ? error.message : 'Unknown error'] *)
Definition message_of (error : Thrown) : string :=
  match error with
  | ErrorObject _ m => m
  | NonError _ => "Unknown error"
  end.

Section Extractor.
(** The host's [JSON.parse] and built-in prototypes. *)
Variable JSON_parse : string -> Completion JsValue.
Variable host_get : JsValue -> string -> JsValue.

(** [defaultMessageExtractor(record)] *)
Definition defaultMessageExtractor (record : SQSRecord)
  : Completion JsValue :=
  match JSON_parse (Sqs.body record) with
  | Throw e => Throw e
  | Normal parsedBody =>
      match get_prop host_get parsedBody "Message" with
      | Throw e => Throw e
      | Normal Message =>
          if truthy Message then
            match JSON_parse (to_string Message) with
            | Normal parsedMessage => Normal parsedMessage
            | Throw parseError =>
                Throw (ErrorObject Error
                         (String.append "Invalid SNS message format: "
                            (match parseError with
                             | ErrorObject _ m => m
                             | NonError v => to_string v
                             end)))
            end
          else if negb (truthy parsedBody)
                  || negb (typeof_object parsedBody) then
            Throw (ErrorObject Error
                     "Invalid message format in SQS message")
          else get_prop host_get parsedBody "payload"
      end
  end.
End Extractor.

Section WithWorld.
Context {W TInput TOutput : Type}.

Variable JSON_parse : string -> Completion JsValue.
Variable host_get : JsValue -> string -> JsValue.
(** [sqsClient.send(command)] *)
Variable sqsSend : DeleteMessageCommand -> Act W unit.

(** [interface SqsAdapterParams] *)
Record SqsAdapterParams : Type := MkParams {
  schema : JsValue -> Completion TInput;
  useCase : TInput -> Act W TOutput;
  messageExtractor : option (SQSRecord -> Completion JsValue);
  options : option SqsAdapterOptions;
  adapterName : string
}.

Inductive Event : Type :=
| UseCaseCalled (input : TInput)
| DeleteSent (command : DeleteMessageCommand)
| RecordErrorLogged (messageId : string) (error : string)
| FatalErrorLogged (error : string).

(** What [processRecord] returns: the use case's result, or the
    object [{ error: errorMessage }]. *)
Inductive RecordResult : Type :=
| UseCaseResult (result : TOutput)
| ErrorEntry (entry : JsValue).

(** What the handler returns: the array of per-record results, or
    the answer of [handleError]. *)
Inductive HandlerResult : Type :=
| BatchResults (results : list RecordResult)
| ErrorResponse (response : HttpResponse).

Definition M := Prog W Event.

Definition await {A} (ev : Event) (act : Act W A) : M A :=
  fun w => match act w with (c, w') => (c, w', [ev]) end.

Section WithParams.
Variable params : SqsAdapterParams.

Definition mergedOptions : MergedOptions := merge (options params).

Definition extractor : SQSRecord -> Completion JsValue :=
  or_default (messageExtractor params)
    (defaultMessageExtractor JSON_parse host_get).

(** The synchronous head of [processRecord]: extract, then
    [schema.parse]. *)
Definition prepare (record : SQSRecord) : Completion TInput :=
  match extractor record with
  | Throw e => Throw e
  | Normal rawMessage => schema params rawMessage
  end.

Definition delete_command (queueUrl : string) (record : SQSRecord)
  : DeleteMessageCommand :=
  {| QueueUrl := queueUrl; ReceiptHandle := receiptHandle record |}.

(** From [if (!record.eventSourceARN)] to [return result]. *)
Definition acknowledge (record : SQSRecord) (result : TOutput)
  : M RecordResult :=
  (if negb (truthy_string (eventSourceARN record)) then
     throw (ErrorObject Error "Missing eventSourceARN in SQS record")
   else ret tt) ;;;
  queueUrl <- lift (getQueueUrlFromArn (eventSourceARN record)) ;;
  await (DeleteSent (delete_command queueUrl record))
    (sqsSend (delete_command queueUrl record)) ;;;
  ret (UseCaseResult result).

(** The [catch (recordError)] block. *)
Definition on_record_error (record : SQSRecord) (recordError : Thrown)
  : M RecordResult :=
  let errorMessage := message_of recordError in
  emit (RecordErrorLogged (messageId record) errorMessage) ;;;
  if m_continueOnError mergedOptions then
    ret (ErrorEntry (JObj [("error", JStr errorMessage)]))
  else throw recordError.

(** [const processRecord = async (record) => { ... }] *)
Definition processRecord (record : SQSRecord) : M RecordResult :=
  try_catch
    (validatedInput <- lift (prepare record) ;;
     result <- await (UseCaseCalled validatedInput)
                 (useCase params validatedInput) ;;
     acknowledge record result)
    (on_record_error record).

(** The sequential branch: [for (const record of event.Records)
    results.push(await processRecord(record))]. *)
Fixpoint process_in_order (records : list SQSRecord)
  (results : list RecordResult) : M (list RecordResult) :=
  match records with
  | [] => ret results
  | record :: rest =>
      r <- processRecord record ;;
      process_in_order rest (results ++ [r])
  end.

(** *** The parallel branch

    [event.Records.map(processRecord)] runs every call up to its
    first [await]: extraction, validation and the call of the use
    case all happen there, record after record. A call then goes
    on job by job, whenever what it waits for has settled: from
    the use case to the sending of the delete, and from the
    queue's answer to the end. A use case and the queue settle
    in a later job than the one that called them (they do
    input and output), and what they do to the world is taken at
    the moment they are called. *)

(** A call of [processRecord] between two of its jobs: settled,
    waiting for the use case, or waiting for the queue's answer
    to its delete. *)
Inductive Started : Type :=
| Settled (c : Completion RecordResult)
| AwaitingUseCase (c : Completion TOutput)
| AwaitingDelete (result : TOutput) (c : Completion unit).

Definition settle (m : M RecordResult)
  : W -> Started * W * list Event :=
  fun w => match m w with (c, w', t) => (Settled c, w', t) end.

Definition start (record : SQSRecord)
  : W -> Started * W * list Event :=
  match prepare record with
  | Throw e => settle (on_record_error record e)
  | Normal validatedInput =>
      fun w =>
        match useCase params validatedInput w with
        | (c, w') =>
            (AwaitingUseCase c, w', [UseCaseCalled validatedInput])
        end
  end.

(** The statements between the use case and the send: the URL
    the delete goes to, unless one of them throws. *)
Definition target (record : SQSRecord) : Completion string :=
  if negb (truthy_string (eventSourceARN record)) then
    Throw (ErrorObject Error "Missing eventSourceARN in SQS record")
  else getQueueUrlFromArn (eventSourceARN record).

(** One job of a started call: from one [await] to the next, or
    to the end of the call. *)
Definition step (record : SQSRecord) (s : Started)
  : W -> Started * W * list Event :=
  match s with
  | Settled c => fun w => (Settled c, w, [])
  | AwaitingUseCase (Throw e) => settle (on_record_error record e)
  | AwaitingUseCase (Normal result) =>
      match target record with
      | Throw e => settle (on_record_error record e)
      | Normal queueUrl =>
          fun w =>
            match sqsSend (delete_command queueUrl record) w with
            | (c, w') =>
                (AwaitingDelete result c, w',
                 [DeleteSent (delete_command queueUrl record)])
            end
      end
  | AwaitingDelete result (Normal _) =>
      fun w => (Settled (Normal (UseCaseResult result)), w, [])
  | AwaitingDelete _ (Throw e) => settle (on_record_error record e)
  end.

(** The rest of a call when nothing else runs in between, as in
    the sequential branch. *)
Definition resume (record : SQSRecord) (s : Started)
  : M RecordResult :=
  match s with
  | Settled c => lift c
  | AwaitingUseCase (Normal result) =>
      try_catch (acknowledge record result) (on_record_error record)
  | AwaitingUseCase (Throw e) => on_record_error record e
  | AwaitingDelete result (Normal _) => ret (UseCaseResult result)
  | AwaitingDelete _ (Throw e) => on_record_error record e
  end.

(** [Records.map(processRecord)] *)
Fixpoint start_all (records : list SQSRecord)
  : W -> list Started * W * list Event :=
  fun w =>
    match records with
    | [] => ([], w, [])
    | record :: rest =>
        match start record w with
        | (s, w1, t1) =>
            match start_all rest w1 with
            | (ss, w2, t2) => (s :: ss, w2, t1 ++ t2)
            end
        end
    end.

(** The rejection [Promise.all] finds when it subscribes: that of
    the first call already rejected by its [catch] block. *)
Definition rejected (calls : list Started) : option Thrown :=
  match
    flat_map (fun s =>
      match s with Settled (Throw e) => [e] | _ => [] end) calls
  with
  | e :: _ => Some e
  | [] => None
  end.

(** The jobs that run while the handler waits for [n] calls: the
    indices of [order] that are in range, each one job of that
    call, and after them whatever is left of every call, in array
    order. A job of a call that has settled is none. *)
Definition schedule (n : nat) (order : list nat) : list nat :=
  filter (fun i => i <? n)%nat order ++ seq 0 n ++ seq 0 n.

(** The jobs run one after another until a call rejects: that
    rejects [Promise.all], the handler goes on at once, and no
    later job is among what it did. *)
Fixpoint run_jobs (jobs : list nat) (records : list SQSRecord)
  (calls : list Started)
  : W -> (Thrown + list Started) * W * list Event :=
  fun w =>
    match jobs with
    | [] => (inr calls, w, [])
    | i :: rest =>
        match nth_error records i, nth_error calls i with
        | Some record, Some s =>
            match step record s w with
            | (Settled (Throw e), w1, t1) => (inl e, w1, t1)
            | (s', w1, t1) =>
                match
                  run_jobs rest records (replace_at i s' calls) w1
                with
                | (r, w2, t2) => (r, w2, t1 ++ t2)
                end
            end
        | _, _ => run_jobs rest records calls w
        end
    end.

(** The values of the settled calls, in array order. *)
Definition values (calls : list Started) : list RecordResult :=
  flat_map (fun s =>
    match s with Settled (Normal r) => [r] | _ => [] end) calls.

(** [await Promise.all(event.Records.map(processRecord))] *)
Definition promise_all (order : list nat) (records : list SQSRecord)
  : M (list RecordResult) :=
  fun w =>
    match start_all records w with
    | (started, w1, t1) =>
        match rejected started with
        | Some e => (Throw e, w1, t1)
        | None =>
            match
              run_jobs (schedule (List.length records) order)
                records started w1
            with
            | (inl e, w2, t2) => (Throw e, w2, t1 ++ t2)
            | (inr calls, w2, t2) =>
                (Normal (values calls), w2, t1 ++ t2)
            end
        end
    end.

(** The handler [createSqsAdapter(params)] returns, applied to
    [event]; [order] says in which order the jobs of parallel
    calls run. *)
Definition handler (order : list nat) (event : SQSEvent)
  : M HandlerResult :=
  try_catch
    (match Records event with
     | [] => throw (ErrorObject Error "Missing SQS Records")
     | records =>
         results <-
           (if m_processInParallel mergedOptions
            then promise_all order records
            else process_in_order records []) ;;
         ret (BatchResults results)
     end)
    (fun error =>
       emit (FatalErrorLogged (message_of error)) ;;;
       ret (ErrorResponse (handleError error))).
End WithParams.

Definition createSqsAdapter (params : SqsAdapterParams)
  : list nat -> SQSEvent -> M HandlerResult :=
  handler params.
End WithWorld.
End SqsAdapter.

Module SqsObs.
Section WithTypes.
Context {TInput : Type}.

(** Inputs the use case was invoked with, in order. *)
Definition invoked (tr : list (@SqsAdapter.Event TInput)) : list TInput :=
  flat_map (fun ev =>
    match ev with SqsAdapter.UseCaseCalled input => [input] | _ => [] end)
    tr.

(** Delete commands sent to the queue, in order, whatever the
    queue answered. *)
Definition deletes_sent (tr : list (@SqsAdapter.Event TInput))
  : list DeleteMessageCommand :=
  flat_map (fun ev =>
    match ev with SqsAdapter.DeleteSent c => [c] | _ => [] end) tr.

(** The record can be acknowledged: its [eventSourceARN] is there
    and has the six parts of a queue ARN. *)
Definition acknowledgeable (record : SQSRecord) : bool :=
  truthy_string (eventSourceARN record)
  && negb (List.length (split ":" (eventSourceARN record)) <? 6)%nat.

(** The URL the delete goes to. *)
Definition queue_url (record : SQSRecord) : string :=
  match SqsAdapter.getQueueUrlFromArn (eventSourceARN record) with
  | Normal url => url
  | Throw _ => ""
  end.

(** The command that acknowledges [record]. *)
Definition delete_of (record : SQSRecord) : DeleteMessageCommand :=
  {| QueueUrl := queue_url record;
     ReceiptHandle := receiptHandle record |}.
End WithTypes.

Section WithWorld.
Context {W TInput TOutput : Type}.
Variable JSON_parse : string -> Completion JsValue.
Variable host_get : JsValue -> string -> JsValue.
Variable sqsSend : DeleteMessageCommand -> Act W unit.
Variable params : @SqsAdapter.SqsAdapterParams W TInput TOutput.






(** The started call is waiting on a use case that resolved. *)
Definition resolved (s : @SqsAdapter.Started TOutput) : bool :=
  match s with
  | SqsAdapter.AwaitingUseCase (Normal _) => true
  | _ => false
  end.















End WithWorld.
End SqsObs.
Import SqsObs.
(* ================================================================== *)
(** ** topic-publisher.adapter.ts: publishing to the task topic         *)
(* ================================================================== *)

Module TopicPublisher.
(** [AgentMessage] of task.schema.ts; the payload is an object. *)
Record AgentMessage : Type := MkMessage {
  topic : string;
  id : string;
  timestamp : string;
  queue : string;
  payload : list (string * JsValue)
}.

(** One entry of [MessageAttributes]. *)
Record MessageAttribute : Type := MkAttribute {
  DataType : string;
  StringValue : string
}.

(** The input of [new PublishCommand(...)]. *)
Record PublishCommand : Type := MkPublish {
  TopicArn : string;
  Message : string;
  MessageAttributes : list (string * MessageAttribute);
  MessageGroupId : string;
  MessageDeduplicationId : JsValue
}.

Definition publish_command (topicArn : string) (message : AgentMessage)
  : PublishCommand :=
  {| TopicArn := topicArn;
     Message := Json.stringify_object (payload message);
     MessageAttributes :=
       [("queue", {| DataType := "String";
                     StringValue := queue message |})];
     MessageGroupId := queue message;
     MessageDeduplicationId := member (payload message) "id" |}.

Section WithWorld.
Context {W : Type}.

(** [Resource.TaskTopic.arn] and [snsClient.send(command)]. *)
Variable topicArn : string.
Variable snsSend : PublishCommand -> Act W unit.

Inductive Event : Type :=
| PublishSent (command : PublishCommand).

Definition M := Prog W Event.

Definition await {A} (ev : Event) (act : Act W A) : M A :=
  fun w => match act w with (c, w') => (c, w', [ev]) end.

(** [async publishAgentMessage(message)] *)
Definition publishAgentMessage (message : AgentMessage) : M unit :=
  try_catch
    (await (PublishSent (publish_command topicArn message))
       (snsSend (publish_command topicArn message)))
    (fun _ => throw (ErrorObject Error "Failed to publish to topic")).
End WithWorld.
End TopicPublisher.

(* ================================================================== *)
(** ** orchestrator/auth: user registration and the auth webhook        *)
(* ================================================================== *)

Module UserAdapter.
(** [NewUser] of user.schema.ts. *)
Record NewUser : Type := MkNewUser { userId : string }.

(** The methods of [IUserAdapter] that registration calls. *)
Record IUserAdapter (W : Type) : Type := MkAdapter {
  registerUser : NewUser -> Act W unit;
  generateApiKeys : string -> Act W string;
  deleteApiKeys : string -> string -> Act W unit;
  updateUserClaims : string -> list (string * JsValue) -> Act W unit;
  removeApiKeyFromDatabase : string -> string -> Act W unit;
  saveApiKeyToDatabase : string -> string -> Act W unit
}.
Arguments registerUser {W} _ _.
Arguments generateApiKeys {W} _ _.
Arguments deleteApiKeys {W} _ _ _.
Arguments updateUserClaims {W} _ _ _.
Arguments removeApiKeyFromDatabase {W} _ _ _.
Arguments saveApiKeyToDatabase {W} _ _ _.
End UserAdapter.

Module UserRegistrationSagaBuilder.
(** The two private fields of the builder; [None] is a field not yet
    assigned. *)
Record t : Type := Build {
  newUserData : option UserAdapter.NewUser;
  generatedKeyId : option string
}.

(** [new UserRegistrationSagaBuilder()] *)
Definition new : t := {| newUserData := None; generatedKeyId := None |}.

(** [forUser(newUserData) { this.newUserData = newUserData; ... }] *)
Definition forUser (user : UserAdapter.NewUser) (this : t) : t :=
  {| newUserData := Some user; generatedKeyId := generatedKeyId this |}.

(** [if (this.generatedKeyId)]: the key, when one is held and it is
    not the empty string. *)
Definition held_key (this : t) : option string :=
  match generatedKeyId this with
  | Some key => if truthy_string key then Some key else None
  | None => None
  end.

(** [this.generatedKeyId] as a value. *)
Definition key_value (this : t) : JsValue :=
  match generatedKeyId this with
  | Some key => JStr key
  | None => JUndefined
  end.

(** The claims written by the fourth step and by its rollback. *)
Definition claimsData (this : t) (registrationDate : string)
  : list (string * JsValue) :=
  [ ("keyId", key_value this);
    ("hasApiKey", JBool true);
    ("userStatus", JStr "active");
    ("registrationCompleted", JBool true);
    ("registrationDate", JStr registrationDate) ].

Definition resetClaims : list (string * JsValue) :=
  [ ("hasApiKey", JBool false);
    ("userStatus", JStr "pending");
    ("registrationCompleted", JBool false) ].

Section WithWorld.
Context {W : Type}.

(** The [userAdapter] singleton and [new Date().toISOString()]. *)
Variable userAdapter : UserAdapter.IUserAdapter W.
Variable now : W -> string.

(** The steps are closures over the builder: what they see when
    they run is the builder as it is then, together with the world
    outside. *)
Record Store : Type := MkStore { builder : t; outside : W }.

(** A call of the adapter: it acts on the outside world. *)
Definition call {A} (act : Act W A) : Act Store A :=
  fun s =>
    match act (outside s) with
    | (c, w') => (c, {| builder := builder s; outside := w' |})
    end.

(** Running [body] with [this.newUserData]. Reading a property of
    the field while it is unassigned is a TypeError; a saga is only
    built once the field is assigned. *)
Definition with_user {A} (body : UserAdapter.NewUser -> Act Store A)
  : Act Store A :=
  fun s =>
    match newUserData (builder s) with
    | Some user => body user s
    | None =>
        (Throw (ErrorObject TypeError
                  "Cannot read properties of undefined (reading 'userId')"),
         s)
    end.

(** Step 1: register the user. The rollback only logs. *)
Definition registerStep : SagaStep.t Store :=
  SagaStep.Build
    (with_user (fun user s =>
       match call (UserAdapter.registerUser userAdapter user) s with
       | (Normal _, s') => (Normal JUndefined, s')
       | (Throw e, s') => (Throw e, s')
       end))
    (fun s => (Normal tt, s)).

(** Step 2: generate the API key and keep its id in the builder. *)
Definition generateStep : SagaStep.t Store :=
  SagaStep.Build
    (with_user (fun user s =>
       match call (UserAdapter.generateApiKeys userAdapter
                     (UserAdapter.userId user)) s with
       | (Normal key, s') =>
           (Normal (JStr key),
            {| builder := {| newUserData := newUserData (builder s');
                             generatedKeyId := Some key |};
               outside := outside s' |})
       | (Throw e, s') => (Throw e, s')
       end))
    (fun s =>
       match held_key (builder s) with
       | Some key =>
           with_user (fun user =>
             call (UserAdapter.deleteApiKeys userAdapter
                     (UserAdapter.userId user) key)) s
       | None => (Normal tt, s)
       end).

(** Step 3: save the key, if one was generated. *)
Definition saveStep : SagaStep.t Store :=
  SagaStep.Build
    (fun s =>
       match held_key (builder s) with
       | Some key =>
           with_user (fun user s' =>
             match call (UserAdapter.saveApiKeyToDatabase userAdapter
                           (UserAdapter.userId user) key) s' with
             | (Normal _, s'') => (Normal JUndefined, s'')
             | (Throw e, s'') => (Throw e, s'')
             end) s
       | None =>
           (Throw (ErrorObject Error
                     "No API key generated to save to database"), s)
       end)
    (fun s =>
       match held_key (builder s) with
       | Some key =>
           with_user (fun user =>
             call (UserAdapter.removeApiKeyFromDatabase userAdapter
                     (UserAdapter.userId user) key)) s
       | None => (Normal tt, s)
       end).

(** Step 4: update the user's claims at the auth provider. *)
Definition claimsStep : SagaStep.t Store :=
  SagaStep.Build
    (fun s =>
       let claims := claimsData (builder s) (now (outside s)) in
       with_user (fun user s' =>
         match call (UserAdapter.updateUserClaims userAdapter
                       (UserAdapter.userId user) claims) s' with
         | (Normal _, s'') => (Normal JUndefined, s'')
         | (Throw e, s'') => (Throw e, s'')
         end) s)
    (with_user (fun user s =>
       call (UserAdapter.updateUserClaims userAdapter
               (UserAdapter.userId user) resetClaims) s)).

(** [build(): Saga] *)
Definition build (this : t) : Completion (Saga.t Store) :=
  match newUserData this with
  | None =>
      Throw (ErrorObject Error
               "User data must be provided before building the saga")
  | Some _ =>
      Normal
        (Saga.addStep claimsStep
           (Saga.addStep saveStep
              (Saga.addStep generateStep
                 (Saga.addStep registerStep Saga.new))))
  end.
End WithWorld.
Arguments Store W : clear implicits.
End UserRegistrationSagaBuilder.

Module RegisterUser.
Section WithWorld.
Context {W : Type}.
Variable userAdapter : UserAdapter.IUserAdapter W.
Variable now : W -> string.

Definition Store := UserRegistrationSagaBuilder.Store W.
Definition M := Prog Store (@Saga.Event).

(** [await saga.execute()] on a saga that lives for this call only. *)
Definition run_saga (saga : Saga.t Store) : M (list JsValue) :=
  fun s =>
    match Saga.execute (Saga.MkHeap saga s) with
    | (c, h, tr) => (c, Saga.world h, tr)
    end.

Definition registered : JsValue :=
  JObj [("message", JStr "User registered successfully")].

(** [registerUserUseCase(newUserData)], on the builder singleton. *)
Definition registerUserUseCase (newUserData : UserAdapter.NewUser)
  : M JsValue :=
  try_catch
    (modify (fun s =>
       {| UserRegistrationSagaBuilder.builder :=
            UserRegistrationSagaBuilder.forUser newUserData
              (UserRegistrationSagaBuilder.builder s);
          UserRegistrationSagaBuilder.outside :=
            UserRegistrationSagaBuilder.outside s |}) ;;;
     s <- get ;;
     saga <- lift (UserRegistrationSagaBuilder.build userAdapter now
                     (UserRegistrationSagaBuilder.builder s)) ;;
     run_saga saga ;;;
     ret registered)
    (fun _ => throw (ErrorObject Error "User registration failed")).
End WithWorld.
End RegisterUser.

Module AuthWebhook.
(** What the code reads of Clerk's [WebhookEvent]. *)
Record WebhookEvent : Type := MkWebhookEvent {
  type : string;
  data : JsValue
}.

(** The three Svix headers handed to [wh.verify]. *)
Record SvixHeaders : Type := MkSvix {
  svix_id : string;
  svix_timestamp : string;
  svix_signature : string
}.

(** The answer of the webhook adapter. *)
Record ProxyResult : Type := MkResult {
  statusCode : Z;
  headers : list (string * JsValue);
  body : string
}.

Definition json_headers : list (string * JsValue) :=
  [("Content-Type", JStr "application/json")].

(** [error instanceof Error ? error.message : 'Unknown error'] *)
Definition error_text (error : Thrown) : string :=
  match error with
  | ErrorObject _ m => m
  | NonError _ => "Unknown error"
  end.

(** [UserDetailsSchema.parse]: an object whose [id] is a string. *)
Definition UserDetailsSchema_parse (v : JsValue) : Completion string :=
  match v with
  | JObj members =>
      match member members "id" with
      | JStr id => Normal id
      | _ => Throw (ErrorObject ZodError "id: expected string")
      end
  | _ => Throw (ErrorObject ZodError "expected object")
  end.

Section Clerk.
(** [Resource.ClerkClientWebhookSecret.value] and svix's
    [new Webhook(secret)], which gives the [verify] of that secret
    or throws. *)
Variable clerkWebhookSecret : string.
Variable new_Webhook :
  string -> Completion (string -> SvixHeaders -> Completion WebhookEvent).

(** [headers[name]] is there and not empty. *)
Definition header_value (event : ApiGateway.Event) (name : string)
  : option string :=
  match ApiGateway.header (ApiGateway.headers event) name with
  | Some v => if truthy_string v then Some v else None
  | None => None
  end.

(** [validateWebhookEvent(event)] of [ClerkService]: the secret, the
    payload and the Svix headers are checked in this order, then the
    signature is verified. *)
Definition validateWebhookEvent (event : ApiGateway.Event)
  : Completion WebhookEvent :=
  if negb (truthy_string clerkWebhookSecret) then
    Throw (ErrorObject Error "Missing WEBHOOK_SECRET")
  else
    match ApiGateway.body event with
    | None => Throw (ErrorObject Error "Missing payload")
    | Some payload =>
        if negb (truthy_string payload) then
          Throw (ErrorObject Error "Missing payload")
        else
          match header_value event "svix-id",
                header_value event "svix-timestamp",
                header_value event "svix-signature" with
          | Some svixId, Some svixTimestamp, Some svixSignature =>
              match new_Webhook clerkWebhookSecret with
              | Throw e => Throw e
              | Normal verify =>
                  match verify payload
                          {| svix_id := svixId;
                             svix_timestamp := svixTimestamp;
                             svix_signature := svixSignature |} with
                  | Normal evt => Normal evt
                  | Throw _ =>
                      Throw (ErrorObject Error
                               "Webhook verification failed")
                  end
              end
          | _, _, _ => Throw (ErrorObject Error "Missing Svix headers")
          end
    end.
End Clerk.

Section WithWorld.
Context {W : Type}.
Variable host_get : JsValue -> string -> JsValue.
Variable userAdapter : UserAdapter.IUserAdapter W.
Variable now : W -> string.
Variable clerkWebhookSecret : string.
Variable new_Webhook :
  string -> Completion (string -> SvixHeaders -> Completion WebhookEvent).

Definition Store := UserRegistrationSagaBuilder.Store W.
Definition M := Prog Store (@Saga.Event).

(** [handleUserCreated(userData)] *)
Definition handleUserCreated (userData : JsValue) : M JsValue :=
  lift (get_prop host_get userData "id") ;;;
  id <- lift (UserDetailsSchema_parse userData) ;;
  result <- RegisterUser.registerUserUseCase userAdapter now
              (UserAdapter.MkNewUser id) ;;
  message <- lift (get_prop host_get result "message") ;;
  ret (JObj [("status", JStr "success");
             ("userId", JStr id);
             ("action", JStr "user_created");
             ("message", message)]).

(** [handleUserUpdated(userData)] *)
Definition handleUserUpdated (userData : JsValue) : M JsValue :=
  id <- lift (get_prop host_get userData "id") ;;
  ret (JObj [("status", JStr "success");
             ("userId", id);
             ("action", JStr "user_updated")]).

(** [processWebhookUseCase(event)]; its [catch] rethrows. *)
Definition processWebhookUseCase (event : WebhookEvent) : M JsValue :=
  if String.eqb (type event) "user.created" then
    handleUserCreated (data event)
  else if String.eqb (type event) "user.updated" then
    handleUserUpdated (data event)
  else
    ret (JObj [("status", JStr "ignored");
               ("event", JStr (type event))]).

Definition invalid_payload : ProxyResult :=
  {| statusCode := 400;
     headers := json_headers;
     body := Json.stringify_object
               [("message", JStr "Invalid webhook payload")] |}.

Definition processed (result : JsValue) : ProxyResult :=
  {| statusCode := 200;
     headers := json_headers;
     body := Json.stringify_object
               [("message", JStr "Webhook processed successfully");
                ("result", result)] |}.

Definition internal_error (error : Thrown) : ProxyResult :=
  {| statusCode := 500;
     headers := json_headers;
     body := Json.stringify_object
               [("message", JStr "Internal server error");
                ("error", JStr (error_text error))] |}.

(** [authWebhookAdapter(event)]; constructing [ClerkService] is
    taken not to throw. *)
Definition authWebhookAdapter (event : ApiGateway.Event)
  : M ProxyResult :=
  try_catch
    ((match ApiGateway.body event with
      | Some text =>
          if truthy_string text then ret tt
          else throw (ErrorObject Error "Missing request body")
      | None => throw (ErrorObject Error "Missing request body")
      end) ;;;
     match validateWebhookEvent clerkWebhookSecret new_Webhook event with
     | Throw _ => ret invalid_payload
     | Normal webhookEvent =>
         result <- processWebhookUseCase webhookEvent ;;
         ret (processed result)
     end)
    (fun error => ret (internal_error error)).
End WithWorld.
End AuthWebhook.

(* ================================================================== *)
(** ** dynamodb-repository.factory.ts: the base repository              *)
(* ================================================================== *)

Module DynamoDB.
(** The commands the repository builds, with the parameters it sets.
    A key, an item's attribute values and name maps are objects. *)
Inductive Command : Type :=
| PutCommand (TableName : string) (Item : JsValue)
| GetCommand (TableName : string) (Key : list (string * JsValue))
| DeleteCommand (TableName : string) (Key : list (string * JsValue))
| UpdateCommand (TableName : string) (Key : list (string * JsValue))
    (UpdateExpression : string)
    (ExpressionAttributeValues : list (string * JsValue))
    (ExpressionAttributeNames : list (string * string))
| BatchGetCommand (TableName : string)
    (Keys : list (list (string * JsValue))).

(** What the repository reads of a command's output; [None] is a
    field that is not there. *)
Record Output : Type := MkOutput {
  Item : option JsValue;
  Items : option (list JsValue);
  Responses : option (list (string * list JsValue))
}.

(** [Responses[tableName]] *)
Fixpoint table_items (responses : list (string * list JsValue))
  (tableName : string) : option (list JsValue) :=
  match responses with
  | [] => None
  | (name, items) :: rest =>
      match table_items rest tableName with
      | Some items' => Some items'
      | None => if String.eqb name tableName then Some items else None
      end
  end.
End DynamoDB.

Module BaseRepository.
(** [errorMessages] with every message set. *)
Record ErrorMessages : Type := MkMessages {
  notFound : string;
  saveFailed : string;
  getFailed : string;
  queryFailed : string;
  deleteFailed : string;
  updateFailed : string
}.

(** [BaseRepositoryOptions['errorMessages']]; [None] is a message
    left out. *)
Record ErrorMessagesOptions : Type := MkMessagesOptions {
  o_notFound : option string;
  o_saveFailed : option string;
  o_getFailed : option string;
  o_queryFailed : option string;
  o_deleteFailed : option string;
  o_updateFailed : option string
}.

(** [interface BaseRepositoryOptions] *)
Record BaseRepositoryOptions : Type := MkOptions {
  o_tableName : string;
  o_primaryKey : option string;
  o_sortKey : option string;
  o_verbose : option bool;
  o_errorMessages : option ErrorMessagesOptions
}.

(** The fields of [class BaseRepository]. *)
Record t : Type := Build {
  tableName : string;
  primaryKey : string;
  sortKey : option string;
  verbose : bool;
  errorMessages : ErrorMessages
}.

Definition defaultErrorMessages : ErrorMessages :=
  {| notFound := "Entity not found";
     saveFailed := "Failed to save entity";
     getFailed := "Failed to get entity";
     queryFailed := "Failed to query entities";
     deleteFailed := "Failed to delete entity";
     updateFailed := "Failed to update entity" |}.

Definition or_default (given : option string) (default : string)
  : string :=
  match given with Some s => s | None => default end.

(** [{ ...defaultErrorMessages, ...options.errorMessages }] *)
Definition merge_messages (given : option ErrorMessagesOptions)
  : ErrorMessages :=
  match given with
  | None => defaultErrorMessages
  | Some o =>
      {| notFound := or_default (o_notFound o) "Entity not found";
         saveFailed := or_default (o_saveFailed o) "Failed to save entity";
         getFailed := or_default (o_getFailed o) "Failed to get entity";
         queryFailed :=
           or_default (o_queryFailed o) "Failed to query entities";
         deleteFailed :=
           or_default (o_deleteFailed o) "Failed to delete entity";
         updateFailed :=
           or_default (o_updateFailed o) "Failed to update entity" |}
  end.

(** [constructor(dbClient, options)] *)
Definition new (options : BaseRepositoryOptions) : t :=
  {| tableName := o_tableName options;
     primaryKey :=
       match o_primaryKey options with
       | Some k => if truthy_string k then k else "id"
       | None => "id"
       end;
     sortKey := o_sortKey options;
     verbose :=
       match o_verbose options with Some b => b | None => false end;
     errorMessages := merge_messages (o_errorMessages options) |}.

(** [{ [this.primaryKey]: id }], with the sort key added when one is
    configured and a value is given. *)
Definition make_key (this : t) (id : string)
  (sortKeyValue : option string) : list (string * JsValue) :=
  (primaryKey this, JStr id)
  :: match sortKey this, sortKeyValue with
     | Some sk, Some sv =>
         if truthy_string sk && truthy_string sv
         then [(sk, JStr sv)] else []
     | _, _ => []
     end.

(** The decimal text of an index, as a template literal writes it. *)
Definition decimal (n : nat) : string :=
  NilZero.string_of_uint (Nat.to_uint n).

Definition placeholder (index : nat) : string :=
  String.append ":val" (decimal index).

Definition nameKey (index : nat) : string :=
  String.append "#attr" (decimal index).

(** [attrName === this.primaryKey || attrName === this.sortKey] *)
Definition is_key_attribute (this : t) (attrName : string) : bool :=
  String.eqb attrName (primaryKey this)
  || match sortKey this with
     | Some sk => String.eqb attrName sk
     | None => false
     end.

(** The entries the [forEach] of [update] does not skip, each with
    its index among all entries. *)
Definition updated_entries (this : t)
  (entries : list (string * JsValue)) : list (nat * (string * JsValue)) :=
  filter (fun ie => negb (is_key_attribute this (fst (snd ie))))
    (combine (seq 0 (List.length entries)) entries).

Definition updateExpressions (kept : list (nat * (string * JsValue)))
  : list string :=
  map (fun ie =>
         String.append (nameKey (fst ie))
           (String.append " = " (placeholder (fst ie)))) kept.

Definition expressionAttributeValues
  (kept : list (nat * (string * JsValue))) : list (string * JsValue) :=
  map (fun ie => (placeholder (fst ie), snd (snd ie))) kept.

Definition expressionAttributeNames
  (kept : list (nat * (string * JsValue))) : list (string * string) :=
  map (fun ie => (nameKey (fst ie), fst (snd ie))) kept.

Definition batchSize : nat := 100.

(** The loop [for (i = from; i < ids.length; i += size)
    batches.push(ids.slice(i, i + size))]; [turns] bounds the number
    of turns. *)
Fixpoint slices (size turns from : nat) (ids : list string)
  : list (list string) :=
  match turns with
  | 0 => []
  | S turns' =>
      if (from <? List.length ids)%nat then
        firstn size (skipn from ids)
        :: slices size turns' (from + size) ids
      else []
  end.

(** The batches of [batchGet]; the loop ends within [ids.length]
    turns. *)
Definition batches (ids : list string) : list (list string) :=
  slices batchSize (List.length ids) 0 ids.

Section WithWorld.
Context {W : Type}.

(** [this.dbClient.send(command)] *)
Variable send : DynamoDB.Command -> Act W DynamoDB.Output.

Inductive Event : Type :=
| Sent (command : DynamoDB.Command).

Definition M := Prog W Event.

Definition await (command : DynamoDB.Command) : M DynamoDB.Output :=
  fun w => match send command w with (c, w') => (c, w', [Sent command]) end.

Definition fail {A} (message : string) : M A :=
  throw (ErrorObject Error message).

(** [async save(entity)] *)
Definition save (this : t) (entity : JsValue) : M unit :=
  try_catch
    (await (DynamoDB.PutCommand (tableName this) entity) ;;; ret tt)
    (fun _ => fail (saveFailed (errorMessages this))).

(** [async getById(id, sortKeyValue?)] *)
Definition getById (this : t) (id : string)
  (sortKeyValue : option string) : M JsValue :=
  try_catch
    (result <- await (DynamoDB.GetCommand (tableName this)
                        (make_key this id sortKeyValue)) ;;
     match DynamoDB.Item result with
     | Some item =>
         if truthy item then ret item
         else fail (notFound (errorMessages this))
     | None => fail (notFound (errorMessages this))
     end)
    (fun error =>
       if instanceof_Error error
          && String.eqb (error_message error)
               (notFound (errorMessages this))
       then throw error
       else fail (getFailed (errorMessages this))).

(** [async delete(id, sortKeyValue?)] *)
Definition delete (this : t) (id : string)
  (sortKeyValue : option string) : M unit :=
  try_catch
    (await (DynamoDB.DeleteCommand (tableName this)
              (make_key this id sortKeyValue)) ;;; ret tt)
    (fun _ => fail (deleteFailed (errorMessages this))).

(** [async update(id, attributes, sortKeyValue?)]; [entries] is
    [Object.entries(attributes)]. *)
Definition update (this : t) (id : string)
  (entries : list (string * JsValue)) (sortKeyValue : option string)
  : M unit :=
  try_catch
    (let kept := updated_entries this entries in
     match updateExpressions kept with
     | [] => ret tt
     | expressions =>
         await (DynamoDB.UpdateCommand (tableName this)
                  (make_key this id sortKeyValue)
                  (String.append "SET "
                     (String.concat ", " expressions))
                  (expressionAttributeValues kept)
                  (expressionAttributeNames kept)) ;;;
         ret tt
     end)
    (fun _ => fail (updateFailed (errorMessages this))).

(** The [for (const batch of batches)] loop of [batchGet]. *)
Fixpoint fetch (this : t) (todo : list (list string))
  (results : list JsValue) : M (list JsValue) :=
  match todo with
  | [] => ret results
  | batch :: rest =>
      result <- await (DynamoDB.BatchGetCommand (tableName this)
                         (map (fun id => [(primaryKey this, JStr id)])
                            batch)) ;;
      fetch this rest
        (match DynamoDB.Responses result with
         | Some responses =>
             match DynamoDB.table_items responses (tableName this) with
             | Some items => results ++ items
             | None => results
             end
         | None => results
         end)
  end.

(** [async batchGet(ids)] *)
Definition batchGet (this : t) (ids : list string)
  : M (list JsValue) :=
  match ids with
  | [] => ret []
  | _ =>
      try_catch (fetch this (batches ids) [])
        (fun _ =>
           fail (String.append "Failed to batch get entities from "
                   (tableName this)))
  end.
End WithWorld.
End BaseRepository.

(* ================================================================== *)
(** ** orchestrator/billing: the checkout and API-key adapters          *)
(* ================================================================== *)

Module BillingAdapters.
(** [APIGatewayProxyResultV2] as these adapters build it; the body is
    what [JSON.stringify] gave, [None] for [undefined]. *)
Record ProxyResult : Type := MkResult {
  statusCode : Z;
  body : option string
}.

(** [error instanceof Error
      ? (error.message === 'Unauthorized' ? 401 : 400) : 500] *)
Definition error_status (error : Thrown) : Z :=
  if instanceof_Error error then
    if String.eqb (error_message error) "Unauthorized" then 401 else 400
  else 500.

(** [error instanceof Error ? error.message : 'Invalid request'] *)
Definition error_text (error : Thrown) : string :=
  match error with
  | ErrorObject _ m => m
  | NonError _ => "Invalid request"
  end.

(** The answer of the [catch] block. *)
Definition failure (error : Thrown) : ProxyResult :=
  {| statusCode := error_status error;
     body := Json.stringify (JObj [("error", JStr (error_text error))]) |}.

Definition success (result : JsValue) : ProxyResult :=
  {| statusCode := 200; body := Json.stringify result |}.

(** [String(index)] *)
Definition index_key (index : nat) : string :=
  NilZero.string_of_uint (Nat.to_uint index).

(** The members [{ ...v }] copies: those of an object, the items of
    an array and the code units of a string under their indices,
    nothing for any other value. *)
Definition spread (v : JsValue) : list (string * JsValue) :=
  match v with
  | JObj members => members
  | JArr items =>
      map (fun ix => (index_key (fst ix), snd ix))
        (combine (seq 0 (List.length items)) items)
  | JStr s =>
      map (fun iu => (index_key (fst iu), JStr (snd iu)))
        (combine (seq 0 (List.length (code_units s))) (code_units s))
  | _ => []
  end.

(** [validUser.keyId] as a value. *)
Definition keyId_value (user : ValidUser) : JsValue :=
  match keyId user with Some k => JStr k | None => JUndefined end.

Section WithWorld.
Context {W : Type}.

Variable JSON_parse : string -> Completion JsValue.
Variable decodeToken : string -> Act W JsValue.
(** The schemas of credits.schema and the two use cases. *)
Variable CheckoutSessionInputSchema_parse : JsValue -> Completion JsValue.
Variable CreateApiKeyInputSchema_parse : JsValue -> Completion JsValue.
Variable createCheckoutSessionUseCase : JsValue -> Act W JsValue.
Variable createApiKeyUseCase : JsValue -> Act W JsValue.

Inductive Event : Type :=
| UseCaseCalled (params : JsValue).

Definition M := Prog W Event.

Definition await {A} (ev : Event) (act : Act W A) : M A :=
  fun w => match act w with (c, w') => (c, w', [ev]) end.

(** [await svm.getValidUser(event)] *)
Definition validUser_of (event : ApiGateway.Event) : M ValidUser :=
  fun w =>
    match getValidUser decodeToken event w with
    | (c, w', _) => (c, w', [])
    end.

(** [checkoutAdapter(event)] *)
Definition checkoutAdapter (event : ApiGateway.Event) : M ProxyResult :=
  try_catch
    (validUser <- validUser_of event ;;
     params <-
       lift (CheckoutSessionInputSchema_parse
               (JObj [("userId", JStr (Identity.userId validUser));
                      ("keyId", keyId_value validUser)])) ;;
     session <- await (UseCaseCalled params)
                  (createCheckoutSessionUseCase params) ;;
     ret (success session))
    (fun error => ret (failure error)).

(** [createApiKeyAdapter(event)] *)
Definition createApiKeyAdapter (event : ApiGateway.Event)
  : M ProxyResult :=
  try_catch
    (text <-
       match ApiGateway.body event with
       | Some text =>
           if truthy_string text then ret text
           else throw (ErrorObject Error "Missing request body")
       | None => throw (ErrorObject Error "Missing request body")
       end ;;
     body <- lift (JSON_parse text) ;;
     validUser <- validUser_of event ;;
     params <-
       lift (CreateApiKeyInputSchema_parse
               (JObj (spread body
                      ++ [("userId", JStr (Identity.userId validUser))]))) ;;
     result <- await (UseCaseCalled params) (createApiKeyUseCase params) ;;
     ret (success result))
    (fun error => ret (failure error)).
End WithWorld.
End BillingAdapters.

(* ================================================================== *)
(** ** agent-runtime/researcher: schemas, repository and use cases      *)
(* ================================================================== *)

Module Zod.
(** The field types the research schemas are made of. *)
Inductive FieldType : Type :=
| ZString                                        (* z.string() *)
| ZStringArray                                   (* z.array(z.string()) *)
| ZEnumWithDefault (values : list string) (default : string).
                                   (* z.nativeEnum(E).default(d) *)

Definition is_string (v : JsValue) : bool :=
  match v with JStr _ => true | _ => false end.

(** One field: the parsed value, or [None] when the value is not of
    the field's type. *)
Definition parse_field (t : FieldType) (v : JsValue) : option JsValue :=
  match t, v with
  | ZString, JStr s => Some (JStr s)
  | ZStringArray, JArr items =>
      if forallb is_string items then Some (JArr items) else None
  | ZEnumWithDefault _ default, JUndefined => Some (JStr default)
  | ZEnumWithDefault values _, JStr s =>
      if existsb (String.eqb s) values then Some (JStr s) else None
  | _, _ => None
  end.

(** The fields of the shape, read off the input one by one; the
    output has the keys of the shape and no other. The message of the
    ZodError stands for its list of issues. *)
Fixpoint parse_shape (shape : list (string * FieldType))
  (members : list (string * JsValue))
  : Completion (list (string * JsValue)) :=
  match shape with
  | [] => Normal []
  | (key, t) :: rest =>
      match parse_field t (member members key) with
      | None => Throw (ErrorObject ZodError key)
      | Some x =>
          match parse_shape rest members with
          | Normal out => Normal ((key, x) :: out)
          | Throw e => Throw e
          end
      end
  end.

(** [z.object(shape).parse(v)] *)
Definition parse (shape : list (string * FieldType)) (v : JsValue)
  : Completion (list (string * JsValue)) :=
  match v with
  | JObj members => parse_shape shape members
  | _ => Throw (ErrorObject ZodError "Expected object")
  end.
End Zod.

Module Research.
(** [enum ResearchStatus] *)
Definition PENDING : string := "pending".
Definition COMPLETED : string := "completed".
Definition FAILED : string := "failed".

Definition status_field : Zod.FieldType :=
  Zod.ZEnumWithDefault [PENDING; COMPLETED; FAILED] PENDING.

Definition PendingResearchSchema : list (string * Zod.FieldType) :=
  [ ("researchId", Zod.ZString); ("userId", Zod.ZString);
    ("title", Zod.ZString); ("content", Zod.ZString);
    ("citation_links", Zod.ZStringArray);
    ("researchStatus", status_field) ].

Definition RequestResearchOutputSchema : list (string * Zod.FieldType) :=
  [ ("researchId", Zod.ZString); ("title", Zod.ZString);
    ("content", Zod.ZString); ("citation_links", Zod.ZStringArray);
    ("researchStatus", status_field) ].

Definition SaveResearchSchema : list (string * Zod.FieldType) :=
  [ ("researchId", Zod.ZString); ("userId", Zod.ZString);
    ("title", Zod.ZString); ("content", Zod.ZString);
    ("citation_links", Zod.ZStringArray) ].

(** [RequestResearchInput], after its schema has filled in [id]. *)
Record RequestResearchInput : Type := MkRequest {
  prompt : string;
  id : string;
  userId : string;
  keyId : string
}.

(** [GetResearchInput] *)
Record GetResearchInput : Type := MkGet {
  g_userId : string;
  researchId : string
}.

(** [UpdateUserCreditsCommand] *)
Record UpdateUserCreditsCommand : Type := MkCredits {
  c_userId : string;
  c_keyId : string;
  operation : string;
  amount : Z
}.

(** [getResearchByIdEventParser(event, validUser)] *)
Definition getResearchByIdEventParser (event : ApiGateway.Event)
  (validUser : ValidUser) : Completion GetResearchInput :=
  match ApiGateway.header (ApiGateway.pathParameters event) "id" with
  | Some researchId =>
      if truthy_string researchId then
        Normal {| g_userId := Identity.userId validUser;
                  researchId := researchId |}
      else Throw (ErrorObject Error "Research ID is required")
  | None => Throw (ErrorObject Error "Research ID is required")
  end.

(** [researchByIdAdapterOptions] *)
Definition researchByIdAdapterOptions
  : LambdaAdapter.LambdaAdapterOptions :=
  LambdaAdapter.MkOptions (Some true) (Some false) None.

(** The title of a pending entry:
    [`Research for: ${prompt.substring(0, 50)}...`] *)
Definition pending_title (prompt : string) : string :=
  String.append "Research for: "
    (String.append (substring_to 50 prompt) "...").

Section WithWorld.
Context {W : Type}.

(** [Resource.Research.name], the document client, the OpenAI
    pipeline [executeResearch] and [apiKeyService.updateUserCredits]. *)
Variable tableName : string.
Variable send : DynamoDB.Command -> Act W DynamoDB.Output.
Variable executeResearch :
  RequestResearchInput -> Act W (list (string * JsValue)).
Variable updateUserCredits : UpdateUserCreditsCommand -> Act W unit.

Inductive Event : Type :=
| Retried (ev : Retry.Event)
| CreditsUpdated (command : UpdateUserCreditsCommand)
| Sent (command : DynamoDB.Command).

Definition M := Prog W Event.

Definition await {A} (ev : Event) (act : Act W A) : M A :=
  fun w => match act w with (c, w') => (c, w', [ev]) end.

(** *** research.repository.ts *)

(** [saveResearch(research)] *)
Definition saveResearch (research : JsValue) : M string :=
  await (Sent (DynamoDB.PutCommand tableName research))
    (send (DynamoDB.PutCommand tableName research)) ;;;
  ret "Research saved successfully".

(** [getResearchById(researchId)]; [None] is [null]. *)
Definition getResearchById (researchId : string)
  : M (option JsValue) :=
  let command :=
    DynamoDB.GetCommand tableName [("researchId", JStr researchId)] in
  response <- await (Sent command) (send command) ;;
  match DynamoDB.Item response with
  | Some item =>
      if truthy item then
        parsed <- lift (Zod.parse RequestResearchOutputSchema item) ;;
        ret (Some (JObj parsed))
      else ret None
  | None => ret None
  end.

(** *** openai.adapter.ts *)

(** [runResearch = withRetry(executeResearch, { retries: 3,
    delay: 1000, onRetry })] *)
Definition runResearch (input : RequestResearchInput)
  : M (list (string * JsValue)) :=
  fun w =>
    match Retry.withRetry (executeResearch input)
            (Retry.Build 3 1000 (fun _ w' => (Normal tt, w'))) w with
    | (c, w', tr) => (c, w', map Retried tr)
    end.

(** *** usecase/research.usecase.ts *)

(** [runResearchUsecase(input)] *)
Definition runResearchUsecase (input : RequestResearchInput)
  : M JsValue :=
  try_catch
    (research <- runResearch input ;;
     let completed := research ++ [("researchStatus", JStr COMPLETED)] in
     researchWithUserId <-
       lift (Zod.parse SaveResearchSchema
               (JObj (completed ++ [("userId", JStr (userId input))]))) ;;
     message <- saveResearch (JObj researchWithUserId) ;;
     ret (JObj [("message", JStr message)]))
    (fun _ => throw (ErrorObject Error "Failed to perform research")).

(** *** usecase/get-research.usecase.ts *)

(** [getResearchUsecase(input)] *)
Definition getResearchUsecase (input : GetResearchInput) : M JsValue :=
  try_catch
    (research <- getResearchById (researchId input) ;;
     match research with
     | None => throw (ErrorObject Error "Research not found")
     | Some found =>
         ret (JObj [("message", JStr "Research completed successfully");
                    ("data", found)])
     end)
    (fun _ => throw (ErrorObject Error "Failed to generate research")).

(** *** request-research.adapter.ts *)

(** [decrementUserCredits(input)]: always one credit. *)
Definition decrementUserCredits (input : UpdateUserCreditsCommand)
  : M unit :=
  let command :=
    {| c_userId := c_userId input; c_keyId := c_keyId input;
       operation := "decrement"; amount := 1 |} in
  await (CreditsUpdated command) (updateUserCredits command).

(** [createPendingResearch(input)] *)
Definition createPendingResearch (input : RequestResearchInput)
  : M JsValue :=
  decrementUserCredits
    {| c_userId := userId input; c_keyId := keyId input;
       operation := "decrement"; amount := 1 |} ;;;
  initialResearch <-
    lift (Zod.parse PendingResearchSchema
            (JObj [ ("researchId", JStr (id input));
                    ("userId", JStr (userId input));
                    ("title", JStr (pending_title (prompt input)));
                    ("content", JStr "");
                    ("citation_links", JArr []);
                    ("researchStatus", JStr PENDING) ])) ;;
  saveResearch (JObj initialResearch) ;;;
  ret (JObj initialResearch).

(** A use case as the adapter factory calls it. *)
Definition as_use_case {A} (m : M A) : Act W A := fun w => fst (m w).

(** [getResearchByIdAdapter]'s parameters; the formatter is
    [OrchestratorHttpResponses.OK]. *)
Definition getResearchByIdAdapter
  (OrchestratorHttpResponses_OK : JsValue -> Completion HttpResponse)
  : LambdaAdapter.LambdaAdapterParams :=
  LambdaAdapter.MkParams
    (fun input : GetResearchInput => Normal input)
    (fun input => as_use_case (getResearchUsecase input))
    getResearchByIdEventParser
    (Some researchByIdAdapterOptions)
    OrchestratorHttpResponses_OK
    None.
End WithWorld.
End Research.


(* ================================================================== *)
(** ** Concrete collaborators used in the worked examples               *)
(* ================================================================== *)

Module SagaScenario.
(** The world is the journal of what the external systems recorded. *)
Definition Journal : Type := list string.

(** A step that records [label] and whose rollback records its undo. *)
Definition ok_step (label : string) : SagaStep.t Journal :=
  SagaStep.Build
    (fun w => (Normal (JStr label), w ++ [label]))
    (fun w => (Normal tt, w ++ [String.append "undo " label])).

(** A step whose [execute] rejects with [new Error(msg)]. *)
Definition failing_step (msg : string) : SagaStep.t Journal :=
  SagaStep.Build
    (fun w => (Throw (ErrorObject Error msg), w))
    (fun w => (Normal tt, w ++ ["undo of a step that never ran"])).

(** A step that executes fine but whose rollback rejects. *)
Definition bad_rollback_step (label : string) : SagaStep.t Journal :=
  SagaStep.Build
    (fun w => (Normal (JStr label), w ++ [label]))
    (fun w => (Throw (ErrorObject Error "rollback failed"), w)).

(** A step against a system that refuses to create the same thing
    twice, like registering a user. *)
Definition once_only_step : SagaStep.t Journal :=
  SagaStep.Build
    (fun w =>
       if existsb (String.eqb "created") w
       then (Throw (ErrorObject Error "already exists"), w)
       else (Normal (JStr "created"), w ++ ["created"]))
    (fun w => (Normal tt, w ++ ["deleted"])).

Definition step2_error : Thrown := ErrorObject Error "step 2 failed".

(** Scenario C: three steps, the last one throws. *)
Definition three_steps : list (SagaStep.t Journal) :=
  [ok_step "register user"; bad_rollback_step "generate key";
   failing_step "step 2 failed"].
End SagaScenario.

Module RetryScenario.
Definition Journal : Type := list string.

Definition parse_error : Thrown :=
  ErrorObject SyntaxError "Unexpected token < in JSON at position 0".

(** An upstream call whose first answer does not parse and whose
    second answer does. *)
Definition flaky_fn : Act Journal JsValue :=
  fun w =>
    if existsb (String.eqb "attempt") w
    then (Normal (JStr "research"), w ++ ["attempt"])
    else (Throw parse_error, w ++ ["attempt"]).





(** An [onRetry] that leaves a mark in the journal when it runs. *)
Definition recording_onRetry : Thrown -> Act Journal unit :=
  fun _ w => (Normal tt, w ++ ["onRetry called"]).

(** The configuration [runResearch] is wrapped with. *)
Definition research_config : Retry.RetryConfig Journal :=
  Retry.Build 3 1000 recording_onRetry.
End RetryScenario.

Module LambdaScenario.
(** No state outside the adapter is needed to tell these runs apart. *)
Definition World : Type := unit.

(** The request bodies used below, as values. *)
Definition known_bodies : list JsValue :=
  [ JObj []; JNull;
    JObj [("prompt", JNull)];
    JObj [("prompt", JStr "")];
    JObj [("prompt", JStr "x")] ].

(** The JSON text of a body. *)
Definition text_of (v : JsValue) : string :=
  match Json.stringify v with Some s => s | None => "" end.

(** [JSON.parse] on the texts of [known_bodies]; any other text is
    taken to be malformed. *)
Definition JSON_parse (text : string) : Completion JsValue :=
  match find (fun v => String.eqb (text_of v) text) known_bodies with
  | Some v => Normal v
  | None => Throw (ErrorObject SyntaxError
                     "Unexpected token in JSON at position 0")
  end.

(** Prototype lookups on arrays and primitives are not exercised. *)
Definition host_get (_ : JsValue) (_ : string) : JsValue := JUndefined.

(** An identity provider that accepts no token. *)
Definition decodeToken (_ : string) : Act World JsValue :=
  fun w => (Throw (ErrorObject Error "jwt malformed"), w).

(** A custom [getUserInfo] that recognises principal [u1]. *)
Definition knownUser (_ : ApiGateway.Event) : Act World ValidUser :=
  fun w => (Normal {| userId := "u1"; keyId := Some "k1" |}, w).

(** The use case echoes its input; the formatter answers 202. *)
Definition echo (input : JsValue) : Act World JsValue :=
  fun w => (Normal input, w).

Definition accepted (result : JsValue) : Completion HttpResponse :=
  Normal (createHttpResponse ACCEPTED
            (Http.MkParams (Http.MkBody "accepted" (Some result)) [])).

Definition userIdOnly (_ : ApiGateway.Event) (user : ValidUser)
  : Completion JsValue :=
  Normal (JObj [("userId", JStr (userId user))]).

(** An adapter in the shape of [getAllUserResearchAdapter], with the
    given options and [getUserInfo]. *)
Definition adapter (opts : option LambdaAdapter.LambdaAdapterOptions)
  (getUser : option (ApiGateway.Event -> Act World ValidUser))
  : LambdaAdapter.LambdaAdapterParams :=
  LambdaAdapter.MkParams (fun input => Normal input) echo userIdOnly
    opts accepted getUser.

Definition run (opts : option LambdaAdapter.LambdaAdapterOptions)
  (getUser : option (ApiGateway.Event -> Act World ValidUser))
  (event : ApiGateway.Event) :=
  LambdaAdapter.createLambdaAdapter JSON_parse host_get decodeToken
    (adapter opts getUser) event tt.

(** A request with no [authorization] header and no body. *)
Definition anonymous_get : ApiGateway.Event :=
  ApiGateway.MkEvent [("content-type", "application/json")] None [].

(** A POST with no body. *)
Definition post_without_body : ApiGateway.Event :=
  ApiGateway.MkEvent [("authorization", "Bearer t")] None [].

(** A POST whose body is the empty object. *)
Definition post_empty_object : ApiGateway.Event :=
  ApiGateway.MkEvent [("authorization", "Bearer t")] (Some "{}") [].

(** POSTs whose [prompt] is [null] and the empty string. *)
Definition post_null_prompt : ApiGateway.Event :=
  ApiGateway.MkEvent [("authorization", "Bearer t")]
    (Some (text_of (JObj [("prompt", JNull)]))) [].

Definition post_blank_prompt : ApiGateway.Event :=
  ApiGateway.MkEvent [("authorization", "Bearer t")]
    (Some (text_of (JObj [("prompt", JStr "")]))) [].

(** Options that name a required field but switch the body
    requirement off. *)
Definition fields_without_body : LambdaAdapter.LambdaAdapterOptions :=
  LambdaAdapter.MkOptions (Some true) (Some false) (Some ["prompt"]).

(** The options of [requestResearchAdapter]. *)
Definition researchAdapterOptions : LambdaAdapter.LambdaAdapterOptions :=
  LambdaAdapter.MkOptions (Some true) (Some true) (Some ["prompt"]).
End LambdaScenario.

Module SqsScenario.
(** The world is the journal of what the use case and the queue
    recorded. *)
Definition Journal : Type := list string.

(** A queue that accepts every delete and notes the receipt handle. *)
Definition sqsSend (command : DeleteMessageCommand) : Act Journal unit :=
  fun w => (Normal tt, w ++ [String.append "deleted " (ReceiptHandle command)]).


(** A custom [messageExtractor]: the body is the message. *)
Definition extract (record : SQSRecord) : Completion JsValue :=
  Normal (JStr (Sqs.body record)).

(** A schema that wants a non-empty string. *)
Definition schema (rawMessage : JsValue) : Completion string :=
  match rawMessage with
  | JStr s =>
      if String.eqb s "" then Throw (ErrorObject ZodError "prompt: Required")
      else Normal s
  | _ => Throw (ErrorObject ZodError "prompt: Expected string")
  end.

(** A use case that notes its input and returns it. *)
Definition useCase (input : string) : Act Journal JsValue :=
  fun w => (Normal (JStr input), w ++ [String.append "handled " input]).


(** A valid message on a record that carries no [eventSourceARN]. *)
Definition record_without_arn : SQSRecord := MkRecord "m4" "h4" "delta" "".

Definition adapter (opts : option SqsAdapter.SqsAdapterOptions)
  : SqsAdapter.SqsAdapterParams :=
  SqsAdapter.MkParams schema useCase (Some extract) opts "RESEARCH".




Definition processRecord (opts : option SqsAdapter.SqsAdapterOptions)
  (record : SQSRecord) :=
  SqsAdapter.processRecord LambdaScenario.JSON_parse
    LambdaScenario.host_get sqsSend (adapter opts) record.

Definition run (opts : option SqsAdapter.SqsAdapterOptions)
  (order : list nat) (records : list SQSRecord) :=
  SqsAdapter.createSqsAdapter LambdaScenario.JSON_parse
    LambdaScenario.host_get sqsSend (adapter opts) order
    (Sqs.MkEvent records) [].
End SqsScenario.
(* ================================================================== *)
(** ** Further observations                                             *)
(* ================================================================== *)

Module RetryMore.
Section WithWorld.
Context {W T : Type}.

(** The world after [n] calls of [fn] in a row. *)
Fixpoint world_after_calls (fn : Act W T) (w : W) (n : nat) : W :=
  match n with
  | 0 => w
  | S n' => world_after_calls fn (snd (fn w)) n'
  end.
End WithWorld.
End RetryMore.
Import RetryMore.

Module SqsMore.
(** No character of [s] is [c]. *)
Fixpoint free_of (c : ascii) (s : string) : bool :=
  match s with
  | EmptyString => true
  | String c' rest => negb (Ascii.eqb c' c) && free_of c rest
  end.

(** The URL built from the region, account and queue name. *)
Definition queue_url_of (region accountId queueName : string) : string :=
  String.append "https://sqs."
    (String.append region
       (String.append ".amazonaws.com/"
          (String.append accountId (String.append "/" queueName)))).
End SqsMore.
Import SqsMore.

Module RepositoryObs.
(** The event of sending the [BatchGetCommand] for one batch. *)
Definition batch_command (this : BaseRepository.t) (batch : list string)
  : BaseRepository.Event :=
  BaseRepository.Sent
    (DynamoDB.BatchGetCommand (BaseRepository.tableName this)
       (map (fun id => [(BaseRepository.primaryKey this, JStr id)])
          batch)).
End RepositoryObs.
Import RepositoryObs.

Module ResearchObs.
(** Attempt numbers at which the research pipeline was called. *)
Definition attempts (tr : list Research.Event) : list nat :=
  flat_map (fun ev =>
    match ev with
    | Research.Retried (Retry.Called attempt) => [attempt]
    | _ => []
    end) tr.

(** Commands sent to the database, in order. *)
Definition sent (tr : list Research.Event) : list DynamoDB.Command :=
  flat_map (fun ev =>
    match ev with Research.Sent command => [command] | _ => [] end) tr.

(** The object [runResearchUsecase] hands to [SaveResearchSchema]. *)
Definition completed_with_user (research : list (string * JsValue))
  (userId : string) : JsValue :=
  JObj ((research ++ [("researchStatus", JStr Research.COMPLETED)])
        ++ [("userId", JStr userId)]).
End ResearchObs.
Import ResearchObs.

Module RegistrationScenario.
(** The world is the journal of the calls the user adapter received. *)
Definition Journal : Type := list string.

(** A call named [name] with arguments [args]: it is noted, and it
    rejects when [name] is the call chosen to fail. *)
Definition attempt {A} (failing name args : string) (result : A)
  : Act Journal A :=
  fun w =>
    let entry := String.append name (String.append " " args) in
    if String.eqb failing name
    then (Throw (ErrorObject Error (String.append "Failed: " name)),
          w ++ [String.append entry " (failed)"])
    else (Normal result, w ++ [entry]).

(** A user adapter whose call [failing] rejects; every generated key
    is [key-1]. *)
Definition adapter (failing : string) : UserAdapter.IUserAdapter Journal :=
  UserAdapter.MkAdapter Journal
    (fun user =>
       attempt failing "registerUser" (UserAdapter.userId user) tt)
    (fun userId => attempt failing "generateApiKeys" userId "key-1")
    (fun userId key =>
       attempt failing "deleteApiKeys"
         (String.append userId (String.append " " key)) tt)
    (fun userId claims =>
       attempt failing "updateUserClaims"
         (String.append userId
            (String.append " "
               (LambdaScenario.text_of (member claims "userStatus")))) tt)
    (fun userId key =>
       attempt failing "removeApiKeyFromDatabase"
         (String.append userId (String.append " " key)) tt)
    (fun userId key =>
       attempt failing "saveApiKeyToDatabase"
         (String.append userId (String.append " " key)) tt).

Definition now (_ : Journal) : string := "2025-01-01T00:00:00.000Z".

Definition alice : UserAdapter.NewUser := UserAdapter.MkNewUser "alice".

Definition fresh : UserRegistrationSagaBuilder.Store Journal :=
  UserRegistrationSagaBuilder.MkStore UserRegistrationSagaBuilder.new [].

Definition register (failing : string) :=
  RegisterUser.registerUserUseCase (adapter failing) now alice fresh.
End RegistrationScenario.

Module ResearchScenario.
(** The world is the list of items put in the research table. *)
Definition Table : Type := list JsValue.

(** A document client over that table: a put appends, a get finds
    the last item put under the [researchId]. *)
Definition send (command : DynamoDB.Command) : Act Table DynamoDB.Output :=
  fun table =>
    match command with
    | DynamoDB.PutCommand _ item =>
        (Normal (DynamoDB.MkOutput None None None), table ++ [item])
    | DynamoDB.GetCommand _ key =>
        (Normal
           (DynamoDB.MkOutput
              (find (fun item =>
                       match item with
                       | JObj members =>
                           match member members "researchId",
                                 member key "researchId" with
                           | JStr a, JStr b => String.eqb a b
                           | _, _ => false
                           end
                       | _ => false
                       end) (rev table))
              None None),
         table)
    | _ => (Normal (DynamoDB.MkOutput None None None), table)
    end.

(** What the OpenAI pipeline returns for a request. *)
Definition research : list (string * JsValue) :=
  [ ("researchId", JStr "r1"); ("title", JStr "T");
    ("content", JStr "C"); ("citation_links", JArr [JStr "https://a"]);
    ("researchStatus", JStr "pending") ].

Definition executeResearch (_ : Research.RequestResearchInput)
  : Act Table (list (string * JsValue)) :=
  fun table => (Normal research, table).

Definition request : Research.RequestResearchInput :=
  Research.MkRequest "why is the sky blue" "r1" "u1" "k1".

(** An identity provider that accepts every token as user [u1]. *)
Definition decodeToken (_ : string) : Act Table JsValue :=
  fun table => (Normal (JObj [("sub", JStr "u1")]), table).

Definition ok (result : JsValue) : Completion HttpResponse :=
  Normal (createHttpResponse OK
            (Http.MkParams (Http.MkBody "ok" (Some result)) [])).

(** A request for the research item [r9], which is not there. *)
Definition get_r9 : ApiGateway.Event :=
  ApiGateway.MkEvent [("authorization", "Bearer t")] None [("id", "r9")].
End ResearchScenario.


(* ================================================================== *)
(** * Properties                                                        *)
(* ================================================================== *)
Section SagaFacts.
Context {W : Type}.
Implicit Types (ss pre post : list (SagaStep.t W)) (w : W).

Lemma advance_nil (sg : Saga.t W) : advance sg [] = sg.
Proof.
  destruct sg; unfold advance; simpl.
  now rewrite app_nil_r, Nat.add_0_r.
Qed.

Lemma build_from ss : forall sg,
  fold_left (fun saga step => Saga.addStep step saga) ss sg
  = {| Saga.steps := Saga.steps sg ++ ss;
       Saga.results := Saga.results sg;
       Saga.completedSteps := Saga.completedSteps sg |}.
Proof.
  induction ss as [|s ss IH]; intros sg; simpl.
  - rewrite app_nil_r. now destruct sg.
  - rewrite IH. simpl. now rewrite <- app_assoc.
Qed.

Lemma build_fields ss :
  Saga.build ss
  = {| Saga.steps := ss; Saga.results := []; Saga.completedSteps := 0 |}.
Proof. unfold Saga.build. now rewrite build_from. Qed.

Lemma resolve_all_length ss : forall w rs w',
  resolve_all ss w = Some (rs, w') -> List.length rs = List.length ss.
Proof.
  induction ss as [|s ss IH]; simpl; intros w rs w' H.
  - now inversion H.
  - destruct (SagaStep.execute s w) as [[r|e] w1]; try discriminate.
    destruct (resolve_all ss w1) as [[rs1 w2]|] eqn:E; try discriminate.
    inversion H; subst. simpl. f_equal. eauto.
Qed.

(** The forward loop when every remaining step resolves. *)
Lemma execute_from_resolves todo : forall i sg w rs w',
  resolve_all todo w = Some (rs, w') ->
  Saga.execute_from i todo (Saga.MkHeap sg w)
  = (Normal tt, Saga.MkHeap (advance sg rs) w',
     map Saga.ExecuteCalled (seq i (List.length todo))).
Proof.
  induction todo as [|s todo IH]; simpl; intros i sg w rs w' H.
  - inversion H; subst. now rewrite advance_nil.
  - destruct (SagaStep.execute s w) as [[r|e] w1] eqn:Es; try discriminate.
    destruct (resolve_all todo w1) as [[rs1 w2]|] eqn:E; try discriminate.
    inversion H; subst; clear H.
    unfold bind at 1. unfold Saga.await at 1. simpl. rewrite Es.
    unfold bind at 1. unfold Saga.push_result, modify at 1. simpl.
    unfold bind at 1. unfold Saga.incr_completedSteps, modify at 1. simpl.
    erewrite IH by eassumption. simpl.
    unfold advance; simpl. now rewrite <- app_assoc, Nat.add_succ_r.
Qed.

(** The forward loop when [pre] resolves and the next step rejects. *)
Lemma execute_from_rejects pre : forall i sg w sk post rs w1 e w2,
  resolve_all pre w = Some (rs, w1) ->
  SagaStep.execute sk w1 = (Throw e, w2) ->
  Saga.execute_from i (pre ++ sk :: post) (Saga.MkHeap sg w)
  = (Throw e, Saga.MkHeap (advance sg rs) w2,
     map Saga.ExecuteCalled (seq i (S (List.length pre)))).
Proof.
  induction pre as [|s pre IH]; simpl; intros i sg w sk post rs w1 e w2 H Hk.
  - inversion H; subst. unfold bind, Saga.await. simpl. rewrite Hk.
    now rewrite advance_nil.
  - destruct (SagaStep.execute s w) as [[r|e0] w0] eqn:Es; try discriminate.
    destruct (resolve_all pre w0) as [[rs1 w3]|] eqn:E; try discriminate.
    inversion H; subst; clear H.
    unfold bind at 1. unfold Saga.await at 1. simpl. rewrite Es.
    unfold bind at 1. unfold Saga.push_result, modify at 1. simpl.
    unfold bind at 1. unfold Saga.incr_completedSteps, modify at 1. simpl.
    erewrite IH by eassumption. simpl.
    unfold advance; simpl. now rewrite <- app_assoc, Nat.add_succ_r.
Qed.

Lemma descending_S n : descending (S n) = n :: descending n.
Proof. unfold descending. now rewrite seq_S, rev_app_distr. Qed.

Lemma executed_app (t1 t2 : list Saga.Event) :
  executed (t1 ++ t2) = executed t1 ++ executed t2.
Proof. apply flat_map_app. Qed.

Lemma compensated_app (t1 t2 : list Saga.Event) :
  compensated (t1 ++ t2) = compensated t1 ++ compensated t2.
Proof. apply flat_map_app. Qed.

Lemma executed_calls l : executed (map Saga.ExecuteCalled l) = l.
Proof. induction l; simpl; congruence. Qed.

Lemma compensated_calls l : compensated (map Saga.ExecuteCalled l) = [].
Proof. induction l; simpl; congruence. Qed.

(** One turn of the compensation loop at index [i] of an existing step:
    the call is made, a rejection is caught and reported, and the saga
    object is left as it was. *)
Lemma compensate_turn i (sg : Saga.t W) w step :
  nth_error (Saga.steps sg) i = Some step ->
  try_catch (Saga.call_compensate i)
    (fun compensationError =>
       emit (Saga.CompensationFailed i compensationError))
    (Saga.MkHeap sg w)
  = match SagaStep.compensate step w with
    | (Normal _, w') =>
        (Normal tt, Saga.MkHeap sg w', [Saga.CompensateCalled i])
    | (Throw err, w') =>
        (Normal tt, Saga.MkHeap sg w',
         [Saga.CompensateCalled i; Saga.CompensationFailed i err])
    end.
Proof.
  intros Hnth. unfold try_catch, Saga.call_compensate, bind, get. simpl.
  rewrite Hnth. unfold Saga.await. simpl.
  destruct (SagaStep.compensate step w) as [[[]|err] w']; reflexivity.
Qed.

(** One turn of the loop at an index that has no step: reading
    [compensate] off [undefined] throws, which is caught and reported;
    nothing is called. *)
Lemma compensate_turn_missing i (sg : Saga.t W) w :
  nth_error (Saga.steps sg) i = None ->
  try_catch (Saga.call_compensate i)
    (fun compensationError =>
       emit (Saga.CompensationFailed i compensationError))
    (Saga.MkHeap sg w)
  = (Normal tt, Saga.MkHeap sg w,
     [Saga.CompensationFailed i
        (ErrorObject TypeError
           "Cannot read properties of undefined (reading 'compensate')")]).
Proof.
  intros Hnth. unfold try_catch, Saga.call_compensate, bind, get. simpl.
  rewrite Hnth. reflexivity.
Qed.

Lemma descending_from_S lo c :
  descending_from lo (S c) = (lo + c) :: descending_from lo c.
Proof. unfold descending_from. now rewrite seq_S, rev_app_distr. Qed.

Lemma with_step_all ss k :
  k <= List.length ss -> with_step ss (descending k) = descending k.
Proof.
  intros Hk. unfold with_step. apply forallb_filter_id, forallb_forall.
  intros i Hi. unfold descending in Hi. apply in_rev, in_seq in Hi.
  apply Nat.ltb_lt. lia.
Qed.

(** The compensation loop for [i = n-1 .. 0]: it resolves, leaves the
    saga object as it was and the world as the rollbacks left it, and
    calls [compensate] at every index that has a step. *)
Lemma compensate_from_world n : forall (sg : Saga.t W) w,
  exists tr,
    Saga.compensate_from n (Saga.MkHeap sg w)
    = (Normal tt,
       Saga.MkHeap sg (rollback (Saga.steps sg) 0 n w), tr)
    /\ compensated tr = with_step (Saga.steps sg) (descending n)
    /\ executed tr = [].
Proof.
  induction n as [|i IH]; intros sg w.
  - exists []. repeat split.
  - cbn [Saga.compensate_from rollback Nat.add]. unfold bind at 1.
    rewrite descending_S. unfold with_step at 1. cbn [filter].
    unfold compensate_at.
    destruct (nth_error (Saga.steps sg) i) as [step|] eqn:Hnth.
    + assert ((i <? List.length (Saga.steps sg))%nat = true) as ->.
      { apply Nat.ltb_lt, nth_error_Some. congruence. }
      rewrite (compensate_turn i sg w step Hnth).
      destruct (IH sg (snd (SagaStep.compensate step w)))
        as (tr & Hrun & Hc & He).
      destruct (SagaStep.compensate step w) as [[[]|err] w1];
        cbn [snd] in *; rewrite Hrun; eexists;
        (split; [reflexivity|]); simpl; rewrite Hc, He; auto.
    + assert ((i <? List.length (Saga.steps sg))%nat = false) as ->.
      { apply Nat.ltb_ge, nth_error_None. exact Hnth. }
      rewrite (compensate_turn_missing i sg w Hnth).
      destruct (IH sg w) as (tr & Hrun & Hc & He).
      rewrite Hrun. eexists. split; [reflexivity|].
      simpl. rewrite Hc, He. auto.
Qed.

(** The compensation loop around the turn of step [j]: the turns
    before it leave the world [wj] in which step [j]'s [compensate]
    runs; whether that resolves or rejects, the loop goes on with the
    steps [j-1 .. 0] from the world it left. *)
Lemma compensate_from_split c : forall j (sg : Saga.t W) w step,
  nth_error (Saga.steps sg) j = Some step ->
  let wj := rollback (Saga.steps sg) (S j) c w in
  exists t1 t2,
    Saga.compensate_from (S j + c) (Saga.MkHeap sg w)
    = (Normal tt,
       Saga.MkHeap sg
         (rollback (Saga.steps sg) 0 j
            (snd (SagaStep.compensate step wj))),
       t1 ++ Saga.CompensateCalled j
          :: match fst (SagaStep.compensate step wj) with
             | Normal _ => t2
             | Throw err => Saga.CompensationFailed j err :: t2
             end)
    /\ compensated t1
       = with_step (Saga.steps sg) (descending_from (S j) c)
    /\ compensated t2 = with_step (Saga.steps sg) (descending j)
    /\ executed t1 = [] /\ executed t2 = [].
Proof.
  induction c as [|c IH]; intros j sg w step Hnth wj; subst wj.
  - rewrite Nat.add_0_r. cbn [Saga.compensate_from rollback].
    unfold bind at 1. rewrite (compensate_turn j sg w step Hnth).
    destruct (compensate_from_world j sg
                (snd (SagaStep.compensate step w)))
      as (tr & Hrun & Hc & He).
    exists [], tr.
    destruct (SagaStep.compensate step w) as [[[]|err] w1];
      cbn [fst snd] in *; rewrite Hrun; repeat split; auto.
  - rewrite Nat.add_succ_r. cbn [Saga.compensate_from rollback].
    unfold bind at 1. rewrite descending_from_S.
    unfold with_step at 1. cbn [filter]. unfold compensate_at.
    destruct (nth_error (Saga.steps sg) (S j + c)) as [si|] eqn:Hi.
    + assert ((S j + c <? List.length (Saga.steps sg))%nat = true) as ->.
      { apply Nat.ltb_lt, nth_error_Some. congruence. }
      rewrite (compensate_turn (S j + c) sg w si Hi).
      destruct (IH j sg (snd (SagaStep.compensate si w)) step Hnth)
        as (t1 & t2 & Hrun & Hc1 & Hc2 & He1 & He2).
      destruct (SagaStep.compensate si w) as [[[]|err] w1];
        cbn [snd] in *; rewrite Hrun.
      * exists (Saga.CompensateCalled (S j + c) :: t1), t2.
        split; [reflexivity|]. simpl. rewrite Hc1, He1. auto.
      * exists (Saga.CompensateCalled (S j + c)
                :: Saga.CompensationFailed (S j + c) err :: t1), t2.
        split; [reflexivity|]. simpl. rewrite Hc1, He1. auto.
    + assert ((S j + c <? List.length (Saga.steps sg))%nat = false)
        as ->.
      { apply Nat.ltb_ge, nth_error_None. exact Hi. }
      rewrite (compensate_turn_missing (S j + c) sg w Hi).
      destruct (IH j sg w step Hnth)
        as (t1 & t2 & Hrun & Hc1 & Hc2 & He1 & He2).
      rewrite Hrun. eexists (_ :: t1), t2.
      split; [reflexivity|]. simpl. rewrite Hc1, He1. auto.
Qed.

(** Rolling back the first steps of a list by index is undoing them,
    the last one first. *)
Lemma rollback_undo pre : forall rest w,
  rollback (pre ++ rest) 0 (List.length pre) w = undo pre w.
Proof.
  induction pre as [|x l IH] using rev_ind; intros rest w.
  - reflexivity.
  - rewrite length_app, Nat.add_1_r. cbn [rollback Nat.add].
    unfold undo. rewrite rev_app_distr. cbn [rev app fold_left].
    unfold compensate_at. rewrite <- app_assoc.
    rewrite nth_error_app2, Nat.sub_diag by lia. cbn [app nth_error].
    apply IH.
Qed.

Lemma forward_resolves ss : forall w rs w',
  resolve_all ss w = Some (rs, w') -> forward ss w = w'.
Proof.
  induction ss as [|s ss IH]; simpl; intros w rs w' H.
  - now inversion H.
  - destruct (SagaStep.execute s w) as [[r|e] w1]; try discriminate.
    destruct (resolve_all ss w1) as [[rs1 w2]|] eqn:E; try discriminate.
    inversion H; subst. eauto.
Qed.

Lemma forward_rejects pre : forall sk post w rs w1 e w2,
  resolve_all pre w = Some (rs, w1) ->
  SagaStep.execute sk w1 = (Throw e, w2) ->
  forward (pre ++ sk :: post) w = w2.
Proof.
  induction pre as [|s pre IH]; simpl; intros sk post w rs w1 e w2 H Hk.
  - inversion H; subst. now rewrite Hk.
  - destruct (SagaStep.execute s w) as [[r|e0] w0]; try discriminate.
    destruct (resolve_all pre w0) as [[rs1 w3]|] eqn:E; try discriminate.
    inversion H; subst. eauto.
Qed.

Lemma compensate_from_normal n : forall (h : Saga.Heap W),
  outcome (Saga.compensate_from n h) = Normal tt.
Proof.
  induction n as [|i IH]; intros h; [reflexivity|].
  cbn [Saga.compensate_from]. unfold bind at 1, try_catch.
  destruct (Saga.call_compensate i h) as [[[[]|e] h1] t1].
  - specialize (IH h1). unfold outcome in *.
    destruct (Saga.compensate_from i h1) as [[c h2] t2]. exact IH.
  - unfold emit. specialize (IH h1). unfold outcome in *.
    destruct (Saga.compensate_from i h1) as [[c h2] t2]. exact IH.
Qed.

(** Compensation never touches the saga object itself. *)
Lemma compensate_from_this n : forall (h : Saga.Heap W),
  Saga.this (final (Saga.compensate_from n h)) = Saga.this h.
Proof.
  induction n as [|i IH]; intros h; [reflexivity|].
  cbn [Saga.compensate_from]. unfold bind at 1, try_catch.
  unfold Saga.call_compensate, bind, get, Saga.await, throw, emit.
  simpl.
  destruct (nth_error (Saga.steps (Saga.this h)) i) as [st|]; simpl.
  - destruct (SagaStep.compensate st (Saga.world h)) as [[[]|err] w3];
      simpl;
      match goal with
      | |- context [Saga.compensate_from i ?x] =>
          specialize (IH x); unfold final in *;
          destruct (Saga.compensate_from i x) as [[c1 h1] t1];
          simpl in *; exact IH
      end.
  - specialize (IH h). unfold final in *.
    destruct (Saga.compensate_from i h) as [[c1 h1] t1].
    simpl in *; exact IH.
Qed.

(** [execute()] when every step resolves. *)
Lemma execute_when_resolves (sg : Saga.t W) w rs w' :
  resolve_all (Saga.steps sg) w = Some (rs, w') ->
  Saga.execute (Saga.MkHeap sg w)
  = (Normal (Saga.results sg ++ rs), Saga.MkHeap (advance sg rs) w',
     map Saga.ExecuteCalled (seq 0 (List.length (Saga.steps sg)))).
Proof.
  intros H. unfold Saga.execute, try_catch, bind at 1, get. simpl.
  unfold bind at 1.
  erewrite execute_from_resolves by exact H. simpl.
  now rewrite app_nil_r.
Qed.

(** [execute()] when the steps of [pre] resolve and the next rejects. *)
Lemma execute_when_rejects (sg : Saga.t W) pre sk post w rs w1 e w2 :
  Saga.steps sg = pre ++ sk :: post ->
  resolve_all pre w = Some (rs, w1) ->
  SagaStep.execute sk w1 = (Throw e, w2) ->
  exists w' tr,
    Saga.execute (Saga.MkHeap sg w)
    = (Throw e, Saga.MkHeap (advance sg rs) w',
       map Saga.ExecuteCalled (seq 0 (S (List.length pre))) ++ tr)
    /\ Saga.compensate (Saga.MkHeap (advance sg rs) w2)
       = (Normal tt, Saga.MkHeap (advance sg rs) w', tr).
Proof.
  intros Hs H Hk. unfold Saga.execute, try_catch, bind at 1, get. simpl.
  unfold bind at 1. rewrite Hs.
  erewrite execute_from_rejects by eassumption.
  unfold Saga.compensate at 1.
  unfold bind at 1, bind at 1, get. simpl.
  pose proof (compensate_from_normal
    (Saga.completedSteps sg + List.length rs)
    (Saga.MkHeap (advance sg rs) w2)) as Hn.
  unfold outcome in Hn.
  destruct (Saga.compensate_from _ _) as [[c h'] tr] eqn:Hc.
  simpl in Hn; subst c. unfold throw. simpl.
  unfold Saga.compensate, bind, get. simpl. rewrite Hc. simpl.
  destruct h' as [sg' w'].
  pose proof (compensate_from_this
    (Saga.completedSteps sg + List.length rs)
    (Saga.MkHeap (advance sg rs) w2)) as Hthis.
  rewrite Hc in Hthis. simpl in Hthis. subst sg'.
  exists w', tr. now rewrite app_nil_r.
Qed.

(** The same, with the rollback written out: [execute()] rejects
    with the step's error after the compensation loop has gone over
    the steps counted as completed. *)
Lemma execute_rejecting_run (sg : Saga.t W) pre sk post w rs w1 e w2 :
  Saga.steps sg = pre ++ sk :: post ->
  resolve_all pre w = Some (rs, w1) ->
  SagaStep.execute sk w1 = (Throw e, w2) ->
  let back :=
    Saga.compensate_from (Saga.completedSteps sg + List.length pre)
      (Saga.MkHeap (advance sg rs) w2) in
  Saga.execute (Saga.MkHeap sg w)
  = (Throw e, final back,
     map Saga.ExecuteCalled (seq 0 (S (List.length pre))) ++ trace back).
Proof.
  intros Hs H Hk back.
  destruct (execute_when_rejects sg pre sk post w rs w1 e w2 Hs H Hk)
    as (w' & tr & Hrun & Hcomp).
  rewrite Hrun. subst back.
  unfold Saga.compensate, bind, get in Hcomp. cbn [fst snd] in Hcomp.
  unfold advance at 1 in Hcomp.
  cbn [Saga.this Saga.completedSteps] in Hcomp.
  rewrite (resolve_all_length _ _ _ _ H) in Hcomp.
  unfold final, trace.
  destruct (Saga.compensate_from _ _) as [[c h] t].
  destruct c; simpl in Hcomp; [|discriminate].
  injection Hcomp as _ -> ->. reflexivity.
Qed.

(** Either the steps all resolve or the forward loop rejects. *)
Lemma execute_from_dichotomy todo : forall i (h : Saga.Heap W),
  (exists rs w', resolve_all todo (Saga.world h) = Some (rs, w'))
  \/ (exists e, outcome (Saga.execute_from i todo h) = Throw e).
Proof.
  induction todo as [|s todo IH]; intros i h; simpl.
  - left; eauto.
  - unfold bind at 1. unfold Saga.await at 1.
    destruct (SagaStep.execute s (Saga.world h)) as [[r|e] w1] eqn:Es;
      [|right; exists e; reflexivity].
    unfold bind at 1. unfold Saga.push_result, modify at 1. simpl.
    unfold bind at 1. unfold Saga.incr_completedSteps, modify at 1. simpl.
    match goal with
    | |- context [Saga.execute_from (S i) todo ?x] =>
        destruct (IH (S i) x) as [(rs & w' & Hr)|(e & He)]
    end.
    + simpl in Hr. rewrite Hr. left; eauto.
    + right. exists e. unfold outcome in *.
      destruct (Saga.execute_from _ _ _) as [[c h2] t2].
      simpl in *. exact He.
Qed.
End SagaFacts.

Section SagaClaims.
Context {W : Type}.

Lemma split_after_prefix {A} (l1 : list A) : forall l2 t1 x t2,
  l1 ++ l2 = t1 ++ x :: t2 -> ~ In x l1 ->
  exists t1', l2 = t1' ++ x :: t2.
Proof.
  induction l1 as [|a l1 IH]; simpl; intros l2 t1 x t2 H Hx.
  - eauto.
  - destruct t1 as [|b t1]; simpl in H; injection H as <- H.
    + exfalso; apply Hx; now left.
    + apply IH in H; auto.
Qed.

(** C2, as amended. On any saga instance, when [execute()] finds
    the steps [0..k-1] resolving and step [k] rejecting with [e]:
    - [execute()] rejects with that same [e], having called [execute]
      on the steps [0..k] only;
    - [compensate] is then called, in descending order, at the
      indices below [completedSteps], which by now is what it was
      when [execute()] was called plus [k] (an index without a step is
      passed over), and the world is left as these rollbacks leave it,
      each run from the world of the one before, starting from the
      world step [k] left;
    - on an instance whose [completedSteps] was 0 these are exactly
      the steps [k-1, ..., 0], so never step [k] or a later one, and
      the world is the one left by undoing the steps [0..k-1], last
      one first;
    - on an instance that had completed steps before, [compensate]
      is also called on step [k] itself. *)
Theorem saga_failure_compensates_in_reverse :
  forall (sg : Saga.t W) pre sk post w rs w1 e w2,
    Saga.steps sg = pre ++ sk :: post ->
    resolve_all pre w = Some (rs, w1) ->
    SagaStep.execute sk w1 = (Throw e, w2) ->
    let k := List.length pre in
    let n := Saga.completedSteps sg + k in
    let run := Saga.execute (Saga.MkHeap sg w) in
    outcome run = Throw e
    /\ executed (trace run) = seq 0 (S k)
    /\ compensated (trace run)
       = with_step (Saga.steps sg) (descending n)
    /\ Saga.world (final run) = rollback (Saga.steps sg) 0 n w2
    /\ Saga.this (final run) = advance sg rs
    /\ (Saga.completedSteps sg = 0 ->
        compensated (trace run) = descending k
        /\ Saga.world (final run) = undo pre w2
        /\ forall i, In i (compensated (trace run)) -> i < k)
    /\ (0 < Saga.completedSteps sg -> In k (compensated (trace run))).
Proof.
  intros sg pre sk post w rs w1 e w2 Hs Hpre Hk k n run.
  subst run.
  rewrite (execute_rejecting_run sg pre sk post w rs w1 e w2 Hs Hpre Hk).
  fold k. fold n.
  destruct (compensate_from_world n (advance sg rs) w2)
    as (tr & Hrun & Hc & He).
  rewrite Hrun. unfold outcome, final, trace. cbn [fst snd Saga.world
    Saga.this]. cbn [advance Saga.steps] in Hc |- *.
  assert (compensated (map Saga.ExecuteCalled (seq 0 (S k)) ++ tr)
          = with_step (Saga.steps sg) (descending n)) as Hcomp.
  { now rewrite compensated_app, compensated_calls. }
  split; [reflexivity|]. split.
  { now rewrite executed_app, executed_calls, He, app_nil_r. }
  split; [exact Hcomp|]. split; [reflexivity|]. split; [reflexivity|].
  split.
  - intros Hfresh. rewrite Hcomp. subst n. rewrite Hfresh. simpl.
    rewrite with_step_all by (rewrite Hs, length_app; simpl; lia).
    split; [reflexivity|]. split.
    + rewrite Hs. apply rollback_undo.
    + intros i Hi. unfold descending in Hi.
      apply in_rev, in_seq in Hi. lia.
  - intros Hdone. rewrite Hcomp. unfold with_step, descending.
    apply filter_In. split.
    + apply -> in_rev. apply in_seq. lia.
    + apply Nat.ltb_lt. rewrite Hs, length_app. simpl. lia.
Qed.

(** C7. On any saga instance, when step [k] rejected with [e] and the
    [compensate] of a step [j] counted as completed rejects with
    [err] in the world the rollbacks before it left: the orchestrator
    reports that failure and goes on; [compensate] is still called on
    the steps [j-1, ..., 0], in that order, and the world is the one
    left by undoing these steps, last one first, from the world step
    [j]'s failed rollback left; and [execute()] rejects with step
    [k]'s error [e], not with [err]. *)
Theorem saga_compensation_failure_does_not_stop_rollback :
  forall (sg : Saga.t W) pre sk post w rs w1 e w2 j step err,
    Saga.steps sg = pre ++ sk :: post ->
    resolve_all pre w = Some (rs, w1) ->
    SagaStep.execute sk w1 = (Throw e, w2) ->
    let n := Saga.completedSteps sg + List.length pre in
    j < n ->
    nth_error (Saga.steps sg) j = Some step ->
    let wj := rollback (Saga.steps sg) (S j) (n - S j) w2 in
    fst (SagaStep.compensate step wj) = Throw err ->
    let run := Saga.execute (Saga.MkHeap sg w) in
    outcome run = Throw e
    /\ Saga.world (final run)
       = undo (firstn j (Saga.steps sg))
           (snd (SagaStep.compensate step wj))
    /\ exists t1 t2,
         trace run
         = t1 ++ Saga.CompensateCalled j
              :: Saga.CompensationFailed j err :: t2
         /\ compensated t1
            = with_step (Saga.steps sg) (descending_from (S j) (n - S j))
         /\ compensated t2 = descending j
         /\ executed t2 = [].
Proof.
  intros sg pre sk post w rs w1 e w2 j step err Hs Hpre Hk n Hj Hnth wj
    Herr run.
  subst run.
  rewrite (execute_rejecting_run sg pre sk post w rs w1 e w2 Hs Hpre Hk).
  fold n.
  assert (j < List.length (Saga.steps sg)) as Hlen.
  { apply nth_error_Some. congruence. }
  destruct (compensate_from_split (n - S j) j (advance sg rs) w2 step Hnth)
    as (t1 & t2 & Hrun & Hc1 & Hc2 & He1 & He2).
  replace (S j + (n - S j)) with n in Hrun by lia.
  cbn [advance Saga.steps] in Hrun, Hc1, Hc2. fold wj in Hrun.
  rewrite Herr in Hrun. rewrite Hrun.
  unfold outcome, final, trace. cbn [fst snd Saga.world].
  split; [reflexivity|]. split.
  - rewrite <- (firstn_skipn j (Saga.steps sg)) at 1.
    rewrite <- (rollback_undo (firstn j (Saga.steps sg))
                  (skipn j (Saga.steps sg))).
    now rewrite firstn_length_le by lia.
  - exists (map Saga.ExecuteCalled (seq 0 (S (List.length pre))) ++ t1),
      t2.
    split; [now rewrite <- app_assoc|].
    split; [now rewrite compensated_app, compensated_calls|].
    split; [|exact He2].
    rewrite Hc2. apply with_step_all. lia.
Qed.

(** C10, as amended. After [execute()] resolved once on a newly built
    saga of [n] steps, a second [execute()] on the same instance calls
    the steps' [execute] again from step 0 on and, when each of them
    resolves again, it resolves with an array of length [2n] whose first
    [n] elements are the first run's results: [results] is never
    reset. *)
Theorem saga_second_execute_appends_results :
  forall (ss : list (SagaStep.t W)) w r1 h1 tr1 rs2 w2,
    Saga.execute (Saga.start ss w) = (Normal r1, h1, tr1) ->
    resolve_all ss (Saga.world h1) = Some (rs2, w2) ->
    let n := List.length ss in
    let second := Saga.execute h1 in
    executed (trace second) = seq 0 n
    /\ outcome second = Normal (r1 ++ rs2)
    /\ List.length (r1 ++ rs2) = 2 * n
    /\ firstn n (r1 ++ rs2) = r1.
Proof.
  intros ss w r1 h1 tr1 rs2 w2 Hfirst Hagain n second.
  unfold Saga.start in Hfirst. rewrite build_fields in Hfirst.
  (* the first run resolved, so every step resolved *)
  assert (exists rs1, resolve_all ss w = Some (rs1, Saga.world h1)
                      /\ r1 = rs1
                      /\ Saga.this h1
                         = advance (Saga.Build ss [] 0) rs1)
    as (rs1 & Hres1 & -> & Hthis).
  { destruct (execute_from_dichotomy ss 0
                (Saga.MkHeap (Saga.Build ss [] 0) w))
      as [(rs & w' & Hr)|(e0 & He0)].
    - simpl in Hr.
      rewrite (execute_when_resolves (Saga.Build ss [] 0) w _ _ Hr) in Hfirst.
      simpl in Hfirst. injection Hfirst as <- <- _.
      exists rs. simpl. auto.
    - exfalso. unfold Saga.execute, try_catch, bind at 1, get in Hfirst.
      simpl in Hfirst. unfold bind at 1 in Hfirst.
      unfold outcome in He0.
      destruct (Saga.execute_from 0 ss _) as [[c h2] t2].
      simpl in He0. subst c.
      unfold bind at 1 in Hfirst.
      pose proof (compensate_from_normal
                    (Saga.completedSteps (Saga.this h2)) h2) as Hn.
      unfold Saga.compensate, bind at 1, get in Hfirst. simpl in Hfirst.
      unfold outcome in Hn.
      destruct (Saga.compensate_from _ h2) as [[c3 h3] t3].
      simpl in Hn. subst c3. simpl in Hfirst. discriminate. }
  destruct h1 as [sg1 wA]. simpl in *. subst sg1.
  unfold second.
  rewrite (execute_when_resolves (advance (Saga.Build ss [] 0) rs1) wA
             _ _ Hagain).
  unfold outcome, trace; simpl.
  pose proof (resolve_all_length _ _ _ _ Hres1) as L1.
  pose proof (resolve_all_length _ _ _ _ Hagain) as L2.
  repeat split.
  - now rewrite executed_calls.
  - rewrite length_app. unfold n. lia.
  - unfold n. rewrite <- L1. rewrite firstn_app, Nat.sub_diag, firstn_all.
    simpl. now rewrite app_nil_r.
Qed.
End SagaClaims.

(** Scenario C of the specification, with a rollback that fails on the
    way: the hypotheses of C2 hold for the newly built saga, and so does
    its conclusion; the journal shows the one rollback that went
    through. *)
Lemma saga_failure_compensates_in_reverse_witness :
  let pre := [SagaScenario.ok_step "register user";
              SagaScenario.bad_rollback_step "generate key"] in
  let sk := SagaScenario.failing_step "step 2 failed" in
  let run := Saga.execute (Saga.start (pre ++ [sk]) []) in
  resolve_all pre []
  = Some ([JStr "register user"; JStr "generate key"],
          ["register user"; "generate key"])
  /\ outcome run = Throw SagaScenario.step2_error
  /\ executed (trace run) = [0; 1; 2]
  /\ compensated (trace run) = [1; 0]
  /\ Saga.world (final run)
     = ["register user"; "generate key"; "undo register user"].
Proof.
  split; [reflexivity|].
  pose proof (saga_failure_compensates_in_reverse
    (Saga.build SagaScenario.three_steps)
    [SagaScenario.ok_step "register user";
     SagaScenario.bad_rollback_step "generate key"]
    (SagaScenario.failing_step "step 2 failed") [] []
    [JStr "register user"; JStr "generate key"]
    ["register user"; "generate key"]
    SagaScenario.step2_error ["register user"; "generate key"]
    eq_refl eq_refl eq_refl) as (H1 & H2 & _ & _ & _ & Hfresh & _).
  destruct (Hfresh eq_refl) as (H3 & H4 & _).
  repeat split; assumption.
Defined.

(** A saga that is executed a second time: its only step resolved the
    first time and rejects the second time, and the second [execute()]
    calls [compensate] on that very step, which undoes what the first
    run had done. *)
Lemma reexecuted_saga_compensates_the_failing_step :
  let first := Saga.execute (Saga.start [SagaScenario.once_only_step] []) in
  let second := Saga.execute (final first) in
  outcome first = Normal [JStr "created"]
  /\ outcome second = Throw (ErrorObject Error "already exists")
  /\ executed (trace second) = [0]
  /\ compensated (trace second) = [0]
  /\ Saga.world (final second) = ["created"; "deleted"].
Proof. repeat split. Qed.

(** Scenario C again: the rollback of step 1 rejects in the world the
    failing step left, the rollback of step 0 still runs, and
    [execute()] rejects with the error of step 2. *)
Lemma saga_compensation_failure_does_not_stop_rollback_witness :
  let pre := [SagaScenario.ok_step "register user";
              SagaScenario.bad_rollback_step "generate key"] in
  let sk := SagaScenario.failing_step "step 2 failed" in
  let run := Saga.execute (Saga.start (pre ++ [sk]) []) in
  fst (SagaStep.compensate (SagaScenario.bad_rollback_step "generate key")
         ["register user"; "generate key"])
  = Throw (ErrorObject Error "rollback failed")
  /\ outcome run = Throw SagaScenario.step2_error
  /\ Saga.world (final run)
     = ["register user"; "generate key"; "undo register user"]
  /\ In (Saga.CompensationFailed 1 (ErrorObject Error "rollback failed"))
       (trace run).
Proof.
  split; [reflexivity|].
  destruct (saga_compensation_failure_does_not_stop_rollback
    (Saga.build SagaScenario.three_steps)
    [SagaScenario.ok_step "register user";
     SagaScenario.bad_rollback_step "generate key"]
    (SagaScenario.failing_step "step 2 failed") [] []
    [JStr "register user"; JStr "generate key"]
    ["register user"; "generate key"]
    SagaScenario.step2_error ["register user"; "generate key"]
    1 (SagaScenario.bad_rollback_step "generate key")
    (ErrorObject Error "rollback failed")
    eq_refl eq_refl eq_refl (le_n 2) eq_refl eq_refl)
    as (H1 & H2 & t1 & t2 & Ht & _).
  split; [exact H1|]. split; [exact H2|].
  change (Saga.execute
            (Saga.start
               ([SagaScenario.ok_step "register user";
                 SagaScenario.bad_rollback_step "generate key"]
                ++ [SagaScenario.failing_step "step 2 failed"]) []))
    with (Saga.execute
            (Saga.MkHeap (Saga.build SagaScenario.three_steps) [])).
  rewrite Ht. apply in_or_app. right. right. left. reflexivity.
Defined.

(** A saga whose only step cannot be done twice: the first [execute()]
    resolves and the second one rejects, so it yields no array at all. *)
Lemma saga_second_execute_can_reject :
  let first := Saga.execute (Saga.start [SagaScenario.once_only_step] []) in
  outcome first = Normal [JStr "created"]
  /\ ~ (exists r2, outcome (Saga.execute (final first)) = Normal r2).
Proof.
  split; [reflexivity|].
  intros [r2 H]. vm_compute in H. discriminate.
Qed.

Lemma saga_second_execute_appends_results_witness :
  let ss := [SagaScenario.ok_step "a"; SagaScenario.ok_step "b"] in
  let first := Saga.execute (Saga.start ss []) in
  outcome first = Normal [JStr "a"; JStr "b"]
  /\ outcome (Saga.execute (final first))
     = Normal [JStr "a"; JStr "b"; JStr "a"; JStr "b"].
Proof.
  split; [reflexivity|].
  pose proof (saga_second_execute_appends_results
    [SagaScenario.ok_step "a"; SagaScenario.ok_step "b"] []
    [JStr "a"; JStr "b"]
    (final (Saga.execute
       (Saga.start [SagaScenario.ok_step "a"; SagaScenario.ok_step "b"] [])))
    (trace (Saga.execute
       (Saga.start [SagaScenario.ok_step "a"; SagaScenario.ok_step "b"] [])))
    [JStr "a"; JStr "b"] ["a"; "b"; "a"; "b"]
    eq_refl eq_refl) as (_ & H & _).
  exact H.
Defined.

Section RetryFacts.
Context {W T : Type}.
Implicit Types (fn : Act W T) (config : Retry.RetryConfig W) (w : W).

Lemma stop_at_pos (outs : list (Completion T)) : 1 <= stop_at outs.
Proof.
  destruct outs as [|[v|e] rest]; simpl; try lia.
  destruct (Retry.isRetryable e); lia.
Qed.


(** One turn of the loop, spelled out. *)
Lemma loop_step fn config r attempt w :
  Retry.loop fn config (S r) attempt w
  = match fn w with
    | (Normal v, w') => (Normal v, w', [Retry.Called attempt])
    | (Throw e, w') =>
        if Retry.isRetryable e then
          if (attempt <? Retry.retries config)%nat then
            match Retry.loop fn config r (S attempt) w' with
            | (c, w2, t) =>
                (c, w2,
                 [Retry.Called attempt; Retry.ConsoleWarn attempt;
                  Retry.Slept (Retry.delay config)] ++ t)
            end
          else
            (Throw e, w',
             [Retry.Called attempt; Retry.ConsoleWarn attempt;
              Retry.ConsoleError Retry.max_retries_message])
        else
          (Throw e, w',
           [Retry.Called attempt; Retry.ConsoleError "Unexpected error:"])
    end.
Proof.
  cbn [Retry.loop].
  unfold bind, Retry.iteration, try_catch, bind, Retry.await, ret, emit,
    throw.
  destruct (fn w) as [[v|e] w']; [reflexivity|].
  destruct (Retry.isRetryable e); [|reflexivity].
  destruct (attempt <? Retry.retries config)%nat; [|reflexivity].
  destruct (Retry.loop fn config r (S attempt) w') as [[c w2] t].
  reflexivity.
Qed.

(** The loop, turn by turn: which attempts are made, what is slept in
    between, and how it ends. *)
Lemma loop_spec fn config : forall remaining attempt w,
  attempt + remaining = S (Retry.retries config) ->
  let outs := outcomes fn w remaining in
  let n := Nat.min remaining (stop_at outs) in
  let run := Retry.loop fn config remaining attempt w in
  called (trace run) = seq attempt n
  /\ slept (trace run) = repeat (Retry.delay config) (n - 1)
  /\ outcome run = nth (n - 1) outs (Throw max_retries_error).
Proof.
  induction remaining as [|r IH]; intros attempt w Hsum outs n run.
  - simpl. auto.
  - subst run n outs. rewrite loop_step. cbn [outcomes].
    destruct (fn w) as [[v|e] w'] eqn:Hfn.
    + cbn [stop_at]. replace (Nat.min (S r) 1) with 1 by lia.
      simpl. auto.
    + cbn [stop_at]. destruct (Retry.isRetryable e) eqn:Hre.
      * destruct (attempt <? Retry.retries config)%nat eqn:Hlt.
        -- apply Nat.ltb_lt in Hlt.
           specialize (IH (S attempt) w' ltac:(lia)).
           cbv zeta in IH. destruct IH as (Hc & Hs & Ho).
           pose proof (stop_at_pos (outcomes fn w' r)) as Hpos.
           set (n' := Nat.min r (stop_at (outcomes fn w' r))) in *.
           assert (1 <= n') as Hn' by (unfold n'; lia).
           replace (Nat.min (S r) (S (stop_at (outcomes fn w' r))))
             with (S n') by (unfold n'; lia).
           unfold outcome, trace in *.
           destruct (Retry.loop fn config r (S attempt) w')
             as [[c h] t]. simpl in *.
           rewrite Hc, Hs, Ho.
           destruct n' as [|m]; [lia|]. simpl.
           rewrite Nat.sub_0_r. auto.
        -- apply Nat.ltb_ge in Hlt.
           assert (r = 0) as -> by lia.
           simpl. auto.
      * replace (Nat.min (S r) 1) with 1 by lia. simpl. auto.
Qed.

Lemma outcomes_length fn : forall n w,
  List.length (outcomes fn w n) = n.
Proof.
  induction n as [|n IH]; intros w; simpl; auto.
  destruct (fn w) as [c w']. simpl. now rewrite IH.
Qed.

Lemma loop_ignores_onRetry fn config cb : forall remaining attempt w,
  Retry.loop fn (with_onRetry cb config) remaining attempt w
  = Retry.loop fn config remaining attempt w.
Proof.
  induction remaining as [|r IH]; intros attempt w; [reflexivity|].
  cbn [Retry.loop]. unfold bind.
  change (Retry.iteration fn (with_onRetry cb config) attempt w)
    with (Retry.iteration fn config attempt w).
  destruct (Retry.iteration fn config attempt w) as [[[[v|]|e] w'] t] eqn:E;
    auto.
  now rewrite IH.
Qed.

(** The wrapper behaves the same whatever callback is configured: the
    callback is not part of what it runs. *)
Lemma withRetry_ignores_onRetry fn config cb w :
  Retry.withRetry fn (with_onRetry cb config) w
  = Retry.withRetry fn config w.
Proof. unfold Retry.withRetry. simpl. apply loop_ignores_onRetry. Qed.

(** The world the loop leaves is the one its calls of [fn] left. *)
Lemma loop_final fn config : forall remaining attempt w,
  attempt + remaining = S (Retry.retries config) ->
  final (Retry.loop fn config remaining attempt w)
  = world_after_calls fn w
      (Nat.min remaining (stop_at (outcomes fn w remaining))).
Proof.
  induction remaining as [|r IH]; intros attempt w Hsum.
  - reflexivity.
  - rewrite loop_step. cbn [outcomes].
    destruct (fn w) as [[v|e] w'] eqn:Hfn.
    + cbn [stop_at]. replace (Nat.min (S r) 1) with 1 by lia.
      simpl. now rewrite Hfn.
    + cbn [stop_at]. destruct (Retry.isRetryable e) eqn:Hre.
      * destruct (attempt <? Retry.retries config)%nat eqn:Hlt.
        -- apply Nat.ltb_lt in Hlt.
           specialize (IH (S attempt) w' ltac:(lia)).
           replace (Nat.min (S r) (S (stop_at (outcomes fn w' r))))
             with (S (Nat.min r (stop_at (outcomes fn w' r)))) by lia.
           cbn [world_after_calls]. rewrite Hfn. cbn [snd].
           rewrite <- IH. unfold final.
           now destruct (Retry.loop fn config r (S attempt) w')
             as [[c h] t].
        -- apply Nat.ltb_ge in Hlt.
           assert (r = 0) as -> by lia. simpl. now rewrite Hfn.
      * replace (Nat.min (S r) 1) with 1 by lia. simpl. now rewrite Hfn.
Qed.



End RetryFacts.


(** C5 on the code. The research configuration passes an [onRetry] that
    marks the journal. The first attempt fails with a SyntaxError, the
    wrapper warns, sleeps and tries again, and the second attempt
    succeeds; the journal holds the two attempts and no mark: [onRetry]
    was not invoked before the sleep, nor at any other point. *)
Theorem withRetry_never_invokes_onRetry :
  let run := Retry.withRetry RetryScenario.flaky_fn
               RetryScenario.research_config [] in
  trace run
  = [Retry.Called 1; Retry.ConsoleWarn 1; Retry.Slept 1000; Retry.Called 2]
  /\ outcome run = Normal (JStr "research")
  /\ final run = ["attempt"; "attempt"]
  /\ ~ In "onRetry called" (final run).
Proof.
  repeat split.
  vm_compute. intros H. repeat destruct H as [H|H]; try discriminate.
  exact H.
Qed.

Section LambdaFacts.
Context {W TInput TOutput : Type}.
Variable JSON_parse : string -> Completion JsValue.
Variable host_get : JsValue -> string -> JsValue.
Variable decodeToken : string -> Act W JsValue.

Implicit Types
  (params : @LambdaAdapter.LambdaAdapterParams W TInput TOutput)
  (event : ApiGateway.Event) (w : W).

(** Authentication makes no use-case call. *)
Lemma authenticate_trace opts getUser event w :
  useCase_calls
    (trace (@LambdaAdapter.authenticate W TInput opts getUser event w))
  = [].
Proof.
  unfold LambdaAdapter.authenticate.
  destruct (LambdaAdapter.not_false _); [|reflexivity].
  unfold bind, LambdaAdapter.await.
  destruct (getUser event w) as [[u|e] w']; [|reflexivity].
  destruct (negb _); reflexivity.
Qed.

(** A failed authentication is answered through [handleError], and
    nothing else runs. *)
Lemma handler_auth_rejected params event w e w' t :
  LambdaAdapter.authenticate (effective_options params)
    (effective_getUserInfo decodeToken params) event w = (Throw e, w', t) ->
  LambdaAdapter.createLambdaAdapter JSON_parse host_get decodeToken
    params event w = (Normal (handleError e), w', t).
Proof.
  intros H. unfold LambdaAdapter.createLambdaAdapter, try_catch.
  fold (effective_options params). fold (effective_getUserInfo decodeToken params).
  unfold bind at 1. rewrite H. unfold ret. now rewrite app_nil_r.
Qed.

(** A failed body validation after a passed authentication is answered
    through [handleError], and nothing else runs. *)
Lemma handler_body_rejected params event w u w' t e :
  LambdaAdapter.authenticate (effective_options params)
    (effective_getUserInfo decodeToken params) event w = (Normal u, w', t) ->
  LambdaAdapter.validateBody JSON_parse host_get
    (effective_options params) event = Throw e ->
  LambdaAdapter.createLambdaAdapter JSON_parse host_get decodeToken
    params event w = (Normal (handleError e), w', t).
Proof.
  intros H Hb. unfold LambdaAdapter.createLambdaAdapter, try_catch.
  fold (effective_options params). fold (effective_getUserInfo decodeToken params).
  unfold bind at 1. rewrite H. unfold bind at 1, lift at 1.
  rewrite Hb. unfold ret. simpl. now rewrite !app_nil_r.
Qed.

(** The default [getUserInfo] either finds a user in the header or
    rejects with [Error('Unauthorized')]. *)
Lemma getValidUser_outcome event w :
  match getValidUserFromAuthHeader decodeToken event w with
  | (Normal (Some user), w', _) =>
      getValidUser decodeToken event w = (Normal user, w', [])
  | (_, w', _) =>
      getValidUser decodeToken event w
      = (Throw (ErrorObject Error "Unauthorized"), w', [])
  end.
Proof.
  unfold getValidUser, try_catch, bind.
  destruct (getValidUserFromAuthHeader decodeToken event w)
    as [[[[user|]|e] w'] t] eqn:E; destruct t as [|[] ?]; reflexivity.
Qed.

(** The loop over the required fields on a value whose properties can
    be read. *)
Lemma checkRequiredFields_spec parsedBody :
  parsedBody <> JNull -> parsedBody <> JUndefined ->
  forall fields,
    match LambdaAdapter.checkRequiredFields host_get parsedBody fields with
    | Normal _ => all_defined host_get parsedBody fields
    | Throw e =>
        exists field,
          e = missing_field_error field /\ In field fields
          /\ exists v, get_prop host_get parsedBody field = Normal v
                       /\ is_undefined v = true
    end.
Proof.
  intros Hnull Hundef fields.
  induction fields as [|f rest IH]; simpl.
  - intros field [].
  - destruct (get_prop host_get parsedBody f) as [v|e] eqn:Hget.
    + destruct (is_undefined v) eqn:Hv.
      * exists f. repeat split; eauto.
      * destruct (LambdaAdapter.checkRequiredFields host_get parsedBody rest)
          as [[]|e].
        -- intros field [<-|Hin]; eauto.
        -- destruct IH as (field & He & Hin & Hv'). exists field. auto.
    + destruct parsedBody; simpl in Hget; congruence.
Qed.
End LambdaFacts.

Section LambdaClaims.
Context {W TInput TOutput : Type}.
Variable JSON_parse : string -> Completion JsValue.
Variable host_get : JsValue -> string -> JsValue.
Variable decodeToken : string -> Act W JsValue.
Implicit Types
  (params : @LambdaAdapter.LambdaAdapterParams W TInput TOutput)
  (event : ApiGateway.Event) (w : W).

(** With the default [getUserInfo] and authentication required, a
    request in whose header no valid user is found is answered 500
    "Internal Server Error"; the only call made is [getUserInfo]. *)
Lemma rejected_credential_is_answered_500 params event w :
  LambdaAdapter.getUserInfo params = None ->
  LambdaAdapter.not_false
    (LambdaAdapter.requireAuth (effective_options params)) = true ->
  (forall user,
     outcome (getValidUserFromAuthHeader decodeToken event w)
     <> Normal (Some user)) ->
  exists w',
    LambdaAdapter.createLambdaAdapter JSON_parse host_get decodeToken
      params event w
    = (Normal (HttpResponses_INTERNAL_SERVER_ERROR
                 (message_only "Internal Server Error")),
       w', [LambdaAdapter.GetUserInfoCalled]).
Proof.
  intros Hdefault Hauth Hnone.
  pose proof (getValidUser_outcome decodeToken event w) as Hgv.
  destruct (getValidUserFromAuthHeader decodeToken event w)
    as [[[[user|]|e] w'] t] eqn:E.
  - exfalso. apply (Hnone user). reflexivity.
  - exists w'.
    apply (handler_auth_rejected JSON_parse host_get decodeToken params
             event w (ErrorObject Error "Unauthorized")).
    unfold LambdaAdapter.authenticate. rewrite Hauth.
    unfold effective_getUserInfo. rewrite Hdefault.
    unfold bind, LambdaAdapter.await, LambdaAdapter.defaultGetUserInfo,
      quiet. rewrite Hgv. reflexivity.
  - exists w'.
    apply (handler_auth_rejected JSON_parse host_get decodeToken params
             event w (ErrorObject Error "Unauthorized")).
    unfold LambdaAdapter.authenticate. rewrite Hauth.
    unfold effective_getUserInfo. rewrite Hdefault.
    unfold bind, LambdaAdapter.await, LambdaAdapter.defaultGetUserInfo,
      quiet. rewrite Hgv. reflexivity.
Qed.

(** Once authentication has passed, a request without a body, on an
    adapter that requires one, is answered 400 with the fixed message
    "AppError"; the use case is not reached. *)
Lemma missing_body_is_answered_AppError params event w u w' t :
  LambdaAdapter.authenticate (effective_options params)
    (effective_getUserInfo decodeToken params) event w
  = (Normal u, w', t) ->
  LambdaAdapter.not_false
    (LambdaAdapter.requireBody (effective_options params)) = true ->
  (ApiGateway.body event = None \/ ApiGateway.body event = Some "") ->
  LambdaAdapter.createLambdaAdapter JSON_parse host_get decodeToken
    params event w
  = (Normal (HttpResponses_BAD_REQUEST (message_only "AppError")), w', t).
Proof.
  intros Hauth Hreq Hbody.
  apply (handler_body_rejected JSON_parse host_get decodeToken params
           event w u w' t
           (createError BAD_REQUEST "Missing request body") Hauth).
  unfold LambdaAdapter.validateBody. rewrite Hreq.
  destruct Hbody as [-> | ->]; reflexivity.
Qed.

Lemma is_undefined_true v : is_undefined v = true <-> v = JUndefined.
Proof. destruct v; simpl; split; congruence. Qed.

(** C9, as amended. On an adapter whose [requireBody] is not [false]
    and whose [requiredFields] is a non-empty list, for a request whose
    body is a non-empty text that [JSON.parse] turns into a value
    other than [null], the body validation throws the error
    "Missing required field: f" for some [f] if and only if some listed
    field reads as [undefined] on the parsed body, and passes
    otherwise; so it passes when every listed field is bound to [null]
    or to the empty string. *)
Theorem required_fields_check_fails_iff_undefined :
  forall opts event text parsedBody fields,
    LambdaAdapter.not_false (LambdaAdapter.requireBody opts) = true ->
    ApiGateway.body event = Some text ->
    truthy_string text = true ->
    JSON_parse text = Normal parsedBody ->
    parsedBody <> JNull -> parsedBody <> JUndefined ->
    LambdaAdapter.requiredFields opts = Some fields ->
    fields <> [] ->
    let check := LambdaAdapter.validateBody JSON_parse host_get opts event in
    ((exists field, check = Throw (missing_field_error field))
     <-> some_undefined host_get parsedBody fields)
    /\ (check = Normal tt <-> ~ some_undefined host_get parsedBody fields)
    /\ (forall members,
          parsedBody = JObj members ->
          (forall field, In field fields ->
             own_member members field = Some JNull
             \/ own_member members field = Some (JStr "")) ->
          check = Normal tt).
Proof.
  intros opts event text parsedBody fields Hreq Hbody Htext Hparse
    Hnull Hundef Hfields Hne check.
  assert (check
          = LambdaAdapter.checkRequiredFields host_get parsedBody fields)
    as Hcheck.
  { unfold check, LambdaAdapter.validateBody.
    rewrite Hreq, Hbody, Htext, Hparse, Hfields. simpl.
    destruct fields; [congruence|reflexivity]. }
  pose proof (checkRequiredFields_spec host_get parsedBody Hnull Hundef
                fields) as Hspec.
  rewrite <- Hcheck in Hspec.
  assert (check = Normal tt <-> ~ some_undefined host_get parsedBody fields)
    as Hpass.
  { destruct check as [[]|e].
    - split; [|reflexivity]. intros _ (f & Hin & Hget).
      destruct (Hspec f Hin) as (v & Hv & Hdef).
      rewrite Hget in Hv. injection Hv as <-. discriminate.
    - split; [discriminate|]. intros Hno. exfalso. apply Hno.
      destruct Hspec as (f & _ & Hin & v & Hget & Hv).
      apply is_undefined_true in Hv. subst v. exists f. auto. }
  split; [|split].
  - split.
    + intros (f & Hf). rewrite Hf in Hspec.
      destruct Hspec as (f' & _ & Hin & v & Hget & Hv).
      apply is_undefined_true in Hv. subst v. exists f'. auto.
    + intros Hsome. destruct check as [[]|e].
      * exfalso. apply Hpass; auto.
      * destruct Hspec as (f & -> & _). eauto.
  - exact Hpass.
  - intros members -> Hbound. apply Hpass.
    intros (f & Hin & Hget). simpl in Hget. unfold member in Hget.
    destruct (Hbound f Hin) as [Hm|Hm]; rewrite Hm in Hget; discriminate.
Qed.
End LambdaClaims.

(** The research adapter's options on three bodies: [{}] fails on
    [prompt], and a [prompt] that is [null] passes. *)
Lemma required_fields_check_fails_iff_undefined_witness :
  let check := LambdaAdapter.validateBody LambdaScenario.JSON_parse
                 LambdaScenario.host_get
                 LambdaScenario.researchAdapterOptions in
  LambdaScenario.JSON_parse
    (LambdaScenario.text_of (JObj [("prompt", JNull)]))
  = Normal (JObj [("prompt", JNull)])
  /\ check LambdaScenario.post_null_prompt = Normal tt
  /\ check LambdaScenario.post_blank_prompt = Normal tt
  /\ check LambdaScenario.post_empty_object
     = Throw (missing_field_error "prompt").
Proof.
  split; [reflexivity|].
  split; [|split].
  - refine (proj2 (proj2 (required_fields_check_fails_iff_undefined
      LambdaScenario.JSON_parse LambdaScenario.host_get
      LambdaScenario.researchAdapterOptions LambdaScenario.post_null_prompt
      (LambdaScenario.text_of (JObj [("prompt", JNull)]))
      (JObj [("prompt", JNull)]) ["prompt"]
      eq_refl eq_refl eq_refl eq_refl _ _ eq_refl _))
      [("prompt", JNull)] eq_refl _); try discriminate.
    intros field [<-|[]]. left; reflexivity.
  - refine (proj2 (proj2 (required_fields_check_fails_iff_undefined
      LambdaScenario.JSON_parse LambdaScenario.host_get
      LambdaScenario.researchAdapterOptions LambdaScenario.post_blank_prompt
      (LambdaScenario.text_of (JObj [("prompt", JStr "")]))
      (JObj [("prompt", JStr "")]) ["prompt"]
      eq_refl eq_refl eq_refl eq_refl _ _ eq_refl _))
      [("prompt", JStr "")] eq_refl _); try discriminate.
    intros field [<-|[]]. right; reflexivity.
  - reflexivity.
Defined.

(** Required fields are named but [requireBody] is [false]: the body
    [{}] lacks [prompt], yet the validation passes, the use case runs and
    the answer is 202. *)
Lemma required_fields_unchecked_without_requireBody :
  let opts := LambdaScenario.fields_without_body in
  let event := LambdaScenario.post_empty_object in
  let run := LambdaScenario.run (Some opts)
               (Some LambdaScenario.knownUser) event in
  LambdaAdapter.requiredFields opts = Some ["prompt"]
  /\ ApiGateway.body event = Some "{}"
  /\ LambdaScenario.JSON_parse "{}" = Normal (JObj [])
  /\ some_undefined LambdaScenario.host_get (JObj []) ["prompt"]
  /\ ~ (exists field,
          LambdaAdapter.validateBody LambdaScenario.JSON_parse
            LambdaScenario.host_get opts event
          = Throw (missing_field_error field))
  /\ useCase_calls (trace run) = [JObj [("userId", JStr "u1")]]
  /\ (exists r, outcome run = Normal r /\ statusCode r = 202%Z).
Proof.
  repeat split.
  - exists "prompt". split; [now left|reflexivity].
  - intros [field H]. vm_compute in H. discriminate.
  - eexists. split; reflexivity.
Qed.

(** C3 on the code. A GET with no [authorization] header reaches an
    adapter that requires authentication (the default); the identity
    provider accepts no token, so no valid user is found. The use case
    is not invoked, but the answer is 500 "Internal Server Error", not
    a 401. *)
Theorem unauthenticated_request_is_answered_500 :
  let event := LambdaScenario.anonymous_get in
  let run := LambdaScenario.run None None event in
  outcome (getValidUserFromAuthHeader LambdaScenario.decodeToken event tt)
  = Normal None
  /\ outcome run
     = Normal (HttpResponses_INTERNAL_SERVER_ERROR
                 (message_only "Internal Server Error"))
  /\ (exists r, outcome run = Normal r /\ statusCode r = 500%Z
                /\ statusCode r <> status_number UNAUTHORIZED)
  /\ useCase_calls (trace run) = [].
Proof.
  repeat split.
  eexists. repeat split. vm_compute. discriminate.
Qed.

(** C6 on the code. A POST without a body from a known user reaches an
    adapter that requires a body (the default). The answer is 400 and
    the use case is not invoked, but the message is the fixed text
    "AppError": neither "body" nor "Missing" occurs in the response
    body, the text "Missing request body" given to [createError] is
    dropped by [handleError]. *)
Theorem missing_body_answer_does_not_mention_body :
  let event := LambdaScenario.post_without_body in
  let run := LambdaScenario.run None (Some LambdaScenario.knownUser) event in
  outcome run = Normal (HttpResponses_BAD_REQUEST (message_only "AppError"))
  /\ (exists r, outcome run = Normal r
        /\ statusCode r = 400%Z
        /\ Http.body r = Json.stringify_object [("message", JStr "AppError")]
        /\ includes (Http.body r) "body" = false
        /\ includes (Http.body r) "Missing" = false)
  /\ useCase_calls (trace run) = [].
Proof.
  repeat split.
  eexists. repeat split.
Qed.

Section SqsFacts.
Context {W TInput TOutput : Type}.
Variable JSON_parse : string -> Completion JsValue.
Variable host_get : JsValue -> string -> JsValue.
Variable sqsSend : DeleteMessageCommand -> Act W unit.
Variable params : @SqsAdapter.SqsAdapterParams W TInput TOutput.
Implicit Types (record : SQSRecord) (w : W)
  (result : TOutput) (tr : list (@SqsAdapter.Event TInput)).

Lemma invoked_app tr1 tr2 : invoked (tr1 ++ tr2) = invoked tr1 ++ invoked tr2.
Proof. apply flat_map_app. Qed.


(** The [catch] block: it logs, then yields [{ error }] or rethrows. *)
Lemma on_record_error_eq record e w :
  (SqsAdapter.on_record_error params) record e w
  = (if (SqsAdapter.m_continueOnError (SqsAdapter.mergedOptions params))
     then Normal (SqsAdapter.ErrorEntry
                    (JObj [("error", JStr (SqsAdapter.message_of e))]))
     else Throw e,
     w,
     [SqsAdapter.RecordErrorLogged (messageId record)
        (SqsAdapter.message_of e)]).
Proof.
  unfold SqsAdapter.on_record_error, bind, emit.
  destruct (SqsAdapter.m_continueOnError _); reflexivity.
Qed.

(** Acknowledging a record that cannot be acknowledged throws before
    anything is sent. *)
Lemma acknowledge_refused record result w :
  acknowledgeable record = false ->
  exists e, (SqsAdapter.acknowledge (TInput:=TInput) sqsSend) record result w = (Throw e, w, []).
Proof.
  unfold acknowledgeable, SqsAdapter.acknowledge. intros H.
  unfold bind at 1.
  destruct (truthy_string (eventSourceARN record)); simpl in *.
  - unfold ret at 1, bind at 1, lift, SqsAdapter.getQueueUrlFromArn.
    apply negb_false_iff in H. rewrite H. eauto.
  - unfold throw. eauto.
Qed.

(** Acknowledging a record that can be acknowledged sends exactly its
    delete command, and ends as the send does. *)
Lemma acknowledge_sent record result w :
  acknowledgeable record = true ->
  (SqsAdapter.acknowledge (TInput:=TInput) sqsSend) record result w
  = (match fst (sqsSend (delete_of record) w) with
     | Normal _ => Normal (SqsAdapter.UseCaseResult result)
     | Throw e => Throw e
     end,
     snd (sqsSend (delete_of record) w),
     [SqsAdapter.DeleteSent (delete_of record)]).
Proof.
  unfold acknowledgeable, SqsAdapter.acknowledge. intros H.
  apply andb_true_iff in H. destruct H as [Ht Hl].
  apply negb_true_iff in Hl.
  unfold delete_of, queue_url, SqsAdapter.delete_command.
  unfold bind at 1. rewrite Ht. simpl.
  unfold ret at 1, bind at 1, lift, SqsAdapter.getQueueUrlFromArn.
  rewrite Hl. simpl. unfold bind, SqsAdapter.await.
  destruct (sqsSend _ w) as [[[]|e] w']; reflexivity.
Qed.

(** What the rest of [processRecord] sends to the queue once the use
    case has settled, whatever the world is by then. *)
Lemma resume_deleted record (s : SqsAdapter.Started) w :
  deletes_sent (trace (SqsAdapter.resume sqsSend params record s w))
  = if resolved s && acknowledgeable record
    then [delete_of record] else [].
Proof.
  destruct s as [c|[result|e]|result [[]|e]]; simpl.
  - reflexivity.
  - unfold try_catch.
    destruct (acknowledgeable record) eqn:Hack.
    + rewrite (acknowledge_sent _ _ _ Hack).
      destruct (fst (sqsSend (delete_of record) w)); [reflexivity|].
      rewrite on_record_error_eq. reflexivity.
    + destruct (acknowledge_refused record result w Hack) as [e ->].
      rewrite on_record_error_eq. reflexivity.
  - rewrite on_record_error_eq. reflexivity.
  - reflexivity.
  - rewrite on_record_error_eq. reflexivity.
Qed.



(** [processRecord] is its synchronous head followed by the rest. *)
Lemma processRecord_split record w :
  (SqsAdapter.processRecord JSON_parse host_get sqsSend params) record w
  = match SqsAdapter.start JSON_parse host_get params record w with
    | (s, w1, t1) =>
        match SqsAdapter.resume sqsSend params record s w1 with
        | (c, w2, t2) => (c, w2, t1 ++ t2)
        end
    end.
Proof.
  unfold SqsAdapter.processRecord, SqsAdapter.start,
    try_catch.
  unfold bind at 1, lift at 1.
  destruct ((SqsAdapter.prepare JSON_parse host_get params) record) as [input|e].
  - unfold bind at 1, SqsAdapter.await at 1.
    destruct (SqsAdapter.useCase params input w) as [[result|e] w1];
      simpl.
    + unfold try_catch.
      destruct (SqsAdapter.acknowledge sqsSend record result w1)
        as [[[x|e] w2] t2]; simpl; [reflexivity|].
      destruct (SqsAdapter.on_record_error params record e w2)
        as [[c w3] t3]. reflexivity.
    + destruct (SqsAdapter.on_record_error params record e w1)
        as [[c w3] t3]. reflexivity.
  - unfold SqsAdapter.settle. simpl.
    destruct (SqsAdapter.on_record_error params record e w)
      as [[c w3] t3]. simpl. now rewrite ?app_nil_r.
Qed.

(** The synchronous head: it calls the use case exactly when the
    record passes extraction and validation, and sends nothing. *)
Lemma start_spec record w :
  match (SqsAdapter.prepare JSON_parse host_get params) record with
  | Normal input =>
      SqsAdapter.start JSON_parse host_get params record w
      = (SqsAdapter.AwaitingUseCase
           (fst (SqsAdapter.useCase params input w)),
         snd (SqsAdapter.useCase params input w),
         [SqsAdapter.UseCaseCalled input])
  | Throw e =>
      SqsAdapter.start JSON_parse host_get params record w
      = (SqsAdapter.Settled
           (if (SqsAdapter.m_continueOnError (SqsAdapter.mergedOptions params))
            then Normal (SqsAdapter.ErrorEntry
                           (JObj [("error",
                                   JStr (SqsAdapter.message_of e))]))
            else Throw e),
         w,
         [SqsAdapter.RecordErrorLogged (messageId record)
            (SqsAdapter.message_of e)])
  end.
Proof.
  unfold SqsAdapter.start.
  destruct ((SqsAdapter.prepare JSON_parse host_get params) record) as [input|e].
  - destruct (SqsAdapter.useCase params input w). reflexivity.
  - unfold SqsAdapter.settle. now rewrite on_record_error_eq.
Qed.

(** What one call of [processRecord] sends to the queue. *)
Lemma processRecord_deleted record w :
  deletes_sent (trace (SqsAdapter.processRecord JSON_parse host_get sqsSend
                    params record w))
  = match SqsAdapter.prepare JSON_parse host_get params record with
    | Normal input =>
        match fst (SqsAdapter.useCase params input w) with
        | Normal _ =>
            if acknowledgeable record then [delete_of record] else []
        | Throw _ => []
        end
    | Throw _ => []
    end.
Proof.
  rewrite processRecord_split.
  pose proof (start_spec record w) as Hstart.
  destruct (SqsAdapter.prepare JSON_parse host_get params record)
    as [input|e]; rewrite Hstart.
  - pose proof (resume_deleted record
      (SqsAdapter.AwaitingUseCase (fst (SqsAdapter.useCase params input w)))
      (snd (SqsAdapter.useCase params input w))) as Hres.
    unfold trace in *.
    destruct (SqsAdapter.resume _ _ _ _ _) as [[c w2] t2].
    simpl in *. rewrite Hres.
    destruct (fst (SqsAdapter.useCase params input w)); reflexivity.
  - pose proof (resume_deleted record
      (SqsAdapter.Settled
         (if SqsAdapter.m_continueOnError (SqsAdapter.mergedOptions params)
          then Normal (SqsAdapter.ErrorEntry
                         (JObj [("error", JStr (SqsAdapter.message_of e))]))
          else Throw e)) w) as Hres.
    unfold trace in *.
    destruct (SqsAdapter.resume _ _ _ _ _) as [[c w2] t2].
    simpl in *. exact Hres.
Qed.





(** *** The delete, by what the queue answers *)






(** *** One job of a started call *)





End SqsFacts.

Section SqsClaims.
Context {W TInput TOutput : Type}.
Variable JSON_parse : string -> Completion JsValue.
Variable host_get : JsValue -> string -> JsValue.
Variable sqsSend : DeleteMessageCommand -> Act W unit.
Variable params : @SqsAdapter.SqsAdapterParams W TInput TOutput.
Implicit Types (record : SQSRecord) (w : W).

End SqsClaims.

Section SqsSequential.
Context {W TInput TOutput : Type}.
Variable JSON_parse : string -> Completion JsValue.
Variable host_get : JsValue -> string -> JsValue.
Variable sqsSend : DeleteMessageCommand -> Act W unit.
Variable params : @SqsAdapter.SqsAdapterParams W TInput TOutput.
Implicit Types (record : SQSRecord) (records pre post : list SQSRecord)
  (w : W).




(** The use-case calls and the deletes of a concatenation of runs. *)
Lemma invoked_concat (trs : list (list (@SqsAdapter.Event TInput))) :
  invoked (List.concat trs) = List.concat (map invoked trs).
Proof.
  induction trs as [|t trs IH]; simpl; [reflexivity|].
  now rewrite invoked_app, IH.
Qed.
End SqsSequential.

Section ListUpdate.
Context {A : Type}.
Implicit Types (l : list A) (i j : nat).


End ListUpdate.

Section SqsParallel.
Context {W TInput TOutput : Type}.
Variable JSON_parse : string -> Completion JsValue.
Variable host_get : JsValue -> string -> JsValue.
Variable sqsSend : DeleteMessageCommand -> Act W unit.
Variable params : @SqsAdapter.SqsAdapterParams W TInput TOutput.
Implicit Types (record : SQSRecord) (records : list SQSRecord) (w : W)
  (started calls : list (@SqsAdapter.Started TOutput))
  (t : list (@SqsAdapter.Event TInput)).





(** *** The jobs that run while the handler waits *)

Section Invariant.
Variable records : list SQSRecord.
(** What holds of the calls and of the events so far, and what
    holds of the events when a call has rejected. *)
Variable Inv : list (@SqsAdapter.Started TOutput)
               -> list (@SqsAdapter.Event TInput) -> Prop.
Variable Stop : Thrown -> list (@SqsAdapter.Event TInput) -> Prop.

Hypothesis keep : forall calls t0 i record s w,
  Inv calls t0 ->
  nth_error records i = Some record ->
  nth_error calls i = Some s ->
  (forall e,
     fst (fst (SqsAdapter.step sqsSend params record s w))
     <> SqsAdapter.Settled (Throw e)) ->
  Inv (SqsAdapter.replace_at i
         (fst (fst (SqsAdapter.step sqsSend params record s w))) calls)
    (t0 ++ snd (SqsAdapter.step sqsSend params record s w)).

Hypothesis stop : forall calls t0 i record s w e,
  Inv calls t0 ->
  nth_error records i = Some record ->
  nth_error calls i = Some s ->
  fst (fst (SqsAdapter.step sqsSend params record s w))
  = SqsAdapter.Settled (Throw e) ->
  Stop e (t0 ++ snd (SqsAdapter.step sqsSend params record s w)).

End Invariant.






End SqsParallel.

Section SqsHandler.
Context {W TInput TOutput : Type}.
Variable JSON_parse : string -> Completion JsValue.
Variable host_get : JsValue -> string -> JsValue.
Variable sqsSend : DeleteMessageCommand -> Act W unit.
Variable params : @SqsAdapter.SqsAdapterParams W TInput TOutput.
Implicit Types (record : SQSRecord) (records : list SQSRecord) (w : W)
  (order : list nat).



(** The handler on a batch that has records: the outcome of the
    chosen branch, turned into the batch result or into the answer of
    [handleError]. *)
Lemma handler_on_records order event w :
  Records event <> [] ->
  SqsAdapter.createSqsAdapter JSON_parse host_get sqsSend params
    order event w
  = match
      (if SqsAdapter.m_processInParallel (SqsAdapter.mergedOptions params)
       then SqsAdapter.promise_all JSON_parse host_get sqsSend params
              order (Records event)
       else SqsAdapter.process_in_order JSON_parse host_get sqsSend params
              (Records event) []) w
    with
    | (Normal results, w1, t) =>
        (Normal (SqsAdapter.BatchResults results), w1, t)
    | (Throw e, w1, t) =>
        (Normal (SqsAdapter.ErrorResponse (handleError e)), w1,
         t ++ [SqsAdapter.FatalErrorLogged (SqsAdapter.message_of e)])
    end.
Proof.
  intros Hne. unfold SqsAdapter.createSqsAdapter, SqsAdapter.handler.
  destruct (Records event) as [|r rest]; [congruence|].
  unfold try_catch, bind at 1.
  destruct (SqsAdapter.m_processInParallel (SqsAdapter.mergedOptions params)).
  - destruct (SqsAdapter.promise_all JSON_parse host_get sqsSend params
                order (r :: rest) w) as [[[results|e] w1] t]; simpl;
      [now rewrite app_nil_r | reflexivity].
  - destruct (SqsAdapter.process_in_order JSON_parse host_get sqsSend
                params (r :: rest) [] w) as [[[results|e] w1] t]; simpl;
      [now rewrite app_nil_r | reflexivity].
Qed.
End SqsHandler.

Section SqsBatchClaims.
Context {W TInput TOutput : Type}.
Variable JSON_parse : string -> Completion JsValue.
Variable host_get : JsValue -> string -> JsValue.
Variable sqsSend : DeleteMessageCommand -> Act W unit.
Variable params : @SqsAdapter.SqsAdapterParams W TInput TOutput.

End SqsBatchClaims.




(* ================================================================== *)
(** * Further properties of the same code                               *)
(* ================================================================== *)

Section MoreSaga.
Context {W : Type}.

(** A newly built saga whose steps all resolve: [execute()] resolves
    with their results in order, every step was executed once, and
    [compensate] was never called. *)
Theorem saga_success_never_compensates :
  forall (ss : list (SagaStep.t W)) w rs w',
    resolve_all ss w = Some (rs, w') ->
    let run := Saga.execute (Saga.start ss w) in
    outcome run = Normal rs
    /\ executed (trace run) = seq 0 (List.length ss)
    /\ compensated (trace run) = [].
Proof.
  intros ss w rs w' H run. unfold run, Saga.start.
  rewrite build_fields.
  rewrite (execute_when_resolves (Saga.Build ss [] 0) w rs w' H).
  unfold outcome, trace. simpl.
  now rewrite executed_calls, compensated_calls.
Qed.
End MoreSaga.

Lemma saga_success_never_compensates_witness :
  let ss := [SagaScenario.ok_step "a"; SagaScenario.ok_step "b"] in
  let run := Saga.execute (Saga.start ss []) in
  resolve_all ss [] = Some ([JStr "a"; JStr "b"], ["a"; "b"])
  /\ outcome run = Normal [JStr "a"; JStr "b"]
  /\ compensated (trace run) = [].
Proof.
  split; [reflexivity|].
  pose proof (saga_success_never_compensates
    [SagaScenario.ok_step "a"; SagaScenario.ok_step "b"] []
    [JStr "a"; JStr "b"] ["a"; "b"] eq_refl) as (H1 & _ & H3).
  split; assumption.
Defined.

(** [handleError] answers 400 or 500 and nothing else. *)
Theorem handleError_answers_400_or_500 :
  forall error,
    statusCode (handleError error) = 400%Z
    \/ statusCode (handleError error) = 500%Z.
Proof.
  intros error. unfold handleError.
  destruct (instanceof_AppError error); [left; reflexivity|].
  destruct (instanceof_ZodError error); [left; reflexivity|].
  destruct (instanceof_SyntaxError error && _); [left|right]; reflexivity.
Qed.

(** The headers of a response: [Content-Type] is [application/json]
    unless the caller gives a header of exactly that name, which then
    wins; every other header is the caller's. Header names are compared
    as written, so a caller's [content-type] does not replace the
    default but travels beside it. *)
Theorem response_headers_merge :
  forall code (params : HttpResponseParams) name,
    let response := createHttpResponse code params in
    let given := own_member (params_headers params) name in
    own_member (Http.headers response) name
    = match given with
      | Some v => Some v
      | None =>
          if String.eqb name "Content-Type"
          then Some (JStr "application/json") else None
      end.
Proof.
  intros code params name response given. subst response given.
  unfold createHttpResponse. cbn [Http.headers own_member].
  destruct (own_member (params_headers params) name); [reflexivity|].
  rewrite String.eqb_sym. reflexivity.
Qed.

Section MoreAdapters.
Context {W TInput TOutput : Type}.
Variable JSON_parse : string -> Completion JsValue.
Variable host_get : JsValue -> string -> JsValue.
Variable decodeToken : string -> Act W JsValue.

(** The request handler never rejects: whatever is thrown inside is
    answered through [handleError]. *)
Theorem request_adapter_always_answers :
  forall (params : @LambdaAdapter.LambdaAdapterParams W TInput TOutput)
         event w,
  exists response,
    outcome (LambdaAdapter.createLambdaAdapter JSON_parse host_get
               decodeToken params event w) = Normal response.
Proof.
  intros params event w.
  unfold LambdaAdapter.createLambdaAdapter, try_catch, outcome.
  match goal with
  | |- context [match ?m w with _ => _ end] =>
      destruct (m w) as [[[r|e] w1] t1]
  end; simpl; eauto.
Qed.
End MoreAdapters.

Section SagaBookkeeping.
Context {W : Type}.

(** Either every step resolves, or there is a first step that rejects
    after the ones before it resolved. *)
Lemma resolve_all_or_first_failure (ss : list (SagaStep.t W)) : forall w,
  (exists rs w', resolve_all ss w = Some (rs, w'))
  \/ (exists pre sk post rs w1 e w2,
        ss = pre ++ sk :: post
        /\ resolve_all pre w = Some (rs, w1)
        /\ SagaStep.execute sk w1 = (Throw e, w2)).
Proof.
  induction ss as [|step rest IH]; intros w.
  - left. exists [], w. reflexivity.
  - destruct (SagaStep.execute step w) as [[r|e] w1] eqn:Hstep.
    + destruct (IH w1) as [(rs & w' & H)|(pre & sk & post & rs & w2 & e & w3
                                          & -> & Hpre & Hsk)].
      * left. exists (r :: rs), w'. simpl. now rewrite Hstep, H.
      * right. exists (step :: pre), sk, post, (r :: rs), w2, e, w3.
        simpl. rewrite Hstep, Hpre. auto.
    + right. exists [], step, rest, [], w, e, w1. auto.
Qed.

(** The bookkeeping of a newly built saga after [execute()], however
    it ends: the steps are untouched, [completedSteps] counts the
    recorded results, and the steps executed are those up to and
    including the first one that failed. On success the results are
    returned, nothing is compensated and the world is as the steps
    left it; on failure exactly the counted steps are compensated,
    last first, and the world is the one left by undoing them from
    the world the failing step left. *)
Theorem saga_bookkeeping_after_execute :
  forall (ss : list (SagaStep.t W)) w,
    let run := Saga.execute (Saga.start ss w) in
    let sg := Saga.this (final run) in
    Saga.steps sg = ss
    /\ Saga.completedSteps sg = List.length (Saga.results sg)
    /\ executed (trace run)
       = seq 0 (Nat.min (S (Saga.completedSteps sg)) (List.length ss))
    /\ match outcome run with
       | Normal rs =>
           rs = Saga.results sg
           /\ Saga.completedSteps sg = List.length ss
           /\ compensated (trace run) = []
           /\ Saga.world (final run) = forward ss w
       | Throw _ =>
           Saga.completedSteps sg < List.length ss
           /\ compensated (trace run)
              = descending (Saga.completedSteps sg)
           /\ Saga.world (final run)
              = undo (firstn (Saga.completedSteps sg) ss) (forward ss w)
       end.
Proof.
  intros ss w run sg. subst sg run. unfold Saga.start.
  rewrite build_fields.
  destruct (resolve_all_or_first_failure ss w)
    as [(rs & w' & H)|(pre & sk & post & rs & w1 & e & w2 & Hss & Hpre & Hsk)].
  - rewrite (execute_when_resolves (Saga.Build ss [] 0) w rs w' H).
    pose proof (resolve_all_length ss w rs w' H) as L.
    rewrite (forward_resolves ss w rs w' H).
    unfold outcome, final, trace, advance.
    cbn [fst snd Saga.this Saga.steps Saga.results Saga.completedSteps
         Saga.world app Nat.add].
    rewrite executed_calls, compensated_calls, L.
    repeat split; auto. f_equal. lia.
  - rewrite (execute_rejecting_run (Saga.Build ss [] 0) pre sk post w rs
               w1 e w2 Hss Hpre Hsk).
    pose proof (resolve_all_length pre w rs w1 Hpre) as L.
    cbn [Saga.completedSteps Nat.add].
    destruct (compensate_from_world (List.length pre)
                (advance (Saga.Build ss [] 0) rs) w2)
      as (tr3 & E & Hc & He).
    rewrite E. cbn [advance Saga.steps] in Hc.
    rewrite (with_step_all ss (List.length pre)) in Hc
      by (rewrite Hss, length_app; simpl; lia).
    assert (forward ss w = w2) as ->
      by (rewrite Hss; eapply forward_rejects; eauto).
    unfold outcome, final, trace, advance.
    cbn [fst snd Saga.this Saga.steps Saga.results Saga.completedSteps
         Saga.world app Nat.add].
    rewrite executed_app, compensated_app, executed_calls,
      compensated_calls, He, Hc, app_nil_r, L.
    assert (List.length ss = List.length pre + S (List.length post))
      as Hlen by (rewrite Hss, length_app; reflexivity).
    split; [reflexivity|]. split; [reflexivity|].
    split; [f_equal; lia|]. split; [lia|]. split; [reflexivity|].
    rewrite Hss. rewrite firstn_app, firstn_all, Nat.sub_diag.
    cbn [firstn]. rewrite app_nil_r. apply rollback_undo.
Qed.
End SagaBookkeeping.

Section RetryMoreFacts.
Context {W T : Type}.
Implicit Types (fn : Act W T) (config : Retry.RetryConfig W) (w : W).

(** The wrapper adds nothing of its own to what [fn] does. It calls
    [fn] at attempts [1..n] with [n <= retries]; the world it leaves is
    the one those [n] calls left; and, when [retries] is at least 1,
    its result or error is exactly that of the last call made. Only
    with [retries = 0] does it fail with its own "Max retries reached"
    error, without calling [fn]. *)
Theorem withRetry_returns_last_call :
  forall fn config w,
    let outs := outcomes fn w (Retry.retries config) in
    let run := Retry.withRetry fn config w in
    let n := List.length (called (trace run)) in
    called (trace run) = seq 1 n
    /\ n <= Retry.retries config
    /\ final run = world_after_calls fn w n
    /\ (Retry.retries config = 0 ->
        n = 0 /\ outcome run = Throw max_retries_error)
    /\ (0 < Retry.retries config ->
        0 < n /\ nth_error outs (n - 1) = Some (outcome run)).
Proof.
  intros fn config w outs run n.
  destruct (loop_spec fn config (Retry.retries config) 1 w eq_refl)
    as (Hc & _ & Ho).
  pose proof (loop_final fn config (Retry.retries config) 1 w eq_refl)
    as Hf.
  fold outs in Hc, Ho, Hf.
  fold (Retry.withRetry fn config w) in Hc, Ho, Hf. fold run in Hc, Ho, Hf.
  pose proof (stop_at_pos outs) as Hpos.
  pose proof (outcomes_length fn (Retry.retries config) w) as L.
  fold outs in L.
  assert (n = Nat.min (Retry.retries config) (stop_at outs)) as Hn.
  { unfold n. now rewrite Hc, length_seq. }
  rewrite <- Hn in Hc, Ho, Hf.
  split; [exact Hc|]. split; [lia|]. split; [exact Hf|]. split.
  - intros H0. assert (n = 0) as Hn0 by lia. split; [exact Hn0|].
    rewrite Ho, Hn0. destruct outs; [reflexivity|simpl in L; lia].
  - intros Hr. split; [lia|]. rewrite Ho.
    apply nth_error_nth'. lia.
Qed.
End RetryMoreFacts.

(** The research configuration on an upstream call that parses on its
    second answer: two calls, and the second call's value comes back. *)
Lemma withRetry_returns_last_call_witness :
  let run := Retry.withRetry RetryScenario.flaky_fn
               RetryScenario.research_config [] in
  called (trace run) = [1; 2]
  /\ final run = ["attempt"; "attempt"]
  /\ outcome run = Normal (JStr "research").
Proof.
  pose proof (withRetry_returns_last_call RetryScenario.flaky_fn
                RetryScenario.research_config []) as (H1 & _ & H3 & _ & H5).
  split; [exact H1|]. split; [exact H3|].
  destruct (H5 ltac:(simpl; lia)) as (_ & H).
  rewrite H1 in H. cbn [List.length Nat.sub] in H.
  change (Some (Normal (JStr "research"))
          = Some (outcome (Retry.withRetry RetryScenario.flaky_fn
                             RetryScenario.research_config []))) in H.
  symmetry.
  exact (f_equal (fun o => match o with
                           | Some c => c
                           | None => Throw max_retries_error
                           end) H).
Defined.

Section PipelineOrder.
Context {W TInput TOutput : Type}.
Variable JSON_parse : string -> Completion JsValue.
Variable host_get : JsValue -> string -> JsValue.
Variable decodeToken : string -> Act W JsValue.

(** The use case is the last thing the request pipeline reaches. It is
    invoked at most once, and when it is, authentication has returned a
    user, the body check has passed, and its input is what the event
    parser made of that user and the schema accepted. With
    [requireAuth: false] the identity is never asked for and the parser
    is given the empty user. *)
Theorem use_case_runs_once_after_all_checks :
  forall (params : @LambdaAdapter.LambdaAdapterParams W TInput TOutput)
         event w,
    let opts := effective_options params in
    let getUser := effective_getUserInfo decodeToken params in
    let run := LambdaAdapter.createLambdaAdapter JSON_parse host_get
                 decodeToken params event w in
    (useCase_calls (trace run) = []
     \/ exists user raw input,
          useCase_calls (trace run) = [input]
          /\ outcome (LambdaAdapter.authenticate (TInput:=TInput) opts
                        getUser event w) = Normal user
          /\ LambdaAdapter.validateBody JSON_parse host_get opts event
             = Normal tt
          /\ LambdaAdapter.eventParser params event user = Normal raw
          /\ LambdaAdapter.schema params raw = Normal input)
    /\ (LambdaAdapter.not_false (LambdaAdapter.requireAuth opts) = false ->
        ~ In LambdaAdapter.GetUserInfoCalled (trace run)
        /\ outcome (LambdaAdapter.authenticate (TInput:=TInput) opts
                      getUser event w)
           = Normal {| userId := ""; keyId := None |}).
Proof.
  intros params event w opts getUser run.
  assert (Hrun : run
    = try_catch
        (validUser <- LambdaAdapter.authenticate opts getUser event ;;
         lift (LambdaAdapter.validateBody JSON_parse host_get opts event) ;;;
         input <- lift (LambdaAdapter.eventParser params event validUser) ;;
         parsedInput <- lift (LambdaAdapter.schema params input) ;;
         result <- LambdaAdapter.await
                     (LambdaAdapter.UseCaseCalled parsedInput)
                     (LambdaAdapter.useCase params parsedInput) ;;
         lift (LambdaAdapter.responseFormatter params result))
        (fun error => ret (handleError error)) w) by reflexivity.
  pose proof (authenticate_trace (TInput:=TInput) opts getUser event w)
    as Hauth.
  assert (Hoff :
    LambdaAdapter.not_false (LambdaAdapter.requireAuth opts) = false ->
    LambdaAdapter.authenticate (TInput:=TInput) opts getUser event w
    = (Normal {| userId := ""; keyId := None |}, w, [])).
  { intros H. unfold LambdaAdapter.authenticate. now rewrite H. }
  rewrite Hrun. clear Hrun run.
  unfold try_catch, bind, lift, ret, LambdaAdapter.await, outcome, trace
    in *.
  destruct (LambdaAdapter.authenticate opts getUser event w)
    as [[[user|e] w1] t1] eqn:Ha; cbn [fst snd] in *.
  2:{ rewrite app_nil_r. split; [left; exact Hauth|].
      intros H. specialize (Hoff H). discriminate. }
  assert (Hskip :
    LambdaAdapter.not_false (LambdaAdapter.requireAuth opts) = false ->
    t1 = [] /\ user = {| userId := ""; keyId := None |}).
  { intros H. specialize (Hoff H). injection Hoff as -> _ ->. auto. }
  destruct (LambdaAdapter.validateBody JSON_parse host_get opts event)
    as [[]|e] eqn:Hb; cbn [fst snd app].
  2:{ rewrite !app_nil_r. split; [left; exact Hauth|].
      intros H. destruct (Hskip H) as [-> ->]. auto. }
  destruct (LambdaAdapter.eventParser params event user)
    as [raw|e] eqn:Hp; cbn [fst snd app].
  2:{ rewrite !app_nil_r. split; [left; exact Hauth|].
      intros H. destruct (Hskip H) as [-> ->]. auto. }
  destruct (LambdaAdapter.schema params raw)
    as [input|e] eqn:Hs; cbn [fst snd app].
  2:{ rewrite !app_nil_r. split; [left; exact Hauth|].
      intros H. destruct (Hskip H) as [-> ->]. auto. }
  destruct (LambdaAdapter.useCase params input w1) as [[result|e] w2];
    cbn [fst snd app].
  - destruct (LambdaAdapter.responseFormatter params result)
      as [response|e]; cbn [fst snd app]; rewrite ?app_nil_r.
    + split.
      * right. exists user, raw, input.
        unfold useCase_calls in *. rewrite flat_map_app, Hauth.
        simpl. auto.
      * intros H. destruct (Hskip H) as [-> ->]. split; [|reflexivity].
        simpl. intros [F|[]]. discriminate.
    + split.
      * right. exists user, raw, input.
        unfold useCase_calls in *. rewrite flat_map_app, Hauth.
        simpl. auto.
      * intros H. destruct (Hskip H) as [-> ->]. split; [|reflexivity].
        simpl. intros [F|[]]. discriminate.
  - rewrite ?app_nil_r. split.
    + right. exists user, raw, input.
      unfold useCase_calls in *. rewrite flat_map_app, Hauth.
      simpl. auto.
    + intros H. destruct (Hskip H) as [-> ->]. split; [|reflexivity].
      simpl. intros [F|[]]. discriminate.
Qed.
End PipelineOrder.

Section SplitFacts.
Variable sep : ascii.

Lemma split_not_nil (s : string) : split sep s <> [].
Proof.
  destruct s as [|c rest]; simpl; [discriminate|].
  destruct (Ascii.eqb c sep); [discriminate|].
  destruct (split sep rest); discriminate.
Qed.

Lemma split_free (s : string) :
  free_of sep s = true -> split sep s = [s].
Proof.
  induction s as [|c rest IH]; simpl; intros H; [reflexivity|].
  apply andb_true_iff in H. destruct H as [Hc Hrest].
  apply negb_true_iff in Hc. rewrite Hc, (IH Hrest). reflexivity.
Qed.

Lemma split_append (a b : string) :
  free_of sep a = true ->
  split sep (String.append a (String sep b)) = a :: split sep b.
Proof.
  induction a as [|c rest IH]; simpl; intros H.
  - now rewrite Ascii.eqb_refl.
  - apply andb_true_iff in H. destruct H as [Hc Hrest].
    apply negb_true_iff in Hc. rewrite Hc, (IH Hrest). reflexivity.
Qed.

(** Splitting what was joined with the separator gives the parts
    back, when no part holds the separator. *)
Lemma split_concat (parts : list string) :
  parts <> [] ->
  Forall (fun p => free_of sep p = true) parts ->
  split sep (String.concat (String sep "") parts) = parts.
Proof.
  induction parts as [|p rest IH]; intros Hne Hfree; [congruence|].
  inversion Hfree as [|? ? Hp Hrest]; subst.
  destruct rest as [|q rest'].
  - simpl. now apply split_free.
  - change (String.concat (String sep "") (p :: q :: rest'))
      with (String.append p
              (String sep (String.concat (String sep "") (q :: rest')))).
    rewrite (split_append _ _ Hp), IH; [reflexivity|discriminate|exact Hrest].
Qed.
End SplitFacts.

(** The token handed to the identity provider is the second
    space-separated word of the [authorization] header, whatever the
    first word is: the scheme is not looked at. A header of one word
    gives the empty token. *)
Theorem bearer_token_is_second_word :
  forall (event : ApiGateway.Event) (words : list string),
    Forall (fun word => free_of " " word = true) words ->
    ApiGateway.header (ApiGateway.headers event) "authorization"
    = Some (String.concat " " words) ->
    bearer_token event = nth 1 words "".
Proof.
  intros event words Hfree Hheader. unfold bearer_token.
  rewrite Hheader.
  destruct words as [|first rest].
  - reflexivity.
  - rewrite (split_concat " " (first :: rest)); [|discriminate|exact Hfree].
    destruct rest as [|second rest']; reflexivity.
Qed.

Lemma bearer_token_is_second_word_witness :
  let basic := ApiGateway.MkEvent [("authorization", "Basic abc")] None [] in
  let bare := ApiGateway.MkEvent [("authorization", "abc")] None [] in
  bearer_token basic = "abc" /\ bearer_token bare = "".
Proof.
  split.
  - apply (bearer_token_is_second_word
             (ApiGateway.MkEvent [("authorization", "Basic abc")] None [])
             ["Basic"; "abc"]); [|reflexivity].
    repeat constructor.
  - apply (bearer_token_is_second_word
             (ApiGateway.MkEvent [("authorization", "abc")] None [])
             ["abc"]); [|reflexivity].
    repeat constructor.
Defined.

Section IdentityFacts.
Context {W : Type}.
Variable decodeToken : string -> Act W JsValue.

(** [getValidUser] asks the identity provider exactly once, for the
    token of the header, and leaves the world as that call left it. It
    resolves only when the provider accepted the token and the claims
    have the expected shape, with the token's subject as user id; in
    every other case it rejects with [Error('Unauthorized')], whatever
    went wrong. *)
Theorem getValidUser_asks_provider_once :
  forall event w,
    let asked := decodeToken (bearer_token event) w in
    let run := getValidUser decodeToken event w in
    final run = snd asked
    /\ trace run = []
    /\ match outcome run with
       | Normal user =>
           exists claims jwt,
             fst asked = Normal claims
             /\ DecodedJwtSchema_parse claims = Normal jwt
             /\ userId user = sub jwt
       | Throw e => e = ErrorObject Error "Unauthorized"
       end.
Proof.
  intros event w asked run. subst asked run.
  pose proof (getValidUser_outcome decodeToken event w) as H.
  unfold getValidUserFromAuthHeader, try_catch, bind, call, lift, ret
    in H.
  unfold final, trace, outcome.
  destruct (decodeToken (bearer_token event) w) as [[claims|e] w1];
    cbn [fst snd] in *.
  - destruct (DecodedJwtSchema_parse claims) as [jwt|e] eqn:Hjwt;
      cbn [fst snd app] in H.
    + destruct (ValidUserSchema_safeParse (sub jwt) _) as [user|] eqn:Hu;
        rewrite H; cbn [fst snd]; repeat split.
      exists claims, jwt. repeat split; auto.
      unfold ValidUserSchema_safeParse in Hu.
      destruct (match metadata jwt with
                | Some m => member m "keyId"
                | None => JUndefined
                end); try discriminate; now injection Hu as <-.
    + rewrite H. cbn [fst snd]. repeat split.
  - rewrite H. cbn [fst snd]. repeat split.
Qed.
End IdentityFacts.

Section QueueUrl.
(** An ARN of six colon-separated parts or more gives the URL made of
    its fourth, fifth and sixth part; what comes after the sixth part
    is dropped, and neither the [arn] prefix nor the service name is
    looked at. With fewer than six parts the ARN is refused. *)
Theorem queue_url_from_arn_parts :
  forall (parts : list string),
    Forall (fun p => free_of ":" p = true) parts ->
    SqsAdapter.getQueueUrlFromArn (String.concat ":" parts)
    = if (List.length parts <? 6)%nat
      then Throw (ErrorObject Error "Invalid ARN format")
      else Normal (queue_url_of (nth 3 parts "") (nth 4 parts "")
                     (nth 5 parts "")).
Proof.
  intros parts Hfree. unfold SqsAdapter.getQueueUrlFromArn.
  destruct parts as [|p rest]; [reflexivity|].
  rewrite (split_concat ":" (p :: rest)); [|discriminate|exact Hfree].
  destruct (List.length (p :: rest) <? 6)%nat; [reflexivity|].
  unfold queue_url_of. cbn [String.concat].
  reflexivity.
Qed.
End QueueUrl.

Lemma queue_url_from_arn_parts_witness :
  SqsAdapter.getQueueUrlFromArn "arn:aws:sqs:us-east-1:123456789012:research"
  = Normal "https://sqs.us-east-1.amazonaws.com/123456789012/research"
  /\ SqsAdapter.getQueueUrlFromArn "x:y:z:eu-west-1:42:jobs:tail:more"
     = Normal "https://sqs.eu-west-1.amazonaws.com/42/jobs"
  /\ SqsAdapter.getQueueUrlFromArn "arn:aws:sqs:us-east-1:research"
     = Throw (ErrorObject Error "Invalid ARN format").
Proof.
  split; [|split].
  - apply (queue_url_from_arn_parts
             ["arn"; "aws"; "sqs"; "us-east-1"; "123456789012"; "research"]).
    repeat constructor.
  - apply (queue_url_from_arn_parts
             ["x"; "y"; "z"; "eu-west-1"; "42"; "jobs"; "tail"; "more"]).
    repeat constructor.
  - apply (queue_url_from_arn_parts
             ["arn"; "aws"; "sqs"; "us-east-1"; "research"]).
    repeat constructor.
Defined.

Section ExtractorFacts.
Context {W : Type}.
Variable JSON_parse : string -> Completion JsValue.
Variable host_get : JsValue -> string -> JsValue.

(** The JSON text of an object is never the empty string. *)
Lemma stringify_object_truthy (members : list (string * JsValue)) :
  truthy (JStr (Json.stringify_object members)) = true.
Proof. reflexivity. Qed.

(** What the publisher sends comes back out of the queue. The
    publisher puts the JSON text of the payload in [Message]; when the
    record's body is an envelope whose [Message] member is that text,
    the default extractor returns what [JSON.parse] makes of it, and
    never looks for a [payload] member. *)
Theorem published_message_is_extracted_back :
  forall (topicArn : string) (message : TopicPublisher.AgentMessage)
         (snsSend : TopicPublisher.PublishCommand -> Act W unit) w
         (record : SQSRecord) envelope value,
    let command := TopicPublisher.publish_command topicArn message in
    JSON_parse (Sqs.body record) = Normal (JObj envelope) ->
    member envelope "Message"
    = JStr (TopicPublisher.Message command) ->
    JSON_parse (TopicPublisher.Message command) = Normal value ->
    trace (TopicPublisher.publishAgentMessage topicArn snsSend message w)
    = [TopicPublisher.PublishSent command]
    /\ SqsAdapter.defaultMessageExtractor JSON_parse host_get record
       = Normal value.
Proof.
  intros topicArn message snsSend w record envelope value command
    Hbody Hmessage Hvalue.
  split.
  - unfold TopicPublisher.publishAgentMessage, try_catch,
      TopicPublisher.await, throw, trace.
    fold command.
    destruct (snsSend command w) as [[[]|e] w']; reflexivity.
  - unfold SqsAdapter.defaultMessageExtractor.
    rewrite Hbody. cbn [get_prop]. rewrite Hmessage.
    unfold command, TopicPublisher.publish_command.
    cbn [TopicPublisher.Message].
    rewrite stringify_object_truthy. cbn [to_string].
    unfold command, TopicPublisher.publish_command in Hvalue.
    cbn [TopicPublisher.Message] in Hvalue.
    now rewrite Hvalue.
Qed.

(** A body that parses to an object without a usable [Message] is
    taken as a direct payload, and its [payload] member is returned
    unchecked: when the member is missing the extractor returns
    [undefined] rather than failing. A [Message] that is there wins
    over [payload], and when it does not parse the failure is an
    [Error] that names the SNS format. *)
Theorem extractor_on_object_bodies :
  forall (record : SQSRecord) members,
    JSON_parse (Sqs.body record) = Normal (JObj members) ->
    let Message := member members "Message" in
    let extracted :=
      SqsAdapter.defaultMessageExtractor JSON_parse host_get record in
    (truthy Message = false ->
     extracted = Normal (member members "payload"))
    /\ (truthy Message = false ->
        own_member members "payload" = None ->
        extracted = Normal JUndefined)
    /\ (truthy Message = true ->
        match JSON_parse (to_string Message) with
        | Normal parsedMessage => extracted = Normal parsedMessage
        | Throw _ =>
            exists reason,
              extracted
              = Throw (ErrorObject Error
                         (String.append "Invalid SNS message format: "
                            reason))
        end).
Proof.
  intros record members Hbody Message extracted.
  subst extracted. unfold SqsAdapter.defaultMessageExtractor.
  rewrite Hbody. cbn [get_prop]. fold Message.
  split; [|split].
  - intros ->. reflexivity.
  - intros -> Hnone. cbn. unfold member. now rewrite Hnone.
  - intros ->.
    destruct (JSON_parse (to_string Message)) as [v|e]; [reflexivity|].
    eexists. reflexivity.
Qed.
End ExtractorFacts.

Lemma published_message_is_extracted_back_witness :
  let payload := [("prompt", JStr "x")] in
  let message :=
    TopicPublisher.MkMessage "task" "m1" "now" "research" payload in
  let envelope :=
    [("Type", JStr "Notification");
     ("Message", JStr (Json.stringify_object payload))] in
  let record := MkRecord "m1" "h1" (Json.stringify_object envelope) "" in
  let parse text :=
    if String.eqb text (Json.stringify_object envelope)
    then Normal (JObj envelope)
    else LambdaScenario.JSON_parse text in
  SqsAdapter.defaultMessageExtractor parse LambdaScenario.host_get record
  = Normal (JObj payload).
Proof.
  intros payload message envelope record parse.
  refine (proj2 (published_message_is_extracted_back (W:=unit) parse
            LambdaScenario.host_get "arn:aws:sns:us-east-1:1:tasks" message
            (fun _ w => (Normal tt, w)) tt record envelope (JObj payload)
            _ _ _)); reflexivity.
Defined.

Lemma extractor_on_object_bodies_witness :
  let record := MkRecord "m1" "h1" "{}" "" in
  SqsAdapter.defaultMessageExtractor LambdaScenario.JSON_parse
    LambdaScenario.host_get record
  = Normal JUndefined.
Proof.
  intros record.
  destruct (extractor_on_object_bodies LambdaScenario.JSON_parse
              LambdaScenario.host_get record [] eq_refl) as (_ & H & _).
  exact (H eq_refl eq_refl).
Defined.

Section QueueHandlerFacts.
Context {W TInput TOutput : Type}.
Variable JSON_parse : string -> Completion JsValue.
Variable host_get : JsValue -> string -> JsValue.
Variable sqsSend : DeleteMessageCommand -> Act W unit.
Variable params : @SqsAdapter.SqsAdapterParams W TInput TOutput.

(** The queue handler never rejects: it returns the batch results or,
    for any failure that escapes the records, the answer of
    [handleError]. A batch without records is such a failure: it is
    answered 500 and touches nothing. *)
Theorem queue_handler_always_resolves :
  forall order event w,
    let run := SqsAdapter.createSqsAdapter JSON_parse host_get sqsSend
                 params order event w in
    (exists result, outcome run = Normal result)
    /\ (Records event = [] ->
        run
        = (Normal (SqsAdapter.ErrorResponse
                     (HttpResponses_INTERNAL_SERVER_ERROR
                        (message_only "Internal Server Error"))),
           w, [SqsAdapter.FatalErrorLogged "Missing SQS Records"])).
Proof.
  intros order event w run. subst run. split.
  - destruct (Records event) as [|r rs] eqn:Hrec.
    + unfold SqsAdapter.createSqsAdapter, SqsAdapter.handler.
      rewrite Hrec. eexists. reflexivity.
    + rewrite handler_on_records by (rewrite Hrec; discriminate).
      match goal with
      | |- context [match ?m w with _ => _ end] =>
          destruct (m w) as [[[results|e] w1] t]
      end; eexists; reflexivity.
  - intros Hrec. unfold SqsAdapter.createSqsAdapter, SqsAdapter.handler.
    rewrite Hrec. reflexivity.
Qed.

End QueueHandlerFacts.


Section RegistrationFacts.
Context {W : Type}.
Variable userAdapter : UserAdapter.IUserAdapter W.
Variable now : W -> string.

Ltac run_registration :=
  repeat (progress (unfold RegisterUser.registerUserUseCase, RegisterUser.run_saga,
    UserRegistrationSagaBuilder.build, UserRegistrationSagaBuilder.forUser,
    Saga.execute, Saga.compensate, Saga.addStep, Saga.new,
    try_catch, bind, modify, get, lift, ret, throw, emit,
    Saga.push_result, Saga.incr_completedSteps, Saga.call_compensate,
    Saga.await, UserRegistrationSagaBuilder.registerStep,
    UserRegistrationSagaBuilder.generateStep,
    UserRegistrationSagaBuilder.saveStep,
    UserRegistrationSagaBuilder.claimsStep,
    UserRegistrationSagaBuilder.with_user,
    UserRegistrationSagaBuilder.call,
    UserRegistrationSagaBuilder.held_key;
  cbn)).

(** Registration when every adapter call succeeds: the user is
    registered, a key is generated, saved, and written to the claims,
    in this order, each call starting from the world the one before
    left; the builder remembers the key; no rollback runs. *)
Theorem registration_calls_adapter_in_order :
  forall user this w w1 key w2 w3 w4,
    let uid := UserAdapter.userId user in
    let held := UserRegistrationSagaBuilder.Build (Some user) (Some key) in
    UserAdapter.registerUser userAdapter user w = (Normal tt, w1) ->
    UserAdapter.generateApiKeys userAdapter uid w1 = (Normal key, w2) ->
    truthy_string key = true ->
    UserAdapter.saveApiKeyToDatabase userAdapter uid key w2
    = (Normal tt, w3) ->
    UserAdapter.updateUserClaims userAdapter uid
      (UserRegistrationSagaBuilder.claimsData held (now w3)) w3
    = (Normal tt, w4) ->
    RegisterUser.registerUserUseCase userAdapter now user
      (UserRegistrationSagaBuilder.MkStore this w)
    = (Normal RegisterUser.registered,
       UserRegistrationSagaBuilder.MkStore held w4,
       map Saga.ExecuteCalled [0; 1; 2; 3]).
Proof.
  intros user this w w1 key w2 w3 w4 uid held H1 H2 Hkey H3 H4.
  subst uid held. run_registration.
  rewrite H1. run_registration. rewrite H2. run_registration.
  rewrite Hkey. run_registration. rewrite H3. run_registration.
  rewrite H4. run_registration. reflexivity.
Qed.

(** Registration that fails part-way. Whatever the cause, the caller
    sees [Error('User registration failed')]. When the key cannot be
    generated nothing is undone: the rollback of the first step makes
    no adapter call, so the user stays registered. When the key cannot
    be saved it is deleted again. When the claims cannot be written
    the saved key is removed, then the key is deleted, and the claims
    are not reset. A rollback call that itself fails does not change
    any of this. *)
Theorem registration_rollback_by_failing_step :
  forall user this w,
    let uid := UserAdapter.userId user in
    let failed := ErrorObject Error "User registration failed" in
    let run := RegisterUser.registerUserUseCase userAdapter now user
                 (UserRegistrationSagaBuilder.MkStore this w) in
    (forall w1 e w2,
       UserAdapter.registerUser userAdapter user w = (Normal tt, w1) ->
       UserAdapter.generateApiKeys userAdapter uid w1 = (Throw e, w2) ->
       run
       = (Throw failed,
          UserRegistrationSagaBuilder.MkStore
            (UserRegistrationSagaBuilder.Build (Some user)
               (UserRegistrationSagaBuilder.generatedKeyId this)) w2,
          [Saga.ExecuteCalled 0; Saga.ExecuteCalled 1;
           Saga.CompensateCalled 0]))
    /\ (forall w1 key w2 e w3,
          UserAdapter.registerUser userAdapter user w = (Normal tt, w1) ->
          UserAdapter.generateApiKeys userAdapter uid w1
          = (Normal key, w2) ->
          truthy_string key = true ->
          UserAdapter.saveApiKeyToDatabase userAdapter uid key w2
          = (Throw e, w3) ->
          outcome run = Throw failed
          /\ final run
             = UserRegistrationSagaBuilder.MkStore
                 (UserRegistrationSagaBuilder.Build (Some user) (Some key))
                 (snd (UserAdapter.deleteApiKeys userAdapter uid key w3))
          /\ executed (trace run) = [0; 1; 2]
          /\ compensated (trace run) = [1; 0])
    /\ (forall w1 key w2 w3 e w4,
          UserAdapter.registerUser userAdapter user w = (Normal tt, w1) ->
          UserAdapter.generateApiKeys userAdapter uid w1
          = (Normal key, w2) ->
          truthy_string key = true ->
          UserAdapter.saveApiKeyToDatabase userAdapter uid key w2
          = (Normal tt, w3) ->
          UserAdapter.updateUserClaims userAdapter uid
            (UserRegistrationSagaBuilder.claimsData
               (UserRegistrationSagaBuilder.Build (Some user) (Some key))
               (now w3)) w3
          = (Throw e, w4) ->
          outcome run = Throw failed
          /\ final run
             = UserRegistrationSagaBuilder.MkStore
                 (UserRegistrationSagaBuilder.Build (Some user) (Some key))
                 (snd (UserAdapter.deleteApiKeys userAdapter uid key
                         (snd (UserAdapter.removeApiKeyFromDatabase
                                 userAdapter uid key w4))))
          /\ executed (trace run) = [0; 1; 2; 3]
          /\ compensated (trace run) = [2; 1; 0]).
Proof.
  intros user this w uid failed run. subst uid failed run.
  split; [|split].
  - intros w1 e w2 H1 H2. run_registration.
    rewrite H1. run_registration. rewrite H2. run_registration.
    reflexivity.
  - intros w1 key w2 e w3 H1 H2 Hkey H3. run_registration.
    rewrite H1. run_registration. rewrite H2. run_registration.
    rewrite Hkey. run_registration. rewrite H3.
    repeat (progress (run_registration; rewrite ?Hkey)).
    destruct (UserAdapter.deleteApiKeys userAdapter
                (UserAdapter.userId user) key w3) as [[[]|err] w4];
      run_registration; repeat split.

  - intros w1 key w2 w3 e w4 H1 H2 Hkey H3 H4. run_registration.
    rewrite H1. run_registration. rewrite H2. run_registration.
    rewrite Hkey. run_registration. rewrite H3. run_registration.
    rewrite H4.
    repeat (progress (run_registration; rewrite ?Hkey)).
    destruct (UserAdapter.removeApiKeyFromDatabase userAdapter
                (UserAdapter.userId user) key w4) as [[[]|err5] w5];
      repeat (progress (run_registration; rewrite ?Hkey));
      destruct (UserAdapter.deleteApiKeys userAdapter
                  (UserAdapter.userId user) key w5) as [[[]|err6] w6];
      run_registration; repeat split.
Qed.

(** Registration ends in one of two ways only. *)
Lemma registration_outcome user s :
  outcome (RegisterUser.registerUserUseCase userAdapter now user s)
  = Normal RegisterUser.registered
  \/ outcome (RegisterUser.registerUserUseCase userAdapter now user s)
     = Throw (ErrorObject Error "User registration failed").
Proof.
  unfold RegisterUser.registerUserUseCase, try_catch, outcome.
  match goal with
  | |- context [match ?m s with _ => _ end] =>
      destruct (m s) as [[[r|e] s1] t1] eqn:E
  end; cbn [fst]; [left|right; reflexivity].
  unfold bind, modify, get, lift, ret in E.
  cbn in E.
  destruct (RegisterUser.run_saga _ _) as [[[rs|e] s2] t2];
    cbn in E; [|discriminate].
  now injection E as <- _ _.
Qed.
End RegistrationFacts.

(** A user adapter that cannot save keys: the journal shows the key
    deleted again after the failed save, and nothing else undone. *)
Lemma registration_rollback_by_failing_step_witness :
  let run := RegistrationScenario.register "saveApiKeyToDatabase" in
  outcome run = Throw (ErrorObject Error "User registration failed")
  /\ UserRegistrationSagaBuilder.outside (final run)
     = ["registerUser alice"; "generateApiKeys alice";
        "saveApiKeyToDatabase alice key-1 (failed)";
        "deleteApiKeys alice key-1"]
  /\ compensated (trace run) = [1; 0].
Proof.
  intros run. subst run.
  unfold RegistrationScenario.register, RegistrationScenario.fresh.
  destruct (registration_rollback_by_failing_step
              (RegistrationScenario.adapter "saveApiKeyToDatabase")
              RegistrationScenario.now RegistrationScenario.alice
              UserRegistrationSagaBuilder.new []) as (_ & H & _).
  destruct (H ["registerUser alice"] "key-1"
              ["registerUser alice"; "generateApiKeys alice"]
              (ErrorObject Error "Failed: saveApiKeyToDatabase")
              ["registerUser alice"; "generateApiKeys alice";
               "saveApiKeyToDatabase alice key-1 (failed)"]
              eq_refl eq_refl eq_refl eq_refl) as (Ho & Hf & _ & Hc).
  split; [exact Ho|]. split; [|exact Hc].
  exact (f_equal (@UserRegistrationSagaBuilder.outside _) Hf).
Defined.

Lemma registration_calls_adapter_in_order_witness :
  let run := RegistrationScenario.register "" in
  outcome run = Normal RegisterUser.registered
  /\ UserRegistrationSagaBuilder.outside (final run)
     = ["registerUser alice"; "generateApiKeys alice";
        "saveApiKeyToDatabase alice key-1";
        String.append "updateUserClaims alice "
          (LambdaScenario.text_of (JStr "active"))].
Proof.
  pose proof (registration_calls_adapter_in_order
                (RegistrationScenario.adapter "")
                RegistrationScenario.now RegistrationScenario.alice
                UserRegistrationSagaBuilder.new []
                ["registerUser alice"] "key-1"
                ["registerUser alice"; "generateApiKeys alice"]
                ["registerUser alice"; "generateApiKeys alice";
                 "saveApiKeyToDatabase alice key-1"]
                ["registerUser alice"; "generateApiKeys alice";
                 "saveApiKeyToDatabase alice key-1";
                 String.append "updateUserClaims alice "
                   (LambdaScenario.text_of (JStr "active"))]
                eq_refl eq_refl eq_refl eq_refl eq_refl) as H.
  intros run. subst run.
  unfold RegistrationScenario.register, RegistrationScenario.fresh.
  split.
  - exact (f_equal (fun r => fst (fst r)) H).
  - exact (f_equal (fun r => UserRegistrationSagaBuilder.outside
                               (snd (fst r))) H).
Defined.

Section ClerkFacts.
Variable clerkWebhookSecret : string.
Variable new_Webhook :
  string -> Completion (string -> AuthWebhook.SvixHeaders
                        -> Completion AuthWebhook.WebhookEvent).

(** A webhook event is accepted exactly when the secret is set, the
    request has a body, the three Svix headers are there and not
    empty, and the signature check of that body against those headers
    passes. When the secret is missing that is the error reported,
    whatever else is wrong with the request. *)
Theorem webhook_accepted_only_when_verified :
  forall (event : ApiGateway.Event) (evt : AuthWebhook.WebhookEvent),
    (AuthWebhook.validateWebhookEvent clerkWebhookSecret new_Webhook event
     = Normal evt
     <-> truthy_string clerkWebhookSecret = true
         /\ exists payload svixId svixTimestamp svixSignature verify,
              ApiGateway.body event = Some payload
              /\ truthy_string payload = true
              /\ AuthWebhook.header_value event "svix-id" = Some svixId
              /\ AuthWebhook.header_value event "svix-timestamp"
                 = Some svixTimestamp
              /\ AuthWebhook.header_value event "svix-signature"
                 = Some svixSignature
              /\ new_Webhook clerkWebhookSecret = Normal verify
              /\ verify payload
                   (AuthWebhook.MkSvix svixId svixTimestamp svixSignature)
                 = Normal evt)
    /\ (truthy_string clerkWebhookSecret = false ->
        AuthWebhook.validateWebhookEvent clerkWebhookSecret new_Webhook
          event
        = Throw (ErrorObject Error "Missing WEBHOOK_SECRET")).
Proof.
  intros event evt. unfold AuthWebhook.validateWebhookEvent.
  split.
  - split.
    + intros H.
      destruct (truthy_string clerkWebhookSecret); [|discriminate].
      split; [reflexivity|]. cbn [negb] in H.
      destruct (ApiGateway.body event) as [payload|]; [|discriminate].
      destruct (truthy_string payload) eqn:Hp; [|discriminate].
      cbn [negb] in H.
      destruct (AuthWebhook.header_value event "svix-id") as [i|];
        [|discriminate].
      destruct (AuthWebhook.header_value event "svix-timestamp") as [t|];
        [|discriminate].
      destruct (AuthWebhook.header_value event "svix-signature") as [g|];
        [|discriminate].
      destruct (new_Webhook clerkWebhookSecret) as [verify|e];
        [|discriminate].
      destruct (verify payload (AuthWebhook.MkSvix i t g)) as [evt'|e]
        eqn:Hv; [|discriminate].
      injection H as <-.
      exists payload, i, t, g, verify. repeat split; auto.
    + intros (Hs & payload & i & t & g & verify & Hb & Hp & Hi & Ht & Hg
              & Hn & Hv).
      now rewrite Hs, Hb, Hp, Hi, Ht, Hg, Hn, Hv.
  - intros ->. reflexivity.
Qed.
End ClerkFacts.

Section AuthWebhookFacts.
Context {W : Type}.
Variable host_get : JsValue -> string -> JsValue.
Variable userAdapter : UserAdapter.IUserAdapter W.
Variable now : W -> string.
Variable clerkWebhookSecret : string.
Variable new_Webhook :
  string -> Completion (string -> AuthWebhook.SvixHeaders
                        -> Completion AuthWebhook.WebhookEvent).

(** The auth webhook never rejects and answers 200, 400 or 500.
    Without a body the answer is 500, not 400. A request that does
    not pass validation is answered 400 and nothing is touched. An
    event of a type other than [user.created] and [user.updated] --
    [user.deleted] included -- is answered 200 as ignored, and nothing
    is touched. For [user.created] with a string [id] the registration
    runs once; when it fails the answer is 500 and carries only
    "User registration failed". *)
Theorem auth_webhook_answers :
  forall (event : ApiGateway.Event) s,
    let run := AuthWebhook.authWebhookAdapter host_get userAdapter now
                 clerkWebhookSecret new_Webhook event s in
    let checked := AuthWebhook.validateWebhookEvent clerkWebhookSecret
                     new_Webhook event in
    let has_body :=
      match ApiGateway.body event with
      | Some text => truthy_string text
      | None => false
      end in
    (exists response,
       outcome run = Normal response
       /\ In (AuthWebhook.statusCode response) [200; 400; 500]%Z)
    /\ (has_body = false ->
        run
        = (Normal (AuthWebhook.internal_error
                     (ErrorObject Error "Missing request body")), s, []))
    /\ (forall e,
          has_body = true -> checked = Throw e ->
          run = (Normal AuthWebhook.invalid_payload, s, []))
    /\ (forall evt,
          has_body = true -> checked = Normal evt ->
          AuthWebhook.type evt <> "user.created" ->
          AuthWebhook.type evt <> "user.updated" ->
          run
          = (Normal (AuthWebhook.processed
                       (JObj [("status", JStr "ignored");
                              ("event", JStr (AuthWebhook.type evt))])),
             s, []))
    /\ (forall evt members id,
          has_body = true -> checked = Normal evt ->
          AuthWebhook.type evt = "user.created" ->
          AuthWebhook.data evt = JObj members ->
          member members "id" = JStr id ->
          let registration :=
            RegisterUser.registerUserUseCase userAdapter now
              (UserAdapter.MkNewUser id) s in
          final run = final registration
          /\ trace run = trace registration
          /\ outcome run
             = Normal
                 (match outcome registration with
                  | Normal _ =>
                      AuthWebhook.processed
                        (JObj [("status", JStr "success");
                               ("userId", JStr id);
                               ("action", JStr "user_created");
                               ("message",
                                JStr "User registered successfully")])
                  | Throw _ =>
                      AuthWebhook.internal_error
                        (ErrorObject Error "User registration failed")
                  end)).
Proof.
  intros event s run checked has_body.
  assert (Hrun : run
    = try_catch
        ((if has_body then ret tt
          else throw (ErrorObject Error "Missing request body")) ;;;
         match checked with
         | Throw _ => ret AuthWebhook.invalid_payload
         | Normal webhookEvent =>
             result <- AuthWebhook.processWebhookUseCase host_get
                         userAdapter now webhookEvent ;;
             ret (AuthWebhook.processed result)
         end)
        (fun error => ret (AuthWebhook.internal_error error)) s).
  { subst run has_body checked. unfold AuthWebhook.authWebhookAdapter.
    destruct (ApiGateway.body event) as [text|]; [|reflexivity].
    destruct (truthy_string text); reflexivity. }
  rewrite Hrun. clear Hrun run.
  split; [|split; [|split; [|split]]].
  - unfold try_catch, bind, ret, throw, outcome.
    destruct has_body; cbn [fst snd].
    2:{ eexists. split; [reflexivity|]. simpl. auto. }
    destruct checked as [evt|e]; cbn [fst snd].
    2:{ eexists. split; [reflexivity|]. simpl. auto. }
    destruct (AuthWebhook.processWebhookUseCase host_get userAdapter now
                evt s) as [[[r|e] s1] t1]; cbn [fst snd];
      eexists; (split; [reflexivity|]); simpl; auto.
  - intros ->. reflexivity.
  - intros e -> ->. reflexivity.
  - intros evt -> -> Hc Hu.
    unfold try_catch, bind, ret, throw, AuthWebhook.processWebhookUseCase.
    apply String.eqb_neq in Hc, Hu. rewrite Hc, Hu. reflexivity.
  - intros evt members id -> -> Ht Hd Hid registration.
    subst registration.
    pose proof (registration_outcome userAdapter now
                  (UserAdapter.MkNewUser id) s) as Hreg.
    unfold try_catch, bind, ret, throw, lift,
      AuthWebhook.processWebhookUseCase, AuthWebhook.handleUserCreated.
    rewrite Ht, Hd. cbn [String.eqb Ascii.eqb Bool.eqb get_prop fst snd].
    unfold AuthWebhook.UserDetailsSchema_parse. rewrite Hid.
    repeat (progress (unfold try_catch, bind, ret, throw, lift;
                      cbn [fst snd app])).
    unfold outcome, final, trace in *.
    destruct (RegisterUser.registerUserUseCase userAdapter now
                (UserAdapter.MkNewUser id) s) as [[[r|e] s1] t1];
      cbn [fst snd app] in *.
    + destruct Hreg as [Hreg|Hreg]; [|discriminate].
      injection Hreg as ->. cbn. rewrite ?app_nil_r. auto.
    + destruct Hreg as [Hreg|Hreg]; [discriminate|].
      injection Hreg as ->. cbn. rewrite ?app_nil_r. auto.
Qed.
End AuthWebhookFacts.

Section SliceFacts.
Variable size : nat.
Hypothesis size_pos : 0 < size.
Variable ids : list string.

Lemma slices_concat : forall turns from,
  List.length ids - from <= turns ->
  List.concat (BaseRepository.slices size turns from ids) = skipn from ids.
Proof.
  induction turns as [|turns IH]; intros from Hturns; simpl.
  - symmetry. apply skipn_all2. lia.
  - destruct (from <? List.length ids)%nat eqn:Hlt.
    + apply Nat.ltb_lt in Hlt. simpl.
      rewrite IH by lia.
      rewrite (Nat.add_comm from size), <- skipn_skipn.
      apply firstn_skipn.
    + apply Nat.ltb_ge in Hlt. symmetry. now apply skipn_all2.
Qed.

Lemma slices_bounds : forall turns from,
  Forall (fun batch => 0 < List.length batch <= size)
    (BaseRepository.slices size turns from ids).
Proof.
  induction turns as [|turns IH]; intros from; simpl; [constructor|].
  destruct (from <? List.length ids)%nat eqn:Hlt; [|constructor].
  apply Nat.ltb_lt in Hlt. constructor; [|apply IH].
  rewrite length_firstn, length_skipn. lia.
Qed.

Lemma slices_length : forall turns from,
  List.length ids - from <= turns ->
  List.length (BaseRepository.slices size turns from ids)
  = (List.length ids - from + (size - 1)) / size.
Proof.
  induction turns as [|turns IH]; intros from Hturns; simpl.
  - replace (List.length ids - from) with 0 by lia.
    symmetry. apply Nat.div_small. lia.
  - destruct (from <? List.length ids)%nat eqn:Hlt.
    + apply Nat.ltb_lt in Hlt. simpl. rewrite IH by lia.
      destruct (Nat.le_gt_cases size (List.length ids - from)) as [Hge|Hsmall].
      * replace (List.length ids - from + (size - 1))
          with (List.length ids - (from + size) + (size - 1) + 1 * size)
          by lia.
        rewrite Nat.div_add by lia. lia.
      * replace (List.length ids - (from + size)) with 0 by lia.
        rewrite (Nat.div_small (0 + (size - 1))) by lia.
        apply (Nat.div_unique _ _ _ (List.length ids - from - 1)); lia.
    + apply Nat.ltb_ge in Hlt.
      replace (List.length ids - from) with 0 by lia.
      symmetry. apply Nat.div_small. lia.
Qed.
End SliceFacts.

Section IndexFacts.
Lemma decimal_inj n n' :
  BaseRepository.decimal n = BaseRepository.decimal n' -> n = n'.
Proof.
  unfold BaseRepository.decimal. intros H.
  assert (Hnn : forall k, Nat.to_uint k <> Decimal.Nil).
  { intros k. rewrite <- (DecimalNat.Unsigned.of_to k) at 1.
    rewrite DecimalNat.Unsigned.to_of. apply DecimalFacts.unorm_nonnil. }
  apply (f_equal NilZero.uint_of_string) in H.
  rewrite !NilZero.usu in H by apply Hnn.
  injection H as H. now apply DecimalNat.Unsigned.to_uint_inj.
Qed.

Lemma append_inj prefix a b :
  String.append prefix a = String.append prefix b -> a = b.
Proof.
  induction prefix as [|c rest IH]; simpl; intros H; [exact H|].
  injection H as H. auto.
Qed.

Lemma nth_error_indexed {A} (l : list A) : forall start i x,
  nth_error l i = Some x ->
  nth_error (combine (seq start (List.length l)) l) i
  = Some (start + i, x).
Proof.
  induction l as [|a l IH]; intros start [|i] x H; simpl in *;
    try discriminate.
  - injection H as ->. now rewrite Nat.add_0_r.
  - rewrite (IH (S start) i x H). f_equal. f_equal. lia.
Qed.

Lemma indexed_fst {A} (l : list A) : forall start,
  map fst (combine (seq start (List.length l)) l)
  = seq start (List.length l).
Proof.
  induction l as [|a l IH]; intros start; simpl; [reflexivity|].
  now rewrite IH.
Qed.

(** Dropping entries keeps their indices distinct. *)
Lemma filter_keeps_indices_distinct {A} (keep : nat * A -> bool) :
  forall entries : list (nat * A),
    NoDup (map fst entries) -> NoDup (map fst (filter keep entries)).
Proof.
  intros entries Hdistinct.
  induction entries as [|entry rest IH]; simpl in *; [constructor|].
  inversion Hdistinct as [|? ? Hfresh Hrest]; subst.
  destruct (keep entry); simpl; auto.
  constructor; auto.
  intros Hin. apply Hfresh.
  apply in_map_iff in Hin. destruct Hin as (x & Hx & Hin).
  apply filter_In in Hin. apply in_map_iff. exists x. tauto.
Qed.

Lemma NoDup_map_inj {A B} (f : A -> B) (l : list A) :
  (forall x y, f x = f y -> x = y) -> NoDup l -> NoDup (map f l).
Proof.
  intros Hinj. induction 1 as [|a l Hnotin Hnd IH]; simpl; constructor;
    auto.
  intros Hin. apply in_map_iff in Hin. destruct Hin as (x & Hx & Hin).
  apply Hinj in Hx. now subst.
Qed.
End IndexFacts.

Section RepositoryFacts.
Context {W : Type}.
Variable send : DynamoDB.Command -> Act W DynamoDB.Output.
Variable this : BaseRepository.t.

(** The loop sends the batches in order and stops at the first send
    that fails. *)
Lemma fetch_spec : forall todo results w,
  match BaseRepository.fetch send this todo results w with
  | (Normal _, _, tr) => tr = map (batch_command this) todo
  | (Throw _, _, tr) =>
      exists n, n < List.length todo
                /\ tr = map (batch_command this)
                          (firstn (S n) todo)
  end.
Proof.
  induction todo as [|batch rest IH]; intros results w.
  - reflexivity.
  - cbn [BaseRepository.fetch]. unfold bind, BaseRepository.await.
    destruct (send _ w) as [[out|e] w1].
    + match goal with
      | |- context [BaseRepository.fetch send this rest ?r w1] =>
          specialize (IH r w1);
          destruct (BaseRepository.fetch send this rest r w1)
            as [[[rs|e] w2] tr]
      end.
      * subst tr. reflexivity.
      * destruct IH as (n & Hn & ->). exists (S n). split; [simpl; lia|].
        reflexivity.
    + exists 0. split; [simpl; lia|]. reflexivity.
Qed.

(** [batchGet] asks for every id exactly once, in order, at most 100
    per command, and with as few commands as that allows. Without ids
    it sends nothing. When it resolves, one command per batch was
    sent; when a send fails it stops there and rejects with its own
    message, not the client's. *)
Theorem batchGet_asks_in_batches_of_100 :
  forall (ids : list string) w,
    let batches := BaseRepository.batches ids in
    let run := BaseRepository.batchGet send this ids w in
    List.concat batches = ids
    /\ Forall (fun batch => 0 < List.length batch <= 100) batches
    /\ List.length batches = (List.length ids + 99) / 100
    /\ (ids = [] -> run = (Normal [], w, []))
    /\ match outcome run with
       | Normal _ =>
           trace run = map (batch_command this) batches
       | Throw e =>
           e = ErrorObject Error
                 (String.append "Failed to batch get entities from "
                    (BaseRepository.tableName this))
           /\ exists n,
                n < List.length batches
                /\ trace run
                   = map (batch_command this)
                       (firstn (S n) batches)
       end.
Proof.
  intros ids w batches run. subst batches run.
  assert (Hpos : 0 < BaseRepository.batchSize)
    by (unfold BaseRepository.batchSize; lia).
  split; [|split; [|split; [|split]]].
  - unfold BaseRepository.batches.
    rewrite (slices_concat BaseRepository.batchSize Hpos ids
               (List.length ids) 0) by lia.
    apply skipn_0.
  - apply (slices_bounds BaseRepository.batchSize Hpos).
  - unfold BaseRepository.batches.
    rewrite (slices_length BaseRepository.batchSize Hpos ids
               (List.length ids) 0) by lia.
    rewrite Nat.sub_0_r. reflexivity.
  - intros ->. reflexivity.
  - destruct ids as [|id ids']; [reflexivity|].
    unfold BaseRepository.batchGet, try_catch, outcome, trace.
    set (todo := BaseRepository.batches _).
    pose proof (fetch_spec todo [] w) as H.
    destruct (BaseRepository.fetch send this todo [] w)
      as [[[rs|e] w1] tr]; cbn [fst snd].
    + exact H.
    + unfold BaseRepository.fail, throw. cbn [fst snd].
      rewrite app_nil_r. split; [reflexivity|exact H].
Qed.

Lemma updated_entries_indices entries :
  NoDup (map fst (BaseRepository.updated_entries this entries)).
Proof.
  unfold BaseRepository.updated_entries.
  apply filter_keeps_indices_distinct.
  rewrite indexed_fst. apply seq_NoDup.
Qed.

(** [update] writes every attribute that is not a key attribute and
    no other: the attribute at position [index] of the entries is
    named by [#attr<index>] and its value is bound to [:val<index>],
    no placeholder is used twice, and the key attributes are never
    named. When nothing but key attributes is given, no command is
    sent and the call resolves. A failing send is reported with the
    repository's own message. *)
Theorem update_names_every_changed_attribute :
  forall id (entries : list (string * JsValue)) sortKeyValue w,
    let kept := BaseRepository.updated_entries this entries in
    let names := BaseRepository.expressionAttributeNames kept in
    let values := BaseRepository.expressionAttributeValues kept in
    let run :=
      BaseRepository.update send this id entries sortKeyValue w in
    (forall index attrName attrValue,
       nth_error entries index = Some (attrName, attrValue) ->
       BaseRepository.is_key_attribute this attrName = false ->
       In (BaseRepository.nameKey index, attrName) names
       /\ In (BaseRepository.placeholder index, attrValue) values
       /\ trace run
          = [BaseRepository.Sent
               (DynamoDB.UpdateCommand (BaseRepository.tableName this)
                  (BaseRepository.make_key this id sortKeyValue)
                  (String.append "SET "
                     (String.concat ", "
                        (BaseRepository.updateExpressions kept)))
                  values names)])
    /\ NoDup (map fst names)
    /\ NoDup (map fst values)
    /\ (forall attrName,
          In attrName (map snd names) ->
          BaseRepository.is_key_attribute this attrName = false)
    /\ (forallb (fun entry =>
                   BaseRepository.is_key_attribute this (fst entry))
          entries = true ->
        run = (Normal tt, w, []))
    /\ (forall e,
          outcome run = Throw e ->
          e = ErrorObject Error
                (BaseRepository.updateFailed
                   (BaseRepository.errorMessages this))).
Proof.
  intros id entries sortKeyValue w kept names values run.
  split; [|split; [|split; [|split; [|split]]]].
  - intros index attrName attrValue Hnth Hkey.
    assert (Hin : In (index, (attrName, attrValue)) kept).
    { unfold kept, BaseRepository.updated_entries.
      apply filter_In. split.
      - apply (nth_error_In _ index).
        now rewrite (nth_error_indexed entries 0 index _ Hnth).
      - simpl. now rewrite Hkey. }
    split; [|split].
    + unfold names, BaseRepository.expressionAttributeNames.
      apply in_map_iff. now exists (index, (attrName, attrValue)).
    + unfold values, BaseRepository.expressionAttributeValues.
      apply in_map_iff. now exists (index, (attrName, attrValue)).
    + unfold run, BaseRepository.update, try_catch, bind, ret,
        BaseRepository.await, trace.
      fold kept. fold names. fold values.
      destruct kept as [|first rest]; [destruct Hin|].
      cbn [BaseRepository.updateExpressions map].
      destruct (send _ w) as [[out|e] w1]; reflexivity.
  - unfold names, BaseRepository.expressionAttributeNames.
    rewrite map_map. cbn [fst].
    rewrite <- (map_map fst BaseRepository.nameKey).
    apply NoDup_map_inj; [|apply updated_entries_indices].
    intros x y H. apply append_inj in H. now apply decimal_inj.
  - unfold values, BaseRepository.expressionAttributeValues.
    rewrite map_map. cbn [fst].
    rewrite <- (map_map fst BaseRepository.placeholder).
    apply NoDup_map_inj; [|apply updated_entries_indices].
    intros x y H. apply append_inj in H. now apply decimal_inj.
  - intros attrName Hin.
    unfold names, BaseRepository.expressionAttributeNames in Hin.
    rewrite map_map in Hin. apply in_map_iff in Hin.
    destruct Hin as (ie & <- & Hin).
    unfold kept, BaseRepository.updated_entries in Hin.
    apply filter_In in Hin. destruct Hin as [_ Hin].
    now apply negb_true_iff in Hin.
  - intros Hall.
    assert (Hnone : kept = []).
    { unfold kept, BaseRepository.updated_entries.
      generalize 0. clear -Hall.
      induction entries as [|[n v] rest IH]; intros start;
        [reflexivity|].
      simpl in *. apply andb_true_iff in Hall. destruct Hall as [-> Hall].
      simpl. apply IH, Hall. }
    unfold run, BaseRepository.update. fold kept. rewrite Hnone.
    reflexivity.
  - intros e. unfold run, BaseRepository.update, try_catch, bind, ret,
      BaseRepository.await, BaseRepository.fail, throw, outcome.
    fold kept.
    destruct (BaseRepository.updateExpressions kept);
      [discriminate|].
    destruct (send _ w) as [[out|e'] w1]; cbn [fst]; [discriminate|].
    now intros [= <-].
Qed.

(** Whatever the database client throws, the repository rejects with
    one of its configured messages: [save], [delete] and [getById]
    never pass the client's error on -- except that [getById] lets an
    [Error] through whose message is the not-found message. A missing
    item is reported as not found. *)
Theorem repository_hides_client_errors :
  forall entity id sortKeyValue w,
    let messages := BaseRepository.errorMessages this in
    (forall e,
       outcome (BaseRepository.save send this entity w) = Throw e ->
       e = ErrorObject Error (BaseRepository.saveFailed messages))
    /\ (forall e,
          outcome (BaseRepository.delete send this id sortKeyValue w)
          = Throw e ->
          e = ErrorObject Error (BaseRepository.deleteFailed messages))
    /\ (forall e,
          outcome (BaseRepository.getById send this id sortKeyValue w)
          = Throw e ->
          error_message e = BaseRepository.notFound messages
          \/ e = ErrorObject Error (BaseRepository.getFailed messages))
    /\ (forall out w1,
          send (DynamoDB.GetCommand (BaseRepository.tableName this)
                  (BaseRepository.make_key this id sortKeyValue)) w
          = (Normal out, w1) ->
          DynamoDB.Item out = None ->
          outcome (BaseRepository.getById send this id sortKeyValue w)
          = Throw (ErrorObject Error (BaseRepository.notFound messages))).
Proof.
  intros entity id sortKeyValue w messages. subst messages.
  split; [|split; [|split]].
  - intros e. unfold BaseRepository.save, try_catch, bind, ret,
      BaseRepository.await, BaseRepository.fail, throw, outcome.
    destruct (send _ w) as [[out|e'] w1]; cbn [fst]; [discriminate|].
    now intros [= <-].
  - intros e. unfold BaseRepository.delete, try_catch, bind, ret,
      BaseRepository.await, BaseRepository.fail, throw, outcome.
    destruct (send _ w) as [[out|e'] w1]; cbn [fst]; [discriminate|].
    now intros [= <-].
  - intros e. unfold BaseRepository.getById, try_catch, bind, ret,
      BaseRepository.await, BaseRepository.fail, throw, outcome.
    destruct (send _ w) as [[out|e'] w1]; cbn [fst snd].
    + destruct (DynamoDB.Item out) as [item|];
        [destruct (truthy item); [discriminate|]|];
        cbn [fst snd instanceof_Error error_message andb];
        rewrite String.eqb_refl; cbn [fst]; intros [= <-]; now left.
    + destruct (instanceof_Error e' && _) eqn:Hpass; cbn [fst].
      * intros [= <-]. left.
        apply andb_true_iff in Hpass. destruct Hpass as [_ Hpass].
        now apply String.eqb_eq in Hpass.
      * intros [= <-]. now right.
  - intros out w1 Hsend Hitem.
    unfold BaseRepository.getById, try_catch, bind, ret,
      BaseRepository.await, BaseRepository.fail, throw, outcome.
    rewrite Hsend. cbn [fst snd]. rewrite Hitem.
    cbn [fst snd instanceof_Error error_message andb].
    rewrite String.eqb_refl. reflexivity.
Qed.
End RepositoryFacts.

Section ResearchSchemaFacts.
(** A field that parsed as a string is a string. *)
Lemma parse_string_field v x :
  Zod.parse_field Zod.ZString v = Some x -> exists s, x = JStr s /\ v = x.
Proof. destruct v; simpl; intros [= <-]; eauto. Qed.

Lemma parse_array_field v x :
  Zod.parse_field Zod.ZStringArray v = Some x ->
  Zod.parse_field Zod.ZStringArray x = Some x.
Proof.
  destruct v; simpl; try discriminate.
  destruct (forallb Zod.is_string items) eqn:H; [|discriminate].
  intros [= <-]. simpl. now rewrite H.
Qed.

(** A member written last is the one read. *)
Lemma own_member_last (members : list (string * JsValue)) key v :
  own_member (members ++ [(key, v)]) key = Some v.
Proof.
  induction members as [|[k x] rest IH]; simpl.
  - now rewrite String.eqb_refl.
  - now rewrite IH.
Qed.

(** What is saved when research completes carries no status: the
    status set just before is not part of [SaveResearchSchema] and is
    dropped by the parse. The saved item still passes
    [RequestResearchOutputSchema], which fills in the default, so a
    completed research reads back as [pending], and without its
    [userId]. *)
Theorem completed_research_reads_back_as_pending :
  forall (research : list (string * JsValue)) (userId : string) saved,
    Zod.parse Research.SaveResearchSchema
      (completed_with_user research userId) = Normal saved ->
    member saved "researchStatus" = JUndefined
    /\ member saved "userId" = JStr userId
    /\ exists read,
         Zod.parse Research.RequestResearchOutputSchema (JObj saved)
         = Normal read
         /\ member read "researchStatus" = JStr Research.PENDING
         /\ member read "userId" = JUndefined
         /\ member read "researchId" = member saved "researchId"
         /\ member read "content" = member saved "content".
Proof.
  intros research userId saved H.
  unfold completed_with_user, Zod.parse, Research.SaveResearchSchema in H.
  cbn [Zod.parse_shape] in H.
  set (m := (research ++ _) ++ _) in H.
  assert (Hu : member m "userId" = JStr userId).
  { unfold m, member. now rewrite own_member_last. }
  rewrite Hu in H.
  change (Zod.parse_field Zod.ZString (JStr userId))
    with (Some (JStr userId)) in H.
  destruct (Zod.parse_field Zod.ZString (member m "researchId"))
    as [x1|] eqn:H1; [|discriminate H].
  destruct (Zod.parse_field Zod.ZString (member m "title"))
    as [x2|] eqn:H2; [|discriminate H].
  destruct (Zod.parse_field Zod.ZString (member m "content"))
    as [x3|] eqn:H3; [|discriminate H].
  destruct (Zod.parse_field Zod.ZStringArray (member m "citation_links"))
    as [x4|] eqn:H4; [|discriminate H].
  injection H as <-.
  apply parse_string_field in H1, H2, H3.
  destruct H1 as (s1 & -> & _), H2 as (s2 & -> & _), H3 as (s3 & -> & _).
  apply parse_array_field in H4.
  split; [reflexivity|]. split; [reflexivity|].
  eexists. split.
  - unfold Zod.parse, Research.RequestResearchOutputSchema.
    cbn [Zod.parse_shape].
    change (member _ "researchId") with (JStr s1).
    change (member _ "title") with (JStr s2).
    change (member _ "content") with (JStr s3).
    change (member _ "citation_links") with x4.
    change (member _ "researchStatus") with JUndefined.
    rewrite H4. cbn. reflexivity.
  - repeat split.
Qed.
End ResearchSchemaFacts.

(** The item saved for a completed research, read back. *)
Lemma completed_research_reads_back_as_pending_witness :
  let saved :=
    [ ("researchId", JStr "r1"); ("userId", JStr "u1"); ("title", JStr "T");
      ("content", JStr "C");
      ("citation_links", JArr [JStr "https://a"]) ] in
  Zod.parse Research.SaveResearchSchema
    (completed_with_user ResearchScenario.research "u1") = Normal saved
  /\ exists read,
       Zod.parse Research.RequestResearchOutputSchema (JObj saved)
       = Normal read
       /\ member read "researchStatus" = JStr "pending".
Proof.
  intros saved. split; [reflexivity|].
  destruct (completed_research_reads_back_as_pending
              ResearchScenario.research "u1" saved eq_refl)
    as (_ & _ & read & Hread & Hstatus & _).
  exists read. split; assumption.
Defined.

Section ResearchFacts.
Context {W : Type}.
Variable JSON_parse : string -> Completion JsValue.
Variable host_get : JsValue -> string -> JsValue.
Variable decodeToken : string -> Act W JsValue.
Variable tableName : string.
Variable send : DynamoDB.Command -> Act W DynamoDB.Output.
Variable executeResearch :
  Research.RequestResearchInput -> Act W (list (string * JsValue)).
Variable updateUserCredits : Research.UpdateUserCreditsCommand -> Act W unit.
Variable OrchestratorHttpResponses_OK : JsValue -> Completion HttpResponse.

Lemma attempts_retried (tr : list Retry.Event) :
  attempts (map Research.Retried tr) = called tr.
Proof.
  induction tr as [|ev tr IH]; [reflexivity|].
  simpl. rewrite IH. now destruct ev.
Qed.

Lemma attempts_app (t1 t2 : list Research.Event) :
  attempts (t1 ++ t2) = attempts t1 ++ attempts t2.
Proof. apply flat_map_app. Qed.

Lemma sent_app (t1 t2 : list Research.Event) :
  sent (t1 ++ t2) = sent t1 ++ sent t2.
Proof. apply flat_map_app. Qed.

Lemma sent_retried (tr : list Retry.Event) :
  sent (map Research.Retried tr) = [].
Proof. induction tr as [|ev tr IH]; [reflexivity|]. exact IH. Qed.

(** The research use case runs the OpenAI pipeline at most three
    times and writes to the table at most once, and only after an
    attempt has succeeded: what it writes is the attempt's result with
    the user id, as [SaveResearchSchema] keeps it. Every failure --
    of the pipeline, of the schema, of the write -- is reported as
    [Error('Failed to perform research')]. *)
Theorem research_is_saved_only_after_a_successful_attempt :
  forall (input : Research.RequestResearchInput) w,
    let tries :=
      Retry.withRetry (executeResearch input)
        (Retry.Build 3 1000 (fun _ w' => (Normal tt, w'))) w in
    let run := Research.runResearchUsecase tableName send executeResearch
                 input w in
    let failed := ErrorObject Error "Failed to perform research" in
    attempts (trace run) = called (trace tries)
    /\ List.length (attempts (trace run)) <= 3
    /\ match outcome tries with
       | Throw _ => sent (trace run) = [] /\ outcome run = Throw failed
       | Normal research =>
           match Zod.parse Research.SaveResearchSchema
                   (completed_with_user research (Research.userId input))
           with
           | Normal saved =>
               sent (trace run)
               = [DynamoDB.PutCommand tableName (JObj saved)]
           | Throw _ =>
               sent (trace run) = [] /\ outcome run = Throw failed
           end
       end
    /\ (forall e, outcome run = Throw e -> e = failed).
Proof.
  intros input w tries run failed.
  assert (Hlen : List.length (called (trace tries)) <= 3).
  { destruct (loop_spec (executeResearch input)
                (Retry.Build 3 1000 (fun _ w' => (Normal tt, w'))) 3 1 w
                eq_refl) as (Hc & _).
    subst tries. unfold Retry.withRetry. cbn [Retry.retries].
    rewrite Hc, length_seq. lia. }
  subst run. unfold Research.runResearchUsecase, Research.runResearch,
    Research.saveResearch, Research.await, try_catch, bind, lift, ret,
    throw.
  fold tries. unfold outcome, trace in *.
  destruct tries as [[[research|e] w1] tr]; cbn [fst snd] in *.
  - fold (completed_with_user research (Research.userId input)).
    destruct (Zod.parse Research.SaveResearchSchema _) as [saved|e];
      cbn [fst snd].
    + destruct (send _ w1) as [[out|e] w2]; cbn [fst snd app];
        rewrite ?app_nil_r, attempts_app, sent_app, attempts_retried,
          sent_retried;
        cbn [attempts sent flat_map app]; rewrite ?app_nil_r;
        (split; [reflexivity|]); (split; [exact Hlen|]);
        (split; [reflexivity|]); intros e'; intros [= <-]; reflexivity.
    + rewrite ?app_nil_r, attempts_retried, sent_retried.
      split; [reflexivity|]. split; [exact Hlen|]. split; [auto|].
      now intros e' [= <-].
  - rewrite ?app_nil_r, attempts_retried, sent_retried.
    split; [reflexivity|]. split; [exact Hlen|]. split; [auto|].
    now intros e' [= <-].
Qed.

(** A pending entry costs its credit first. The credit is taken
    before anything is written; when it cannot be taken nothing is
    written; and when the write then fails the request fails with the
    credit already taken: no call gives it back. *)
Theorem pending_research_takes_the_credit_first :
  forall (input : Research.RequestResearchInput) w,
    let decrement :=
      Research.MkCredits (Research.userId input) (Research.keyId input)
        "decrement" 1 in
    let entry :=
      JObj [ ("researchId", JStr (Research.id input));
             ("userId", JStr (Research.userId input));
             ("title",
              JStr (Research.pending_title (Research.prompt input)));
             ("content", JStr "");
             ("citation_links", JArr []);
             ("researchStatus", JStr Research.PENDING) ] in
    let put := DynamoDB.PutCommand tableName entry in
    let run := Research.createPendingResearch tableName send
                 updateUserCredits input w in
    (forall e w1,
       updateUserCredits decrement w = (Throw e, w1) ->
       run = (Throw e, w1, [Research.CreditsUpdated decrement]))
    /\ (forall w1 e w2,
          updateUserCredits decrement w = (Normal tt, w1) ->
          send put w1 = (Throw e, w2) ->
          run
          = (Throw e, w2,
             [Research.CreditsUpdated decrement; Research.Sent put]))
    /\ (forall w1 out w2,
          updateUserCredits decrement w = (Normal tt, w1) ->
          send put w1 = (Normal out, w2) ->
          run
          = (Normal entry, w2,
             [Research.CreditsUpdated decrement; Research.Sent put])).
Proof.
  intros input w decrement entry put run.
  assert (Hparse :
    Zod.parse Research.PendingResearchSchema entry
    = Normal [ ("researchId", JStr (Research.id input));
               ("userId", JStr (Research.userId input));
               ("title",
                JStr (Research.pending_title (Research.prompt input)));
               ("content", JStr "");
               ("citation_links", JArr []);
               ("researchStatus", JStr Research.PENDING) ])
    by reflexivity.
  subst run. unfold Research.createPendingResearch,
    Research.decrementUserCredits, Research.saveResearch, Research.await,
    bind, lift, ret.
  cbn [Research.c_userId Research.c_keyId].
  fold decrement. fold entry. rewrite Hparse. fold entry. fold put.
  split; [|split].
  - intros e w1 ->. reflexivity.
  - intros w1 e w2 -> Hput. cbn [fst snd app]. rewrite Hput. reflexivity.
  - intros w1 out w2 -> Hput. cbn [fst snd app]. rewrite Hput.
    reflexivity.
Qed.

(** Looking a research item up by id: whatever goes wrong after
    authentication, the client gets the same 500 answer. A request
    without the [id] path parameter is answered 500 and the use case
    is not called; an item that is not in the table, and a failing
    read, are answered 500 as well, not 404. *)
Theorem research_lookup_failures_are_answered_500 :
  forall (event : ApiGateway.Event) w user w1 t,
    let params :=
      Research.getResearchByIdAdapter tableName send
        OrchestratorHttpResponses_OK in
    let run := LambdaAdapter.createLambdaAdapter JSON_parse host_get
                 decodeToken params event w in
    let internal :=
      HttpResponses_INTERNAL_SERVER_ERROR
        (message_only "Internal Server Error") in
    let lookup researchId :=
      send (DynamoDB.GetCommand tableName
              [("researchId", JStr researchId)]) w1 in
    LambdaAdapter.authenticate Research.researchByIdAdapterOptions
      (LambdaAdapter.defaultGetUserInfo decodeToken) event w
    = (Normal user, w1, t) ->
    (Research.getResearchByIdEventParser event user
     = Throw (ErrorObject Error "Research ID is required") ->
     run = (Normal internal, w1, t))
    /\ (forall input,
          Research.getResearchByIdEventParser event user = Normal input ->
          (forall out w2,
             lookup (Research.researchId input) = (Normal out, w2) ->
             DynamoDB.Item out = None ->
             run
             = (Normal internal, w2,
                t ++ [LambdaAdapter.UseCaseCalled input]))
          /\ (forall e w2,
                lookup (Research.researchId input) = (Throw e, w2) ->
                run
                = (Normal internal, w2,
                   t ++ [LambdaAdapter.UseCaseCalled input]))).
Proof.
  intros event w user w1 t params run internal lookup Hauth.
  subst run params. unfold LambdaAdapter.createLambdaAdapter.
  cbn [LambdaAdapter.options LambdaAdapter.getUserInfo
       Research.getResearchByIdAdapter LambdaAdapter.eventParser
       LambdaAdapter.schema LambdaAdapter.useCase
       LambdaAdapter.responseFormatter].
  unfold try_catch, bind. rewrite Hauth.
  unfold lift, ret, LambdaAdapter.validateBody.
  cbn [LambdaAdapter.requireBody Research.researchByIdAdapterOptions
       LambdaAdapter.not_false fst snd app].
  split.
  - intros ->. cbn. rewrite !app_nil_r. reflexivity.
  - intros input ->. cbn [fst snd app].
    unfold LambdaAdapter.await, Research.as_use_case,
      Research.getResearchUsecase, Research.getResearchById,
      Research.await, try_catch, bind, lift, ret, throw.
    subst lookup. cbn beta.
    split.
    + intros out w2 -> ->. cbn. rewrite !app_nil_r. reflexivity.
    + intros e w2 ->. cbn. rewrite !app_nil_r. reflexivity.
Qed.
End ResearchFacts.

(** A signed-in user asks for an item that is not in the table. *)
Lemma research_lookup_failures_are_answered_500_witness :
  let run :=
    LambdaAdapter.createLambdaAdapter LambdaScenario.JSON_parse
      LambdaScenario.host_get ResearchScenario.decodeToken
      (Research.getResearchByIdAdapter "Research" ResearchScenario.send
         ResearchScenario.ok)
      ResearchScenario.get_r9 [] in
  Http.statusCode
    (match outcome run with
     | Normal response => response
     | Throw _ => createHttpResponse OK (message_only "")
     end) = 500%Z.
Proof.
  destruct (research_lookup_failures_are_answered_500
              LambdaScenario.JSON_parse LambdaScenario.host_get
              ResearchScenario.decodeToken "Research" ResearchScenario.send
              ResearchScenario.ok ResearchScenario.get_r9 []
              (MkUser "u1" None) [] [LambdaAdapter.GetUserInfoCalled]
              eq_refl) as (_ & H).
  destruct (H (Research.MkGet "u1" "r9") eq_refl) as (Hmissing & _).
  intros run. subst run.
  rewrite (Hmissing (DynamoDB.MkOutput None None None) [] eq_refl eq_refl).
  reflexivity.
Defined.

Section BillingFacts.
Context {W : Type}.
Variable JSON_parse : string -> Completion JsValue.
Variable decodeToken : string -> Act W JsValue.
Variable CheckoutSessionInputSchema_parse : JsValue -> Completion JsValue.
Variable CreateApiKeyInputSchema_parse : JsValue -> Completion JsValue.
Variable createCheckoutSessionUseCase : JsValue -> Act W JsValue.
Variable createApiKeyUseCase : JsValue -> Act W JsValue.

(** Without a credential the identity provider accepts, the two
    billing adapters answer 401 with [{"error":"Unauthorized"}] and
    call no use case. *)
Theorem billing_adapters_answer_401_without_valid_credential :
  forall (event : ApiGateway.Event) w,
    (forall user,
       outcome (getValidUserFromAuthHeader decodeToken event w)
       <> Normal (Some user)) ->
    let unauthorized :=
      BillingAdapters.MkResult 401
        (Json.stringify (JObj [("error", JStr "Unauthorized")])) in
    (exists w',
       BillingAdapters.checkoutAdapter decodeToken
         CheckoutSessionInputSchema_parse createCheckoutSessionUseCase
         event w
       = (Normal unauthorized, w', []))
    /\ (forall text parsed,
          ApiGateway.body event = Some text ->
          truthy_string text = true ->
          JSON_parse text = Normal parsed ->
          exists w',
            BillingAdapters.createApiKeyAdapter JSON_parse decodeToken
              CreateApiKeyInputSchema_parse createApiKeyUseCase event w
            = (Normal unauthorized, w', [])).
Proof.
  intros event w Hnone unauthorized.
  pose proof (getValidUser_outcome decodeToken event w) as H.
  assert (Hrej : exists w',
    BillingAdapters.validUser_of decodeToken event w
    = (Throw (ErrorObject Error "Unauthorized"), w', [])).
  { unfold BillingAdapters.validUser_of.
    destruct (getValidUserFromAuthHeader decodeToken event w)
      as [[[[user|]|e] w1] t1] eqn:E.
    - exfalso. apply (Hnone user). reflexivity.
    - rewrite H. now exists w1.
    - rewrite H. now exists w1. }
  destruct Hrej as (w' & Hrej).
  split.
  - exists w'. unfold BillingAdapters.checkoutAdapter, try_catch, bind.
    rewrite Hrej. reflexivity.
  - intros text parsed Hbody Htext Hparse. exists w'.
    unfold BillingAdapters.createApiKeyAdapter, try_catch, bind, lift, ret.
    rewrite Hbody, Htext, Hparse. cbn [fst snd app].
    rewrite Hrej. reflexivity.
Qed.

(** The API-key adapter looks at the body before it looks at the
    caller: without a body it answers 400 and the identity provider is
    not asked. With a body and a valid caller, the object handed to
    the schema carries the caller's own [userId], whatever [userId]
    the body names. The adapter never rejects, and answers 200, 400,
    401 or 500. *)
Theorem api_key_adapter_binds_the_authenticated_user :
  forall (event : ApiGateway.Event) w,
    let run :=
      BillingAdapters.createApiKeyAdapter JSON_parse decodeToken
        CreateApiKeyInputSchema_parse createApiKeyUseCase event w in
    (exists response,
       outcome run = Normal response
       /\ In (BillingAdapters.statusCode response) [200; 400; 401; 500]%Z)
    /\ (ApiGateway.body event = None \/ ApiGateway.body event = Some "" ->
        run
        = (Normal (BillingAdapters.failure
                     (ErrorObject Error "Missing request body")), w, [])
        /\ BillingAdapters.error_status
             (ErrorObject Error "Missing request body") = 400%Z)
    /\ (forall text parsed user w1,
          ApiGateway.body event = Some text ->
          truthy_string text = true ->
          JSON_parse text = Normal parsed ->
          BillingAdapters.validUser_of decodeToken event w
          = (Normal user, w1, []) ->
          let raw :=
            BillingAdapters.spread parsed
            ++ [("userId", JStr (Identity.userId user))] in
          member raw "userId" = JStr (Identity.userId user)
          /\ run
             = match CreateApiKeyInputSchema_parse (JObj raw) with
               | Throw e => (Normal (BillingAdapters.failure e), w1, [])
               | Normal params =>
                   match createApiKeyUseCase params w1 with
                   | (Normal result, w2) =>
                       (Normal (BillingAdapters.success result), w2,
                        [BillingAdapters.UseCaseCalled params])
                   | (Throw e, w2) =>
                       (Normal (BillingAdapters.failure e), w2,
                        [BillingAdapters.UseCaseCalled params])
                   end
               end).
Proof.
  intros event w run. subst run.
  split; [|split].
  - unfold BillingAdapters.createApiKeyAdapter, try_catch, outcome.
    match goal with
    | |- context [match ?m w with _ => _ end] =>
        destruct (m w) as [[[r|e] w1] t1] eqn:E
    end; cbn [fst snd ret].
    + unfold bind, lift, ret, BillingAdapters.await in E.
      destruct (ApiGateway.body event) as [text|];
        [destruct (truthy_string text)|]; cbn in E; try discriminate.
      destruct (JSON_parse text) as [parsed|]; cbn in E; try discriminate.
      destruct (BillingAdapters.validUser_of decodeToken event w)
        as [[[user|] w2] t2]; cbn in E; try discriminate.
      destruct (CreateApiKeyInputSchema_parse _) as [params|];
        cbn in E; try discriminate.
      destruct (createApiKeyUseCase params w2) as [[result|] w3];
        cbn in E; try discriminate.
      injection E as <- _ _. eexists. split; [reflexivity|].
      simpl. auto.
    + eexists. split; [reflexivity|].
      unfold BillingAdapters.failure, BillingAdapters.error_status.
      cbn [BillingAdapters.statusCode].
      destruct (instanceof_Error e); [|simpl; auto].
      destruct (String.eqb _ _); simpl; auto.
  - intros Hbody. split; [|reflexivity].
    unfold BillingAdapters.createApiKeyAdapter, try_catch, bind.
    destruct Hbody as [-> | ->]; reflexivity.
  - intros text parsed user w1 Hbody Htext Hparse Huser raw. split.
    + unfold raw, member. now rewrite own_member_last.
    + unfold BillingAdapters.createApiKeyAdapter, try_catch, bind, lift,
        ret, BillingAdapters.await.
      rewrite Hbody, Htext, Hparse. cbn [fst snd app].
      rewrite Huser. cbn [fst snd app]. fold raw.
      destruct (CreateApiKeyInputSchema_parse (JObj raw)) as [params|e];
        cbn [fst snd app]; [|reflexivity].
      destruct (createApiKeyUseCase params w1) as [[result|e] w2];
        reflexivity.
Qed.
End BillingFacts.

(** No [authorization] header, and the provider rejects the empty
    token: the checkout adapter answers 401. *)
Lemma billing_adapters_answer_401_without_valid_credential_witness :
  exists w',
    BillingAdapters.checkoutAdapter (W:=LambdaScenario.World)
      LambdaScenario.decodeToken (fun v => Normal v)
      (fun v w => (Normal v, w)) LambdaScenario.anonymous_get tt
    = (Normal (BillingAdapters.MkResult 401
                 (Some (LambdaScenario.text_of
                          (JObj [("error", JStr "Unauthorized")])))),
       w', []).
Proof.
  refine (proj1 (billing_adapters_answer_401_without_valid_credential
                   LambdaScenario.JSON_parse LambdaScenario.decodeToken
                   (fun v => Normal v) (fun v => Normal v)
                   (fun v w => (Normal v, w)) (fun v w => (Normal v, w))
                   LambdaScenario.anonymous_get tt _)).
  intros user. discriminate.
Defined.
